(** * Receipt processing: the multi-backend orchestrator and the extraction engine

    A shallow embedding of four parts of the repository:

    - [MultiOCRService.processImage] (the orchestrator that tries the
      primary backend, the fallback backend and then every other backend)
      and [MultiOCRService.convertToMarkdown];
    - [OCRService.parseMarkdown] and the functions it calls (the extraction
      engine that turns recognised text into a structured receipt);
    - [convertToMarkdown] of the backends, which writes a recognised text
      as markdown;
    - [Database.storeReceipt], as far as the rows it hands to the database.

    JavaScript strings are lists of UTF-16 code units, regular expressions
    are an abstract syntax interpreted by a backtracking matcher that
    enumerates the matches in the priority order of ECMAScript, and numbers
    are IEEE doubles: the rationals that a double holds, every result
    rounded to the nearest of them, the two infinities and NaN (the sign of
    zero is not modelled).  [Math.random] and the clock are inputs. *)

From Stdlib Require Import String Ascii DecimalString.
From Stdlib Require Import List Bool Arith Lia NArith ZArith QArith Qreduction
  Qpower Qabs Lqa.
Import ListNotations.

Set Implicit Arguments.
Close Scope Q_scope.

(* ================================================================== *)
(** ** JavaScript strings *)
(* ================================================================== *)

Module JsString.

Definition char := N.
Definition jsstring := list char.

Local Open Scope N_scope.

(** A code point above the basic plane is stored as a surrogate pair. *)
Definition emit (c : N) : jsstring :=
  if c <? 65536 then [c]
  else let v := c - 65536 in [55296 + N.shiftr v 10; 56320 + N.land v 1023].

(** Source text is UTF-8; [decode] turns its bytes into code units. *)
Fixpoint decode (acc : N) (need : nat) (s : string) : jsstring :=
  match s with
  | EmptyString => []
  | String a s' =>
      let b := N_of_ascii a in
      match need with
      | O =>
          if b <? 128 then b :: decode 0 O s'
          else if b <? 224 then decode (N.land b 31) 1%nat s'
          else if b <? 240 then decode (N.land b 15) 2%nat s'
          else decode (N.land b 7) 3%nat s'
      | S O => emit (acc * 64 + N.land b 63) ++ decode 0 O s'
      | S n => decode (acc * 64 + N.land b 63) n s'
      end
  end.

Definition js (s : string) : jsstring := decode 0 O s.

(** The line feed that [split('\n')] cuts at. *)
Definition LF : char := 10.

(** The code unit written as a string of one character. *)
Definition chr (s : string) : char := hd 0 (js s).

Fixpoint str_eqb (a b : jsstring) : bool :=
  match a, b with
  | [], [] => true
  | x :: a', y :: b' => (x =? y) && str_eqb a' b'
  | _, _ => false
  end.

Definition in_range (lo hi c : char) : bool := (lo <=? c) && (c <=? hi).

Definition is_digit (c : char) : bool := in_range 48 57 c.

(** LineTerminator: LF, CR, LS, PS. *)
Definition is_line_terminator (c : char) : bool :=
  (c =? 10) || (c =? 13) || (c =? 8232) || (c =? 8233).

(** WhiteSpace and LineTerminator, the set of [\s] and of [trim]. *)
Definition is_whitespace (c : char) : bool :=
  in_range 9 13 c || (c =? 32) || (c =? 160) || (c =? 5760)
  || in_range 8192 8202 c || (c =? 8232) || (c =? 8233) || (c =? 8239)
  || (c =? 8287) || (c =? 12288) || (c =? 65279).

(** [toLowerCase] of one code unit.  The table covers ASCII, Latin-1 and
    the three code units outside Latin-1 whose lower case reaches it
    (U+0130, the Kelvin sign, the Angstrom sign); every other code unit is
    left as it is.  The keywords and patterns of the engine are written in
    ASCII, German letters and the euro sign, and no code unit left out of
    the two tables has an upper or lower case among these. *)
Definition lower_cu (c : char) : jsstring :=
  if in_range 65 90 c then [c + 32]
  else if in_range 192 222 c && negb (c =? 215) then [c + 32]
  else if c =? 304 then [105; 775]
  else if c =? 8490 then [107]
  else if c =? 8491 then [229]
  else [c].

(** [toUpperCase] of one code unit, on the same part of Unicode. *)
Definition upper_cu (c : char) : jsstring :=
  if in_range 97 122 c then [c - 32]
  else if c =? 181 then [924]
  else if c =? 223 then [83; 83]
  else if in_range 224 254 c && negb (c =? 247) then [c - 32]
  else if c =? 255 then [376]
  else if c =? 305 then [73]
  else if c =? 383 then [83]
  else [c].

Definition toLowerCase (s : jsstring) : jsstring := flat_map lower_cu s.
Definition toUpperCase (s : jsstring) : jsstring := flat_map upper_cu s.

Fixpoint trimStart (s : jsstring) : jsstring :=
  match s with
  | c :: s' => if is_whitespace c then trimStart s' else s
  | [] => []
  end.

Definition trimEnd (s : jsstring) : jsstring := rev (trimStart (rev s)).
Definition trim (s : jsstring) : jsstring := trimEnd (trimStart s).

(** [s.startsWith(p)] *)
Fixpoint startsWith (s p : jsstring) : bool :=
  match p, s with
  | [], _ => true
  | x :: p', y :: s' => (x =? y) && startsWith s' p'
  | _ :: _, [] => false
  end.

(** [s.includes(p)] *)
Fixpoint includes (s p : jsstring) : bool :=
  startsWith s p ||
  match s with
  | [] => false
  | _ :: s' => includes s' p
  end.

(** [s.split(sep)] for a separator of one code unit. *)
Fixpoint split_on (sep : char) (s : jsstring) : list jsstring :=
  match s with
  | [] => [[]]
  | c :: s' =>
      if c =? sep then [] :: split_on sep s'
      else match split_on sep s' with
           | [] => [[c]]
           | h :: t => (c :: h) :: t
           end
  end.

(** [s.replace(a, b)] for two strings of one code unit: only the first
    occurrence is replaced. *)
Fixpoint replace_first (a b : char) (s : jsstring) : jsstring :=
  match s with
  | [] => []
  | c :: s' => if c =? a then b :: s' else c :: replace_first a b s'
  end.

(** [s.substring(i, j)] for [i <= j]. *)
Definition substring (i j : nat) (s : jsstring) : jsstring :=
  firstn (j - i) (skipn i s).

(** A string is truthy when it is not empty. *)
Definition nonempty (s : jsstring) : bool :=
  match s with [] => false | _ :: _ => true end.

(** [array.join(sep)] *)
Fixpoint join (sep : jsstring) (l : list jsstring) : jsstring :=
  match l with
  | [] => []
  | [a] => a
  | a :: l' => a ++ sep ++ join sep l'
  end.

End JsString.

(* ================================================================== *)
(** ** Regular expressions *)
(* ================================================================== *)

Module Regex.
Import JsString.

Inductive citem : Type :=
| CChar (c : char)
| CRange (lo hi : char)
| CDigit
| CSpace.

Inductive regex : Type :=
| Eps
| Chr (c : char)
| Any
| Cls (neg : bool) (items : list citem)
| Seq (r1 r2 : regex)
| Alt (r1 r2 : regex)
| Rep (min : nat) (max : option nat) (greedy : bool) (r : regex)
| Grp (n : nat) (r : regex)
| Bol
| Eol.

Record flags : Type := { ignore_case : bool; multiline : bool }.

(** Canonicalize of the non-Unicode mode: the upper case of the code unit
    when that is one code unit, and never an ASCII one for a code unit
    outside ASCII. *)
Definition canon (c : char) : char :=
  match upper_cu c with
  | [u] => if (128 <=? c)%N && (u <? 128)%N then c else u
  | _ => c
  end.

Definition chr_eq (fl : flags) (a b : char) : bool :=
  if ignore_case fl then (canon a =? canon b)%N else (a =? b)%N.

Definition range_list (lo hi : char) : list char :=
  map (fun k => (lo + N.of_nat k)%N) (seq 0 (S (N.to_nat hi - N.to_nat lo))).

(** Membership in a class item.  Under the [i] flag a code unit belongs to
    the item when some member of the item has its canonical form.  White
    space has no case variants. *)
Definition item_matches (fl : flags) (ch : char) (it : citem) : bool :=
  match it with
  | CChar c => chr_eq fl c ch
  | CRange lo hi =>
      if ignore_case fl
      then existsb (fun a => (canon a =? canon ch)%N) (range_list lo hi)
      else in_range lo hi ch
  | CDigit =>
      if ignore_case fl
      then existsb (fun a => (canon a =? canon ch)%N) (range_list 48%N 57%N)
      else is_digit ch
  | CSpace => is_whitespace ch
  end.

(** The state of a match: the input still to read, the code unit just
    before it, and the captures made so far. *)
Record mstate : Type :=
  { rest : jsstring; prev : option char; caps : list (nat * jsstring) }.

Definition step_char (x : mstate) (p : char -> bool) : list mstate :=
  match rest x with
  | c :: s' =>
      if p c then [{| rest := s'; prev := Some c; caps := caps x |}] else []
  | [] => []
  end.

Fixpoint groups_of (r : regex) : list nat :=
  match r with
  | Seq r1 r2 | Alt r1 r2 => groups_of r1 ++ groups_of r2
  | Rep _ _ _ r' => groups_of r'
  | Grp n r' => n :: groups_of r'
  | _ => []
  end.

Definition clear_caps (gs : list nat) (x : mstate) : mstate :=
  {| rest := rest x; prev := prev x;
     caps := filter (fun kv => negb (existsb (Nat.eqb (fst kv)) gs)) (caps x) |}.

Definition set_cap (n : nat) (x y : mstate) : mstate :=
  {| rest := rest y; prev := prev y;
     caps := (n, firstn (length (rest x) - length (rest y)) (rest x))
             :: filter (fun kv => negb (Nat.eqb (fst kv) n)) (caps y) |}.

Definition pred_max (max : option nat) : option nat := option_map pred max.

(** RepeatMatcher once the minimum is reached: an iteration that consumes
    nothing is rejected, so every further iteration shortens the input and
    the fuel, which starts above the length of the input, is never used up. *)
Fixpoint rep_opt (stepf : mstate -> list mstate) (greedy : bool)
         (fuel : nat) (max : option nat) (x : mstate) : list mstate :=
  match fuel with
  | O => [x]
  | S f =>
      match max with
      | Some O => [x]
      | _ =>
          let more :=
            flat_map (fun y =>
                        if length (rest y) <? length (rest x)
                        then rep_opt stepf greedy f (pred_max max) y
                        else [])
                     (stepf x) in
          if greedy then more ++ [x] else x :: more
      end
  end.

(** RepeatMatcher while iterations are still required. *)
Fixpoint rep_req (stepf : mstate -> list mstate) (greedy : bool)
         (min : nat) (max : option nat) (x : mstate) : list mstate :=
  match min with
  | O => rep_opt stepf greedy (S (length (rest x))) max x
  | S n =>
      match max with
      | Some O => [x]
      | _ => flat_map (rep_req stepf greedy n (pred_max max)) (stepf x)
      end
  end.

Definition at_bol (fl : flags) (x : mstate) : bool :=
  match prev x with
  | None => true
  | Some c => multiline fl && is_line_terminator c
  end.

Definition at_eol (fl : flags) (x : mstate) : bool :=
  match rest x with
  | [] => true
  | c :: _ => multiline fl && is_line_terminator c
  end.

(** All the ways [r] matches at the start of [rest x], in the order in
    which the backtracking matcher of ECMAScript tries them. *)
Fixpoint matches (fl : flags) (r : regex) (x : mstate) : list mstate :=
  match r with
  | Eps => [x]
  | Chr c => step_char x (chr_eq fl c)
  | Any => step_char x (fun ch => negb (is_line_terminator ch))
  | Cls neg items =>
      step_char x (fun ch => xorb neg (existsb (item_matches fl ch) items))
  | Seq r1 r2 => flat_map (matches fl r2) (matches fl r1 x)
  | Alt r1 r2 => matches fl r1 x ++ matches fl r2 x
  | Rep min max g r' =>
      rep_req (fun y => matches fl r' (clear_caps (groups_of r') y)) g min max x
  | Grp n r' => map (set_cap n x) (matches fl r' x)
  | Bol => if at_bol fl x then [x] else []
  | Eol => if at_eol fl x then [x] else []
  end.

Record rmatch : Type :=
  { m_index : nat; m_text : jsstring; m_caps : list (nat * jsstring) }.

Definition first_at (fl : flags) (r : regex) (p : option char) (s : jsstring)
  : option mstate :=
  hd_error (matches fl r {| rest := s; prev := p; caps := [] |}).

Fixpoint exec_from (fl : flags) (r : regex) (p : option char) (s : jsstring)
         (idx : nat) : option rmatch :=
  match first_at fl r p s with
  | Some y =>
      Some {| m_index := idx;
              m_text := firstn (length s - length (rest y)) s;
              m_caps := caps y |}
  | None =>
      match s with
      | [] => None
      | c :: s' => exec_from fl r (Some c) s' (S idx)
      end
  end.

(** [s.match(r)] for a pattern without the [g] flag. *)
Definition exec (fl : flags) (r : regex) (s : jsstring) : option rmatch :=
  exec_from fl r None s 0.

Definition test (fl : flags) (r : regex) (s : jsstring) : bool :=
  match exec fl r s with Some _ => true | None => false end.

Fixpoint lookup_cap (n : nat) (l : list (nat * jsstring)) : option jsstring :=
  match l with
  | [] => None
  | (k, v) :: l' => if Nat.eqb k n then Some v else lookup_cap n l'
  end.

(** [match[n]]: [None] is [undefined], a group that took no part. *)
Definition group (mr : rmatch) (n : nat) : option jsstring :=
  lookup_cap n (m_caps mr).

(** [s.replace(r, '')] without the [g] flag. *)
Definition remove_first (fl : flags) (r : regex) (s : jsstring) : jsstring :=
  match exec fl r s with
  | Some mr =>
      firstn (m_index mr) s ++ skipn (m_index mr + length (m_text mr)) s
  | None => s
  end.

(** [s.replace(r, '')] with the [g] flag.  [skip] counts the code units of
    the current match still to drop. *)
Fixpoint remove_all_from (fl : flags) (r : regex) (p : option char)
         (s : jsstring) (skip : nat) : jsstring :=
  match s with
  | [] => []
  | c :: s' =>
      match skip with
      | S k => remove_all_from fl r (Some c) s' k
      | O =>
          match first_at fl r p s with
          | Some y =>
              match length s - length (rest y) with
              | O => c :: remove_all_from fl r (Some c) s' 0
              | S k => remove_all_from fl r (Some c) s' k
              end
          | None => c :: remove_all_from fl r (Some c) s' 0
          end
      end
  end.

Definition remove_all (fl : flags) (r : regex) (s : jsstring) : jsstring :=
  remove_all_from fl r None s 0.

(** [s.split(r)] for a pattern without groups.  [cur] is the piece being
    read, reversed. *)
Fixpoint split_from (fl : flags) (r : regex) (p : option char)
         (s : jsstring) (skip : nat) (cur : jsstring) : list jsstring :=
  match s with
  | [] => [rev cur]
  | c :: s' =>
      match skip with
      | S k => split_from fl r (Some c) s' k cur
      | O =>
          match first_at fl r p s with
          | Some y =>
              match length s - length (rest y), cur with
              | O, [] => split_from fl r (Some c) s' 0 [c]
              | O, _ :: _ => rev cur :: split_from fl r (Some c) s' 0 [c]
              | S k, _ => rev cur :: split_from fl r (Some c) s' k []
              end
          | None => split_from fl r (Some c) s' 0 (c :: cur)
          end
      end
  end.

Definition split (fl : flags) (r : regex) (s : jsstring) : list jsstring :=
  match s with
  | [] => match first_at fl r None [] with Some _ => [] | None => [[]] end
  | _ => split_from fl r None s 0 []
  end.

(** *** Notation for writing patterns *)

Definition seqs (l : list regex) : regex := fold_right Seq Eps l.
Definition lit (s : string) : regex := seqs (map Chr (js s)).
Definition star (r : regex) : regex := Rep 0 None true r.
Definition plus (r : regex) : regex := Rep 1 None true r.
Definition plus_lazy (r : regex) : regex := Rep 1 None false r.
Definition opt (r : regex) : regex := Rep 0 (Some 1) true r.
Definition times (n : nat) (r : regex) : regex := Rep n (Some n) true r.
Definition digit : regex := Cls false [CDigit].
Definition space : regex := Cls false [CSpace].
Definition cc (s : string) : list citem := map CChar (js s).
Definition euro : regex := Cls false (cc "€€").

(** The range [a-b] of a class, given by its two ends. *)
Definition rng (a b : string) : citem :=
  CRange (hd 0%N (js a)) (hd 0%N (js b)).

Definition plain : flags := {| ignore_case := false; multiline := false |}.
Definition icase : flags := {| ignore_case := true; multiline := false |}.
Definition icase_multi : flags := {| ignore_case := true; multiline := true |}.

End Regex.

(* ================================================================== *)
(** ** JavaScript numbers *)
(* ================================================================== *)

Module JsNum.
Import JsString.
Local Open Scope N_scope.

(** A number is a double: a finite value, kept as a rational in lowest
    terms, an infinity or NaN.  The zero carries no sign. *)
Inductive jsnum : Type :=
| JFin (q : Q)
| JInf (neg : bool)
| JNaN.

(** *** Rounding to a double *)

(** [n / d] rounded to a whole number, a half going to the even
    neighbour; [d] is positive. *)
Definition round_half_even (n d : Z) : Z :=
  let m := (n / d)%Z in
  match (2 * (n mod d) ?= d)%Z with
  | Lt => m
  | Eq => if Z.even m then m else (m + 1)%Z
  | Gt => (m + 1)%Z
  end.

(** The fraction [n / d] over [2 ^ e], as a numerator and a denominator. *)
Definition scale (n d e : Z) : Z * Z :=
  if (0 <=? e)%Z then (n, (d * 2 ^ e)%Z) else ((n * 2 ^ (- e))%Z, d).

(** The exponent of the last bit that a double keeps of [n / d], both
    positive: a double has 53 bits, and no bit below [2 ^ -1074]. *)
Definition last_bit (n d : Z) : Z :=
  let e := (Z.log2 n - Z.log2 d - 53)%Z in
  let (a, b) := scale n d e in
  Z.max (-1074) (if (2 ^ 53 * b <=? a)%Z then e + 1 else e)%Z.

(** [m * 2 ^ e], in lowest terms *)
Definition dyadic (m e : Z) : Q := Qred (inject_Z m * 2 ^ e)%Q.

(** The double nearest to [n / d], both positive; none from [2 ^ 1024]
    on. *)
Definition nearest (n d : Z) : option Q :=
  let e := last_bit n d in
  let (a, b) := scale n d e in
  let m := round_half_even a b in
  if (0 <=? e)%Z && (2 ^ 1024 <=? m * 2 ^ e)%Z then None
  else Some (dyadic m e).

(** The double that stands for the real number [q]: the nearest one, the
    even one of two that are equally near, an infinity beyond the largest
    double. *)
Definition double (q : Q) : jsnum :=
  let d := Zpos (Qden (Qred q)) in
  match Qnum (Qred q) with
  | Z0 => JFin 0%Q
  | Zpos n =>
      match nearest (Zpos n) d with
      | Some v => JFin v
      | None => JInf false
      end
  | Zneg n =>
      match nearest (Zpos n) d with
      | Some v => JFin (Qopp v)
      | None => JInf true
      end
  end.

Definition one : jsnum := JFin 1%Q.

(** ToBoolean of a number: NaN and zero are falsy. *)
Definition truthy (n : jsnum) : bool :=
  match n with
  | JFin q => negb (Qeq_bool q 0%Q)
  | JInf _ => true
  | JNaN => false
  end.

Definition isNaN (n : jsnum) : bool :=
  match n with JNaN => true | _ => false end.

(** [n > 0] *)
Definition gt0 (n : jsnum) : bool :=
  match n with
  | JFin q => negb (Qle_bool q 0%Q)
  | JInf neg => negb neg
  | JNaN => false
  end.

Definition is_neg (q : Q) : bool := negb (Qle_bool 0%Q q).

(** [a / b]; every zero divisor is taken as positive zero. *)
Definition div (a b : jsnum) : jsnum :=
  match a, b with
  | JNaN, _ => JNaN
  | _, JNaN => JNaN
  | JInf _, JInf _ => JNaN
  | JInf s, JFin q => JInf (xorb s (is_neg q))
  | JFin _, JInf _ => JFin 0%Q
  | JFin p, JFin q =>
      if Qeq_bool q 0%Q
      then (if Qeq_bool p 0%Q then JNaN else JInf (is_neg p))
      else double (p / q)%Q
  end.

Fixpoint span (p : char -> bool) (s : jsstring) : jsstring * jsstring :=
  match s with
  | c :: s' =>
      if p c then let (a, b) := span p s' in (c :: a, b) else ([], s)
  | [] => ([], [])
  end.

Definition digit_val (c : char) : Z :=
  if in_range 48 57 c then Z.of_N c - 48
  else if in_range 97 102 c then Z.of_N c - 87
  else Z.of_N c - 55.

Definition is_hex_digit (c : char) : bool :=
  in_range 48 57 c || in_range 97 102 c || in_range 65 70 c.

Definition digits_val (base : Z) (ds : jsstring) : Z :=
  fold_left (fun acc c => (acc * base + digit_val c)%Z) ds 0%Z.

Definition split_sign (s : jsstring) : bool * jsstring :=
  match s with
  | 43 :: t => (false, t)
  | 45 :: t => (true, t)
  | _ => (false, s)
  end.

Definition is_e (c : char) : bool := (c =? 101) || (c =? 69).

(** The ExponentPart at the head of [s], when there is a complete one. *)
Definition exponent (s : jsstring) : Z :=
  match s with
  | c :: t =>
      if is_e c then
        let (neg, t') := split_sign t in
        let (ds, _) := span is_digit t' in
        match ds with
        | [] => 0%Z
        | _ => if neg then (- digits_val 10%Z ds)%Z else digits_val 10%Z ds
        end
      else 0%Z
  | [] => 0%Z
  end.

Definition apply_sign (neg : bool) (q : Q) : Q := if neg then Qopp q else q.

(** [parseFloat(s)]: the value of the longest prefix of the trimmed string
    that is a StrDecimalLiteral, NaN when there is none.  The value is
    rounded to a double from all its digits, as V8, the engine of Node.js,
    does (ECMAScript lets an engine ignore the digits after the
    twentieth). *)
Definition parseFloat (s : jsstring) : jsnum :=
  let (neg, s1) := split_sign (trimStart s) in
  if startsWith s1 (js "Infinity") then JInf neg
  else
    let (ip, s2) := span is_digit s1 in
    let (fp, s3) :=
      match s2 with
      | 46 :: t => span is_digit t
      | _ => ([], s2)
      end in
    match ip, fp with
    | [], [] => JNaN
    | _, _ =>
        let mant := digits_val 10%Z (ip ++ fp) in
        let e := (exponent s3 - Z.of_nat (List.length fp))%Z in
        double (apply_sign neg ((mant # 1) * Qpower (10 # 1) e)%Q)
    end.

(** [parseInt(s)] without a radix: a [0x] prefix selects base 16; the
    whole number read is rounded to a double. *)
Definition parseInt (s : jsstring) : jsnum :=
  let (neg, s1) := split_sign (trimStart s) in
  let hex := startsWith s1 (js "0x") || startsWith s1 (js "0X") in
  let (ds, _) :=
    if hex then span is_hex_digit (skipn 2 s1) else span is_digit s1 in
  match ds with
  | [] => JNaN
  | _ =>
      let v := digits_val (if hex then 16%Z else 10%Z) ds in
      double (inject_Z (if neg then (- v)%Z else v))
  end.

(** [n || d] on numbers *)
Definition or_else (n d : jsnum) : jsnum := if truthy n then n else d.

End JsNum.

(* ================================================================== *)
(** ** The extraction engine: data model *)
(* ================================================================== *)

Module Receipt.
Import JsString Regex JsNum.
Local Open Scope string_scope.
Local Open Scope list_scope.

Record LineItem : Type :=
  { product_name : jsstring;
    quantity : jsnum;
    unit_price : option jsnum;
    total_price : option jsnum;
    category : option jsstring;
    brand : option jsstring;
    item_code : jsstring;
    line_text : jsstring;
    matched : bool }.

Record Metadata : Type :=
  { date : option jsstring;
    time : option jsstring;
    receipt_number : option jsstring;
    transaction_id : option jsstring }.

Record Store : Type :=
  { name : option jsstring;
    address : option jsstring;
    phone : option jsstring;
    tax_id : option jsstring;
    store_chain : option jsstring }.

Record Totals : Type :=
  { subtotal : option jsnum;
    vat_amount : option jsnum;
    vat_rate : option jsnum;
    total_amount : option jsnum;
    currency : jsstring }.

Record Payment : Type :=
  { method : option jsstring;
    amount_paid : option jsnum;
    change : option jsnum;
    card_type : option jsstring;
    card_number : option jsstring }.

Record CashierInfo : Type :=
  { start_time : option jsstring;
    end_time : option jsstring;
    cashier_number : option jsstring;
    terminal_number : option jsstring }.

Record FiscalInfo : Type :=
  { tse_signature : option jsstring;
    signature_counter : option jsstring;
    signature : option jsstring;
    signature_data : option jsstring;
    fiscal_data : option jsstring }.

Record Loyalty : Type :=
  { program : option jsstring;
    points_earned : option jsnum;
    points_balance : option jsnum }.

Record ProcessingInfo : Type :=
  { timestamp : jsstring;
    version : jsstring;
    ocr_model : jsstring;
    parser_version : jsstring }.

(** The object that [parseMarkdown] returns: the fields of
    [result.receipt], those of [result.ocr_data] and
    [result.processing_info], together with the number of calls of
    [Math.random] made so far. *)
Record Result : Type :=
  { metadata : Metadata;
    store : Store;
    items : list LineItem;
    totals : Totals;
    payment : Payment;
    cashier_info : CashierInfo;
    fiscal_info : FiscalInfo;
    loyalty : Loyalty;
    raw_markdown : jsstring;
    confidence_score : option jsnum;
    processing_time : option jsnum;
    processing_info : ProcessingInfo;
    draws : nat }.

(** The object literal at the head of [parseMarkdown]; [now] is the string
    [new Date().toISOString()] of the call. *)
Definition initial (now : jsstring) (markdown : jsstring) : Result :=
  {| metadata := {| date := None; time := None; receipt_number := None;
                    transaction_id := None |};
     store := {| name := None; address := None; phone := None;
                 tax_id := None; store_chain := None |};
     items := [];
     totals := {| subtotal := None; vat_amount := None; vat_rate := None;
                  total_amount := None; currency := js "EUR" |};
     payment := {| method := None; amount_paid := None; change := None;
                   card_type := None; card_number := None |};
     cashier_info := {| start_time := None; end_time := None;
                        cashier_number := None; terminal_number := None |};
     fiscal_info := {| tse_signature := None; signature_counter := None;
                       signature := None; signature_data := None;
                       fiscal_data := None |};
     loyalty := {| program := None; points_earned := None;
                   points_balance := None |};
     raw_markdown := markdown;
     confidence_score := None;
     processing_time := None;
     processing_info :=
       {| timestamp := now; version := js "1.0.0";
          ocr_model := js "Llama-3.2-11B-Vision";
          parser_version := js "1.0.0" |};
     draws := 0 |}.

(** Truthiness of a field that holds a string or null, and of one that
    holds a number or null. *)
Definition str_set (o : option jsstring) : bool :=
  match o with Some s => nonempty s | None => false end.

Definition num_set (o : option jsnum) : bool :=
  match o with Some n => truthy n | None => false end.

(** [price || null] *)
Definition or_null (o : option jsnum) : option jsnum :=
  if num_set o then o else None.

(** [price ? price / quantity : null] *)
Definition per_unit (o : option jsnum) (q : jsnum) : option jsnum :=
  match o with
  | Some p => if truthy p then Some (div p q) else None
  | None => None
  end.

(** *** Updates of the result *)

Definition with_items (f : list LineItem -> list LineItem) (n : nat)
           (r : Result) : Result :=
  {| metadata := metadata r; store := store r; items := f (items r);
     totals := totals r; payment := payment r;
     cashier_info := cashier_info r; fiscal_info := fiscal_info r;
     loyalty := loyalty r; raw_markdown := raw_markdown r;
     confidence_score := confidence_score r;
     processing_time := processing_time r;
     processing_info := processing_info r; draws := n |}.

(** [result.receipt.items.push(item)] for an item whose code used one
    random draw. *)
Definition push (it : LineItem) (r : Result) : Result :=
  with_items (fun l => l ++ [it]) (S (draws r)) r.

Definition push_opt (o : option LineItem) (r : Result) : Result :=
  match o with Some it => push it r | None => r end.

Definition set_date (v : option jsstring) (m : Metadata) : Metadata :=
  {| date := v; time := time m; receipt_number := receipt_number m;
     transaction_id := transaction_id m |}.

Definition set_time (v : option jsstring) (m : Metadata) : Metadata :=
  {| date := date m; time := v; receipt_number := receipt_number m;
     transaction_id := transaction_id m |}.

Definition set_name (n c : option jsstring) (s : Store) : Store :=
  {| name := n; address := address s; phone := phone s; tax_id := tax_id s;
     store_chain := c |}.

Definition set_address (v : option jsstring) (s : Store) : Store :=
  {| name := name s; address := v; phone := phone s; tax_id := tax_id s;
     store_chain := store_chain s |}.

Definition set_phone (v : option jsstring) (s : Store) : Store :=
  {| name := name s; address := address s; phone := v; tax_id := tax_id s;
     store_chain := store_chain s |}.

Definition set_tax_id (v : option jsstring) (s : Store) : Store :=
  {| name := name s; address := address s; phone := phone s; tax_id := v;
     store_chain := store_chain s |}.

Definition set_total_amount (v : option jsnum) (t : Totals) : Totals :=
  {| subtotal := subtotal t; vat_amount := vat_amount t;
     vat_rate := vat_rate t; total_amount := v; currency := currency t |}.

Definition set_vat_amount (v : option jsnum) (t : Totals) : Totals :=
  {| subtotal := subtotal t; vat_amount := v; vat_rate := vat_rate t;
     total_amount := total_amount t; currency := currency t |}.

Definition set_subtotal (v : option jsnum) (t : Totals) : Totals :=
  {| subtotal := v; vat_amount := vat_amount t; vat_rate := vat_rate t;
     total_amount := total_amount t; currency := currency t |}.

Definition set_method (v c : option jsstring) (p : Payment) : Payment :=
  {| method := v; amount_paid := amount_paid p; change := change p;
     card_type := c; card_number := card_number p |}.

Definition set_amount_paid (v : option jsnum) (p : Payment) : Payment :=
  {| method := method p; amount_paid := v; change := change p;
     card_type := card_type p; card_number := card_number p |}.

Definition set_start_time (v : option jsstring) (c : CashierInfo) :=
  {| start_time := v; end_time := end_time c;
     cashier_number := cashier_number c;
     terminal_number := terminal_number c |}.

Definition set_end_time (v : option jsstring) (c : CashierInfo) :=
  {| start_time := start_time c; end_time := v;
     cashier_number := cashier_number c;
     terminal_number := terminal_number c |}.

Definition set_cashier_number (v : option jsstring) (c : CashierInfo) :=
  {| start_time := start_time c; end_time := end_time c;
     cashier_number := v; terminal_number := terminal_number c |}.

Definition set_terminal_number (v : option jsstring) (c : CashierInfo) :=
  {| start_time := start_time c; end_time := end_time c;
     cashier_number := cashier_number c; terminal_number := v |}.

Definition set_tse_signature (v : option jsstring) (f : FiscalInfo) :=
  {| tse_signature := v; signature_counter := signature_counter f;
     signature := signature f; signature_data := signature_data f;
     fiscal_data := fiscal_data f |}.

Definition set_signature_counter (v : option jsstring) (f : FiscalInfo) :=
  {| tse_signature := tse_signature f; signature_counter := v;
     signature := signature f; signature_data := signature_data f;
     fiscal_data := fiscal_data f |}.

Definition set_signature (v : option jsstring) (f : FiscalInfo) :=
  {| tse_signature := tse_signature f;
     signature_counter := signature_counter f; signature := v;
     signature_data := signature_data f; fiscal_data := fiscal_data f |}.

Definition set_points (p : option jsnum) (g : option jsstring) (l : Loyalty) :=
  {| program := g; points_earned := p; points_balance := points_balance l |}.

(** *** The patterns of the source, each under the function that uses it *)

Definition d09 : regex := Cls false [rng "0" "9"].

(** AMOUNT, written below for the group "[0-9]+[.,]?[0-9]*" in
    parentheses, as group [n] *)
Definition amount (n : nat) : regex :=
  Grp n (seqs [plus d09; opt (Cls false (cc ".,")); star d09]).

(** "([0-9,]+)" as group [n] *)
Definition digits_commas (n : nat) : regex :=
  Grp n (plus (Cls false (rng "0" "9" :: cc ","))).

(** "([0-9,\.]+)" as group [n] *)
Definition digits_commas_dots (n : nat) : regex :=
  Grp n (plus (Cls false (rng "0" "9" :: cc ",."))).

(** "[:\s]*" *)
Definition colon_space : regex := star (Cls false (CSpace :: cc ":")).

(** extractStructuredData *)
(* "/\*\s*\*\*([^*]+)\*\*/" *)
Definition re_product_bullet : regex :=
  seqs [lit "*"; star space; lit "**"; Grp 1 (plus (Cls true (cc "*")));
        lit "**"].
(* "/Quantity:\s*([0-9,\.]+)/" *)
Definition re_quantity_label : regex :=
  seqs [lit "Quantity:"; star space; digits_commas_dots 1].
(* "/Price:\s*€([0-9,\.]+)/" *)
Definition re_price_label_euro : regex :=
  seqs [lit "Price:"; star space; lit "€"; digits_commas_dots 1].
(* "/\*\*([^*]+)\*\*/" *)
Definition re_bold : regex :=
  seqs [lit "**"; Grp 1 (plus (Cls true (cc "*"))); lit "**"].
(* "/([0-9,]+)\s*€\s*x\s*(\d+)/" *)
Definition re_price_times_qty : regex :=
  seqs [digits_commas 1; star space; lit "€"; star space; lit "x";
        star space; Grp 2 (plus digit)].
(* "/([0-9,]+)\s*[A-Z]/" *)
Definition re_price_letter : regex :=
  seqs [digits_commas 1; star space; Cls false [rng "A" "Z"]].

(** parseEDEKATableRow *)
(* "/\s{2,}/" *)
Definition re_two_spaces : regex := Rep 2 None true space.

(** parseListItem *)
(* "/^\*\s*/" *)
Definition re_leading_star : regex := seqs [Bol; lit "*"; star space].
(* "/\*\*/g" *)
Definition re_bold_marker : regex := lit "**".
(* "/\*\*(.+?)\*\*\s+(\d+)\s+([0-9,]+)/" *)
Definition re_list_qty_price : regex :=
  seqs [lit "**"; Grp 1 (plus_lazy Any); lit "**"; plus space;
        Grp 2 (plus digit); plus space; digits_commas 3].
(* "/\*\*(.+?)\*\*\s+([0-9,]+)/" *)
Definition re_list_price : regex :=
  seqs [lit "**"; Grp 1 (plus_lazy Any); lit "**"; plus space;
        digits_commas 2].
(* "/\*\*(.+?)\*\*\s+(\d+)\s*[xX]\s*([0-9,]+)/" *)
Definition re_list_qty_x_price : regex :=
  seqs [lit "**"; Grp 1 (plus_lazy Any); lit "**"; plus space;
        Grp 2 (plus digit); star space; Cls false (cc "xX"); star space;
        digits_commas 3].

(** parseNewListItem, all with the [i] flag *)
(* "/Quantity:\s*(\d+)/i" *)
Definition re_quantity_int : regex :=
  seqs [lit "Quantity:"; star space; Grp 1 (plus digit)].
(* "/Price:\s*([0-9,\.]+)\s*EUR/i" *)
Definition re_price_eur : regex :=
  seqs [lit "Price:"; star space; digits_commas_dots 1; star space;
        lit "EUR"].
(* "/Price:\s*([0-9,\.]+)/i" *)
Definition re_price_plain : regex :=
  seqs [lit "Price:"; star space; digits_commas_dots 1].
(* "/Weight:\s*(\d+)\s*kg/i" *)
Definition re_weight : regex :=
  seqs [lit "Weight:"; star space; Grp 1 (plus digit); star space; lit "kg"].

(** extractMetadata *)
(* "/(\d{2}:\d{2})/" *)
Definition re_time : regex :=
  Grp 1 (seqs [times 2 digit; lit ":"; times 2 digit]).

(** extractDate and the date part of extractPatternData *)
(* "\d{2}\.\d{2}\.\d{4}" *)
Definition dotted_date : regex :=
  seqs [times 2 digit; lit "."; times 2 digit; lit "."; times 4 digit].
Definition datePatterns : list (flags * regex) :=
  [ (* "/(\d{4}-\d{2}-\d{2})/" *)
    (plain, Grp 1 (seqs [times 4 digit; lit "-"; times 2 digit; lit "-";
                         times 2 digit]));
    (* "/(\d{2}\.\d{2}\.\d{4})/" *)
    (plain, Grp 1 dotted_date);
    (* "/(\d{2}\/\d{2}\/\d{4})/" *)
    (plain, Grp 1 (seqs [times 2 digit; lit "/"; times 2 digit; lit "/";
                         times 4 digit]));
    (* "/dat\.\s*(\d{2}\.\d{2}\.\d{4})/i" *)
    (icase, seqs [lit "dat."; star space; Grp 1 dotted_date]);
    (* "/date:\s*(\d{2}\.\d{2}\.\d{4})/i" *)
    (icase, seqs [lit "date:"; star space; Grp 1 dotted_date]) ].

(** extractStoreInfo *)
Definition storePatterns : list (regex * string * string) :=
  [ (lit "EDEKA", "EDEKA", "EDEKA");
    (lit "Kaufland", "Kaufland", "Kaufland");
    (lit "dm-drogerie", "dm-drogerie markt", "dm-drogerie");
    (lit "real-", "real", "real");
    (lit "Kaisers Tengelmann", "Kaisers Tengelmann", "Kaisers");
    (lit "Rewe", "REWE", "REWE");
    (lit "Lidl", "Lidl", "Lidl");
    (lit "Aldi", "Aldi", "Aldi") ].
(* "/^\*?\s*Store Name:\s*/i" and its two siblings *)
Definition re_label (label : string) : regex :=
  seqs [Bol; opt (lit "*"); star space; lit label; star space].
(* "/\d{5}\s+[A-Za-zäöüß\s-]+$/" *)
Definition re_address : regex :=
  seqs [times 5 digit; plus space;
        plus (Cls false (rng "A" "Z" :: rng "a" "z" :: CSpace :: cc "äöüß-"));
        Eol].
(* "/tel[.:]\s*\d+[\/\s-]?\d+/i" *)
Definition re_phone : regex :=
  seqs [lit "tel"; Cls false (cc ".:"); star space; plus digit;
        opt (Cls false (CSpace :: cc "/-")); plus digit].
(* "/steuer-nr[.:]\s*(\d+\/\d+)/i" *)
Definition re_tax_id : regex :=
  seqs [lit "steuer-nr"; Cls false (cc ".:"); star space;
        Grp 1 (seqs [plus digit; lit "/"; plus digit])].

(** extractTotals *)
(* "/mwst[:\s]*([0-9,]+)/i" *)
Definition re_mwst : regex := seqs [lit "mwst"; colon_space; digits_commas 1].
(* "/netto[:\s]*([0-9,]+)/i" *)
Definition re_netto : regex := seqs [lit "netto"; colon_space; digits_commas 1].

(** extractPaymentInfo *)
(* "/visa|ec|bar|kartenzahlung/i" *)
Definition re_payment_method : regex :=
  Alt (lit "visa") (Alt (lit "ec") (Alt (lit "bar") (lit "kartenzahlung"))).
(* "/([0-9,]+)\s*[€€]\s*$/" *)
Definition re_amount_paid : regex :=
  seqs [digits_commas 1; star space; euro; star space; Eol].

(** extractCashierInfo, all with the [i] flag *)
(* "\d{4}-\d{2}-\d{2}\s+\d{2}:\d{2}:\d{2}" *)
Definition re_timestamp : regex :=
  seqs [times 4 digit; lit "-"; times 2 digit; lit "-"; times 2 digit;
        plus space; times 2 digit; lit ":"; times 2 digit; lit ":";
        times 2 digit].
Definition re_start : regex :=
  seqs [lit "start"; colon_space; Grp 1 re_timestamp].
Definition re_ende : regex :=
  seqs [lit "ende"; colon_space; Grp 1 re_timestamp].
(* "/sn-kasse[:\s]*([A-Z0-9]+)/i" *)
Definition re_sn_kasse : regex :=
  seqs [lit "sn-kasse"; colon_space;
        Grp 1 (plus (Cls false [rng "A" "Z"; rng "0" "9"]))].
(* "/ta-nummer[:\s]*(\d+)/i" *)
Definition re_ta_nummer : regex :=
  seqs [lit "ta-nummer"; colon_space; Grp 1 (plus digit)].

(** extractFiscalInfo, all with the [i] flag *)
(* "/sn-tse[:\s]*([a-f0-9]+)/i" *)
Definition re_sn_tse : regex :=
  seqs [lit "sn-tse"; colon_space;
        Grp 1 (plus (Cls false [rng "a" "f"; rng "0" "9"]))].
(* "/signaturzähler[:\s]*(\d+)/i" *)
Definition re_signaturzaehler : regex :=
  seqs [lit "signaturzähler"; colon_space; Grp 1 (plus digit)].
(* "/signatur[:\s]*([A-Z0-9\/]+)/i" *)
Definition re_signatur : regex :=
  seqs [lit "signatur"; colon_space;
        Grp 1 (plus (Cls false (rng "A" "Z" :: rng "0" "9" :: cc "/")))].

(** extractLoyaltyInfo *)
(* "/(\d+)\s+payback\s+punkte/i" *)
Definition re_payback : regex :=
  seqs [Grp 1 (plus digit); plus space; lit "payback"; plus space;
        lit "punkte"].

(** extractTotal: a line of the document *)
(* "/total[:\s]*[€€]?\s*AMOUNT/i" and its siblings *)
Definition re_labelled_total (label : string) : regex :=
  seqs [lit label; colon_space; opt euro; star space; amount 1].
(* "/[€€]\s*AMOUNT\s*$/" *)
Definition re_euro_amount_end : regex :=
  seqs [euro; star space; amount 1; star space; Eol].
(* "/AMOUNT\s*[€€]\s*$/" *)
Definition re_amount_euro_end : regex :=
  seqs [amount 1; star space; euro; star space; Eol].
Definition lineTotalPatterns : list (flags * regex) :=
  [ (icase, re_labelled_total "total");
    (icase, re_labelled_total "summe");
    (icase, re_labelled_total "gesamt");
    (icase, re_euro_amount_end);
    (icase, re_amount_euro_end) ].

(** extractPatternData: the whole document *)
(* "/summe\s*[€€]?\s*AMOUNT/i" and its siblings *)
Definition re_document_total (label : string) : regex :=
  seqs [lit label; star space; opt euro; star space; amount 1].
Definition documentTotalPatterns : list (flags * regex) :=
  [ (icase, re_document_total "summe");
    (icase, re_document_total "total");
    (icase, re_document_total "gesamt");
    (icase_multi, re_euro_amount_end);
    (icase_multi, re_amount_euro_end) ].

(** extractItem, all with the [i] flag *)
Definition itemPatterns : list regex :=
  [ (* "/(.+?)\s+(\d+)x?\s*[€€]\s*AMOUNT/i" *)
    seqs [Grp 1 (plus_lazy Any); plus space; Grp 2 (plus digit);
          opt (lit "x"); star space; euro; star space; amount 3];
    (* "/(.+?)\s+[€€]\s*AMOUNT/i" *)
    seqs [Grp 1 (plus_lazy Any); plus space; euro; star space; amount 2];
    (* "/(.+?)\s+AMOUNT\s*[€€]/i" *)
    seqs [Grp 1 (plus_lazy Any); plus space; amount 2; star space; euro] ].

(** parsePrice *)
(* "/[€€\s]/g" *)
Definition re_euro_or_space : regex := Cls false (CSpace :: cc "€€").

(** extractBrand *)
Definition brandPatterns : list regex :=
  [ (* "/^([A-Z]{2,4})\s/" *)
    seqs [Bol; Grp 1 (Rep 2 (Some 4) true (Cls false [rng "A" "Z"])); space];
    (* "/^([A-Za-z]+)\s/" *)
    seqs [Bol; Grp 1 (plus (Cls false [rng "A" "Z"; rng "a" "z"])); space] ].

(** generateItemCode *)
(* "/[^A-Za-z0-9]/g" *)
Definition re_not_alnum : regex :=
  Cls true [rng "A" "Z"; rng "a" "z"; rng "0" "9"].

(** extractItemsFallback, all with the [i] flag *)
(* "[A-ZÄÖÜß\s\-\.]" *)
Definition name_char : regex :=
  Cls false (rng "A" "Z" :: CSpace :: cc "ÄÖÜß-.").
Definition fallbackPatterns : list regex :=
  [ (* "/^([A-ZÄÖÜß\s\-\.]+)\s+(\d+)\s+([0-9,\.]+)/i" *)
    seqs [Bol; Grp 1 (plus name_char); plus space; Grp 2 (plus digit);
          plus space; digits_commas_dots 3];
    (* "/^([A-ZÄÖÜß\s\-\.]+)\s+([0-9,\.]+)/i" *)
    seqs [Bol; Grp 1 (plus name_char); plus space; digits_commas_dots 2];
    (* "/^([A-ZÄÖÜß\s\-\.]{3,})$/i" *)
    seqs [Bol; Grp 1 (Rep 3 None true name_char); Eol] ].

(* ================================================================== *)
(** ** The extraction engine: functions that build no item *)
(* ================================================================== *)

(** [match[n]] read as a string; the groups read this way take part in
    every match of their pattern. *)
Definition group_text (m : rmatch) (n : nat) : jsstring :=
  match group m n with Some s => s | None => [] end.

(** [priceStr.replace(/[€€\s]/g, '').replace(',', '.')] *)
Definition cleanPrice (priceStr : jsstring) : jsstring :=
  replace_first (chr ",") (chr ".") (remove_all plain re_euro_or_space priceStr).

Definition parsePrice (priceStr : option jsstring) : option jsnum :=
  match priceStr with
  | None => None
  | Some [] => None
  | Some s =>
      let price := parseFloat (cleanPrice s) in
      if isNaN price then None else Some price
  end.

(** [parseFloat(s.replace(',', '.'))] *)
Definition parseDecimal (s : jsstring) : jsnum :=
  parseFloat (replace_first (chr ",") (chr ".") s).

(** [parseInt(x)] for a value that may be undefined. *)
Definition parseInt_opt (o : option jsstring) : jsnum :=
  match o with Some s => parseInt s | None => JNaN end.

Fixpoint extractBrand_from (pats : list regex) (productName : jsstring)
  : option jsstring :=
  match pats with
  | [] => None
  | r :: pats' =>
      match exec plain r productName with
      | Some m => group m 1
      | None => extractBrand_from pats' productName
      end
  end.

Definition extractBrand (productName : jsstring) : option jsstring :=
  extractBrand_from brandPatterns productName.

(** [keywords.some(keyword => text.toLowerCase().includes(keyword))] *)
Definition some_keyword (keywords : list string) (text : jsstring) : bool :=
  let lowerText := toLowerCase text in
  existsb (fun k => includes lowerText (js k)) keywords.

Definition isItemsSection (line : jsstring) : bool :=
  some_keyword ["purchase items"; "items"; "artikel"; "produkte"; "waren"]
               line.

Definition isHeaderOrTotal (line : jsstring) : bool :=
  some_keyword ["total"; "summe"; "gesamt"; "kasse"; "kassierer"; "bon";
                "receipt"; "datum"; "date"; "payment"; "steuer"; "mwst"]
               line.

Definition isNotAProduct (text : jsstring) : bool :=
  some_keyword ["total"; "summe"; "sum"; "payment"; "cash"; "card"; "change";
                "rueckgeld"; "tax"; "vat"; "mwst"; "discount"; "date";
                "time"; "store"; "address"; "phone"; "website"; "thank";
                "danke"; "receipt"; "bon"; "kas"; "terminal"; "steuer";
                "fiscal"; "loyalty"; "treue"; "points"; "eur"; "euro";
                "amount"; "method"; "eft"; "credit"; "debit"; "change";
                "cashier"; "register"]
               text.

Fixpoint extractDate_from (pats : list (flags * regex)) (line : jsstring)
  : option jsstring :=
  match pats with
  | [] => None
  | (fl, r) :: pats' =>
      match exec fl r line with
      | Some m => group m 1
      | None => extractDate_from pats' line
      end
  end.

Definition extractDate (line : jsstring) : option jsstring :=
  extractDate_from datePatterns line.

(** The loop shared by extractTotal and the first half of
    extractPatternData: the first pattern whose amount is a number above
    zero decides. *)
Fixpoint firstTotal (pats : list (flags * regex)) (text : jsstring)
  : option jsnum :=
  match pats with
  | [] => None
  | (fl, r) :: pats' =>
      match exec fl r text with
      | Some m =>
          match parsePrice (group m 1) with
          | Some amount =>
              if truthy amount && gt0 amount then Some amount
              else firstTotal pats' text
          | None => firstTotal pats' text
          end
      | None => firstTotal pats' text
      end
  end.

Definition extractTotal (line : jsstring) : option jsnum :=
  firstTotal lineTotalPatterns line.

Definition extractMetadata (line : jsstring) (metadata : Metadata) : Metadata :=
  let metadata :=
    if str_set (date metadata) then metadata
    else let dateMatch := extractDate line in
         if str_set dateMatch then set_date dateMatch metadata else metadata in
  if str_set (time metadata) then metadata
  else match exec plain re_time line with
       | Some timeMatch => set_time (group timeMatch 1) metadata
       | None => metadata
       end.

Definition cleanName (line : jsstring) : jsstring :=
  let s := trim (remove_first plain re_leading_star
                              (remove_all plain re_bold_marker line)) in
  let s := remove_first icase (re_label "Store Name:") s in
  let s := remove_first icase (re_label "Name:") s in
  remove_first icase (re_label "Company Name:") s.

Fixpoint findStore (pats : list (regex * string * string)) (line : jsstring)
  : option (string * string) :=
  match pats with
  | [] => None
  | (pattern, n, chain) :: pats' =>
      if test icase pattern line && includes (cleanName line) (js n)
      then Some (n, chain)
      else findStore pats' line
  end.

Definition extractStoreInfo (line : jsstring) (store : Store) : Store :=
  let store :=
    if str_set (name store) then store
    else match findStore storePatterns line with
         | Some (n, chain) => set_name (Some (js n)) (Some (js chain)) store
         | None => store
         end in
  let store :=
    if str_set (address store) then store
    else if test plain re_address line
         then set_address (Some (trim line)) store else store in
  let store :=
    if str_set (phone store) then store
    else if test icase re_phone line
         then set_phone (Some (trim line)) store else store in
  if str_set (tax_id store) then store
  else match exec icase re_tax_id line with
       | Some m => set_tax_id (group m 1) store
       | None => store
       end.

Definition extractTotals (line : jsstring) (totals : Totals) : Totals :=
  let totals :=
    if num_set (total_amount totals) then totals
    else let totalMatch := extractTotal line in
         if num_set totalMatch then set_total_amount totalMatch totals
         else totals in
  let totals :=
    if num_set (vat_amount totals) then totals
    else match exec icase re_mwst line with
         | Some vatMatch =>
             set_vat_amount (parsePrice (group vatMatch 1)) totals
         | None => totals
         end in
  if num_set (subtotal totals) then totals
  else match exec icase re_netto line with
       | Some subtotalMatch =>
           set_subtotal (parsePrice (group subtotalMatch 1)) totals
       | None => totals
       end.

Definition extractPaymentInfo (line : jsstring) (payment : Payment) : Payment :=
  let payment :=
    if str_set (method payment) then payment
    else if test icase re_payment_method line
         then set_method (Some (trim line))
                         (if includes line (js "VISA") then Some (js "VISA")
                          else if includes line (js "EC") then Some (js "EC")
                          else card_type payment)
                         payment
         else payment in
  if num_set (amount_paid payment) then payment
  else match exec plain re_amount_paid line with
       | Some paidMatch =>
           set_amount_paid (parsePrice (group paidMatch 1)) payment
       | None => payment
       end.

Definition extractCashierInfo (line : jsstring) (cashier : CashierInfo)
  : CashierInfo :=
  let cashier :=
    if str_set (start_time cashier) then cashier
    else match exec icase re_start line with
         | Some m => set_start_time (group m 1) cashier
         | None => cashier
         end in
  let cashier :=
    if str_set (end_time cashier) then cashier
    else match exec icase re_ende line with
         | Some m => set_end_time (group m 1) cashier
         | None => cashier
         end in
  let cashier :=
    if str_set (cashier_number cashier) then cashier
    else match exec icase re_sn_kasse line with
         | Some m => set_cashier_number (group m 1) cashier
         | None => cashier
         end in
  if str_set (terminal_number cashier) then cashier
  else match exec icase re_ta_nummer line with
       | Some m => set_terminal_number (group m 1) cashier
       | None => cashier
       end.

Definition extractFiscalInfo (line : jsstring) (fiscal : FiscalInfo)
  : FiscalInfo :=
  let fiscal :=
    if str_set (tse_signature fiscal) then fiscal
    else match exec icase re_sn_tse line with
         | Some m => set_tse_signature (group m 1) fiscal
         | None => fiscal
         end in
  let fiscal :=
    if str_set (signature_counter fiscal) then fiscal
    else match exec icase re_signaturzaehler line with
         | Some m => set_signature_counter (group m 1) fiscal
         | None => fiscal
         end in
  if str_set (signature fiscal) then fiscal
  else match exec icase re_signatur line with
       | Some m => set_signature (group m 1) fiscal
       | None => fiscal
       end.

Definition extractLoyaltyInfo (line : jsstring) (loyalty : Loyalty) : Loyalty :=
  if num_set (points_earned loyalty) then loyalty
  else match exec icase re_payback line with
       | Some pointsMatch =>
           set_points (Some (parseInt_opt (group pointsMatch 1)))
                      (Some (js "PAYBACK")) loyalty
       | None => loyalty
       end.

(* ================================================================== *)
(** ** The extraction engine: items *)
(* ================================================================== *)

Section Engine.

(** [random36 n] is the string [Math.random().toString(36)] of the call
    number [n] of [Math.random]; [numToString] is the conversion of a number
    to a string inside a template literal; [now] is the string
    [new Date().toISOString()] of the one reading of the clock. *)
Variable random36 : nat -> jsstring.
Variable numToString : jsnum -> jsstring.
Variable now : jsstring.

Definition generateItemCode (n : nat) (productName : jsstring) : jsstring :=
  let cleanName := toUpperCase (remove_all plain re_not_alnum productName) in
  substring 0 8 cleanName ++ toUpperCase (substring 2 6 (random36 n)).

(** The object literal that seven of the eight places that build an item
    share; [n] numbers the random draw of its code. *)
Definition mkItem (n : nat) (productName : jsstring) (quantity : jsnum)
           (price : option jsnum) (line_text : jsstring) : LineItem :=
  {| product_name := productName;
     quantity := quantity;
     unit_price := per_unit price quantity;
     total_price := or_null price;
     category := None;
     brand := extractBrand productName;
     item_code := generateItemCode n productName;
     line_text := line_text;
     matched := false |}.

(** *** extractItem *)

Fixpoint extractItem_from (pats : list regex) (n : nat) (line : jsstring)
  : option LineItem :=
  match pats with
  | [] => None
  | r :: pats' =>
      match exec icase r line with
      | Some m =>
          let productName := trim (group_text m 1) in
          let quantity :=
            if str_set (group m 2) then parseInt_opt (group m 2) else one in
          let price :=
            parsePrice (if str_set (group m 3) then group m 3 else group m 2) in
          match price with
          | Some p =>
              if nonempty productName && truthy p && gt0 p
              then Some {| product_name := productName;
                           quantity := quantity;
                           unit_price := Some (div p quantity);
                           total_price := Some p;
                           category := None;
                           brand := extractBrand productName;
                           item_code := generateItemCode n productName;
                           line_text := line;
                           matched := false |}
              else extractItem_from pats' n line
          | None => extractItem_from pats' n line
          end
      | None => extractItem_from pats' n line
      end
  end.

Definition extractItem (n : nat) (line : jsstring) : option LineItem :=
  if isHeaderOrTotal line then None else extractItem_from itemPatterns n line.

(** *** extractLineData *)

Definition with_fields (m : Metadata) (s : Store) (t : Totals) (p : Payment)
           (c : CashierInfo) (f : FiscalInfo) (l : Loyalty) (r : Result)
  : Result :=
  {| metadata := m; store := s; items := items r; totals := t; payment := p;
     cashier_info := c; fiscal_info := f; loyalty := l;
     raw_markdown := raw_markdown r;
     confidence_score := confidence_score r;
     processing_time := processing_time r;
     processing_info := processing_info r; draws := draws r |}.

Definition lineData (line : jsstring) (r : Result) : Result :=
  let trimmedLine := trim line in
  if nonempty trimmedLine then
    let r := with_fields (extractMetadata trimmedLine (metadata r))
                         (extractStoreInfo trimmedLine (store r))
                         (extractTotals trimmedLine (totals r))
                         (extractPaymentInfo trimmedLine (payment r))
                         (extractCashierInfo trimmedLine (cashier_info r))
                         (extractFiscalInfo trimmedLine (fiscal_info r))
                         (extractLoyaltyInfo trimmedLine (loyalty r))
                         r in
    if Nat.eqb (List.length (items r)) 0
    then push_opt (extractItem (draws r) trimmedLine) r
    else r
  else r.

Definition extractLineData (lines : list jsstring) (r : Result) : Result :=
  fold_left (fun r line => lineData line r) lines r.

(** *** extractPatternData *)

Definition with_totals (t : Totals) (r : Result) : Result :=
  with_fields (metadata r) (store r) t (payment r) (cashier_info r)
              (fiscal_info r) (loyalty r) r.

Definition with_metadata (m : Metadata) (r : Result) : Result :=
  with_fields m (store r) (totals r) (payment r) (cashier_info r)
              (fiscal_info r) (loyalty r) r.

Definition extractPatternData (markdown : jsstring) (r : Result) : Result :=
  let r :=
    if num_set (total_amount (totals r)) then r
    else match firstTotal documentTotalPatterns markdown with
         | Some amount => with_totals (set_total_amount (Some amount) (totals r)) r
         | None => r
         end in
  if str_set (date (metadata r)) then r
  else match extractDate_from datePatterns markdown with
       | Some d => with_metadata (set_date (Some d) (metadata r)) r
       | None => r
       end.

(** *** extractItemsFallback *)

Fixpoint fallbackItem_from (pats : list regex) (n : nat)
         (trimmedLine : jsstring) : option LineItem :=
  match pats with
  | [] => None
  | r :: pats' =>
      match exec icase r trimmedLine with
      | Some m =>
          let productName := trim (group_text m 1) in
          if isNotAProduct productName
          then fallbackItem_from pats' n trimmedLine
          else
            let quantity :=
              if str_set (group m 2) then parseInt_opt (group m 2) else one in
            let price :=
              if str_set (group m 3) then parsePrice (group m 3) else None in
            Some (mkItem n productName quantity price trimmedLine)
      | None => fallbackItem_from pats' n trimmedLine
      end
  end.

(** The first loop: the items a line may hold, with the draws they used. *)
Fixpoint potentialItems (lines : list jsstring) (n : nat)
  : list LineItem * nat :=
  match lines with
  | [] => ([], n)
  | line :: lines' =>
      let trimmedLine := trim line in
      if negb (nonempty trimmedLine) || isHeaderOrTotal trimmedLine
      then potentialItems lines' n
      else match fallbackItem_from fallbackPatterns n trimmedLine with
           | Some it =>
               let (l, n') := potentialItems lines' (S n) in (it :: l, n')
           | None => potentialItems lines' n
           end
  end.

(** The second loop: one item for each product name, compared in lower
    case. *)
Fixpoint uniqueItems (seenNames : list jsstring) (l : list LineItem)
  : list LineItem :=
  match l with
  | [] => []
  | it :: l' =>
      let key := toLowerCase (product_name it) in
      if existsb (str_eqb key) seenNames then uniqueItems seenNames l'
      else it :: uniqueItems (key :: seenNames) l'
  end.

Definition extractItemsFallback (markdown : jsstring) (r : Result) : Result :=
  let lines := split_on LF markdown in
  let (potential, n) := potentialItems lines (draws r) in
  with_items (fun l => l ++ uniqueItems [] potential) n r.

(** *** The row and list parsers of extractStructuredData *)

(** [array.filter(x => x)] and [array.filter(x => x.trim())] on strings *)
Definition keep_truthy (l : list jsstring) : list jsstring :=
  filter nonempty l.
Definition keep_nonblank (l : list jsstring) : list jsstring :=
  filter (fun part => nonempty (trim part)) l.

(** [line.split('|').map(col => col.trim()).filter(col => col)] *)
Definition cells (line : jsstring) : list jsstring :=
  keep_truthy (map trim (split_on (chr "|") line)).

Definition parseEDEKATableRow (n : nat) (line : jsstring) : option LineItem :=
  if negb (nonempty line) || includes line (js "---")
     || includes line (js "Product") || includes line (js "Quantity")
     || includes line (js "Price")
  then None
  else
    let parts := keep_nonblank (split plain re_two_spaces line) in
    if Nat.leb 2 (List.length parts) then
      let productName := trim (nth 0 parts []) in
      let quantity :=
        if str_set (nth_error parts 1)
        then or_else (parseInt_opt (nth_error parts 1)) one else one in
      let price :=
        if str_set (nth_error parts 2) then parsePrice (nth_error parts 2)
        else None in
      if isNotAProduct productName then None
      else Some (mkItem n productName quantity price line)
    else None.

Definition parseTableRow (n : nat) (columns : list jsstring)
  : option LineItem :=
  let itemName := nth_error columns 0 in
  let quantity := nth_error columns 1 in
  let price := nth_error columns 2 in
  match itemName with
  | Some itemName =>
      if negb (nonempty itemName) || str_eqb itemName (js "Item")
         || str_eqb itemName (js "---")
      then None
      else
        let parsedQuantity := or_else (parseInt_opt quantity) one in
        let parsedPrice := parsePrice price in
        Some (mkItem n itemName parsedQuantity parsedPrice
                     (join (js " | ") columns))
  | None => None
  end.

Definition listPatterns : list regex :=
  [re_list_qty_price; re_list_price; re_list_qty_x_price].

Fixpoint parseListItem_from (pats : list regex) (n : nat)
         (cleanLine : jsstring) : option LineItem :=
  match pats with
  | [] => None
  | r :: pats' =>
      match exec plain r cleanLine with
      | Some m =>
          let productName := trim (group_text m 1) in
          let quantity :=
            if str_set (group m 2) then parseInt_opt (group m 2) else one in
          let price :=
            parsePrice (if str_set (group m 3) then group m 3 else group m 2) in
          Some (mkItem n productName quantity price cleanLine)
      | None => parseListItem_from pats' n cleanLine
      end
  end.

Definition parseListItem (n : nat) (line : jsstring) : option LineItem :=
  let cleanLine :=
    remove_all plain re_bold_marker (remove_first plain re_leading_star line) in
  parseListItem_from listPatterns n cleanLine.

(** The loop of parseNewListItem over the lines that follow the product. *)
Fixpoint scanNewListItem (next : list jsstring) (quantity : jsnum)
         (price : option jsnum) : jsnum * option jsnum :=
  match next with
  | [] => (quantity, price)
  | l :: next' =>
      let nextLine := trim l in
      if negb (nonempty nextLine) then scanNewListItem next' quantity price
      else if startsWith nextLine (js "*") && includes nextLine (js "**")
      then (quantity, price)
      else
        let quantity :=
          match exec icase re_quantity_int nextLine with
          | Some quantityMatch => parseInt_opt (group quantityMatch 1)
          | None => quantity
          end in
        let price :=
          match exec icase re_price_eur nextLine with
          | Some priceMatch => parsePrice (group priceMatch 1)
          | None => price
          end in
        let price :=
          match exec icase re_price_plain nextLine with
          | Some priceMatch2 =>
              if num_set price then price
              else parsePrice (group priceMatch2 1)
          | None => price
          end in
        let quantity :=
          match exec icase re_weight nextLine with
          | Some weightMatch => parseInt_opt (group weightMatch 1)
          | None => quantity
          end in
        let price :=
          if includes nextLine (js "EUR / kg") || includes nextLine (js "EUR/kg")
          then None else price in
        scanNewListItem next' quantity price
  end.

(** [following] holds the lines after [lines[currentIndex]]. *)
Definition parseNewListItem (n : nat) (line : jsstring)
           (following : list jsstring) : option LineItem :=
  match exec plain re_product_bullet line with
  | None => None
  | Some productMatch =>
      let productName := trim (group_text productMatch 1) in
      let (quantity, price) :=
        scanNewListItem (firstn 9 following) one None in
      Some (mkItem n productName quantity price line)
  end.

(** *** extractStructuredData *)

(** The local variables of the loop. *)
Record Locals : Type :=
  { inTable : bool;
    inItemsSection : bool;
    inItemsPurchased : bool;
    inEDEKATable : bool;
    currentProduct : option jsstring;
    inProductsSection : bool }.

Definition initLocals : Locals :=
  {| inTable := false; inItemsSection := false; inItemsPurchased := false;
     inEDEKATable := false; currentProduct := None;
     inProductsSection := false |}.

Definition set_inTable (b : bool) (v : Locals) : Locals :=
  {| inTable := b; inItemsSection := inItemsSection v;
     inItemsPurchased := inItemsPurchased v; inEDEKATable := inEDEKATable v;
     currentProduct := currentProduct v;
     inProductsSection := inProductsSection v |}.

Definition set_inItemsSection (b : bool) (v : Locals) : Locals :=
  {| inTable := inTable v; inItemsSection := b;
     inItemsPurchased := inItemsPurchased v; inEDEKATable := inEDEKATable v;
     currentProduct := currentProduct v;
     inProductsSection := inProductsSection v |}.

Definition set_inItemsPurchased (b : bool) (v : Locals) : Locals :=
  {| inTable := inTable v; inItemsSection := inItemsSection v;
     inItemsPurchased := b; inEDEKATable := inEDEKATable v;
     currentProduct := currentProduct v;
     inProductsSection := inProductsSection v |}.

Definition set_inEDEKATable (b : bool) (v : Locals) : Locals :=
  {| inTable := inTable v; inItemsSection := inItemsSection v;
     inItemsPurchased := inItemsPurchased v; inEDEKATable := b;
     currentProduct := currentProduct v;
     inProductsSection := inProductsSection v |}.

Definition set_currentProduct (p : option jsstring) (v : Locals) : Locals :=
  {| inTable := inTable v; inItemsSection := inItemsSection v;
     inItemsPurchased := inItemsPurchased v; inEDEKATable := inEDEKATable v;
     currentProduct := p; inProductsSection := inProductsSection v |}.

Definition set_inProductsSection (b : bool) (v : Locals) : Locals :=
  {| inTable := inTable v; inItemsSection := inItemsSection v;
     inItemsPurchased := inItemsPurchased v; inEDEKATable := inEDEKATable v;
     currentProduct := currentProduct v; inProductsSection := b |}.

(** How a part of the loop body ends: [continue], or on to the next part. *)
Inductive Flow : Type :=
| Continue (v : Locals) (r : Result)
| Next (v : Locals) (r : Result).

Definition andThen (x : Flow) (k : Locals -> Result -> Flow) : Flow :=
  match x with
  | Continue v r => Continue v r
  | Next v r => k v r
  end.

Definition finish (x : Flow) : Locals * Result :=
  match x with Continue v r | Next v r => (v, r) end.

(** The search of the next lines for a price, when the quantity line had
    none. *)
Fixpoint lookaheadPrice (next : list jsstring) (price : option jsnum)
  : option jsnum :=
  match next with
  | [] => price
  | l :: next' =>
      let nextLine := trim l in
      if startsWith nextLine (js "+") && includes nextLine (js "Price:")
      then match exec plain re_price_label_euro nextLine with
           | Some nextPriceMatch =>
               Some (parseDecimal (group_text nextPriceMatch 1))
           | None => price
           end
      else if startsWith nextLine (js "*") && includes nextLine (js "**")
      then price
      else lookaheadPrice next' price
  end.

(** [price || 'N/A'] inside the template literal *)
Definition priceOrNA (price : option jsnum) : jsstring :=
  match price with
  | Some p => if truthy p then numToString p else js "N/A"
  | None => js "N/A"
  end.

(** The "Products Purchased" section. *)
Definition productsSection (line : jsstring) (following : list jsstring)
           (v : Locals) (r : Result) : Flow :=
  if inProductsSection v then
    match exec plain re_product_bullet line with
    | Some productMatch =>
        Continue (set_currentProduct (Some (trim (group_text productMatch 1))) v) r
    | None =>
        if str_set (currentProduct v) && startsWith line (js "+")
           && includes line (js "Quantity:")
        then
          let product := match currentProduct v with Some p => p | None => [] end in
          let quantity :=
            match exec plain re_quantity_label line with
            | Some quantityMatch => parseDecimal (group_text quantityMatch 1)
            | None => one
            end in
          let price :=
            match exec plain re_price_label_euro line with
            | Some priceMatch => Some (parseDecimal (group_text priceMatch 1))
            | None => None
            end in
          let price :=
            if num_set price then price
            else lookaheadPrice (firstn 4 following) price in
          let r :=
            if negb (isNotAProduct product)
            then push (mkItem (draws r) product quantity price
                              (product ++ js " - Qty: " ++ numToString quantity
                                       ++ js " - Price: €" ++ priceOrNA price))
                      r
            else r in
          Continue (set_currentProduct None v) r
        else if negb (startsWith line (js "*")) && negb (startsWith line (js "+"))
                && nonempty line
        then Next (set_currentProduct None (set_inProductsSection false v)) r
        else Next v r
    end
  else Next v r.

(** The table whose rows are cut by [|], a product line and then a line
    of quantity and price. *)
Definition pipeTable (line : jsstring) (v : Locals) (r : Result) : Flow :=
  if includes line (js "|") && includes line (js "**")
     && negb (includes line (js "---"))
  then
    match exec plain re_bold line with
    | Some productMatch =>
        Continue (set_currentProduct (Some (trim (group_text productMatch 1))) v) r
    | None => Continue v r
    end
  else if str_set (currentProduct v) && includes line (js "|")
          && negb (includes line (js "**")) && negb (includes line (js "---"))
  then
    let parts := cells line in
    if Nat.leb 1 (List.length parts) then
      let product := match currentProduct v with Some p => p | None => [] end in
      let quantityPrice := nth 0 parts [] in
      let total := nth_error parts 1 in
      let quantityMatch := exec plain re_price_times_qty quantityPrice in
      let simplePriceMatch := exec plain re_price_letter quantityPrice in
      let (quantity, price) :=
        match quantityMatch, simplePriceMatch with
        | Some m, _ => (parseInt_opt (group m 2), parsePrice (group m 1))
        | None, Some m => (one, parsePrice (group m 1))
        | None, None => (one, None)
        end in
      let price :=
        if str_set total && negb (num_set price) then parsePrice total
        else price in
      let r :=
        if negb (isNotAProduct product)
        then push (mkItem (draws r) product quantity price
                          (product ++ js " - " ++ quantityPrice ++ js " - "
                                   ++ match total with Some t => t | None => [] end))
                  r
        else r in
      Continue (set_currentProduct None v) r
    else Continue v r
  else if negb (includes line (js "|")) && str_set (currentProduct v)
  then Next (set_currentProduct None v) r
  else Next v r.

(** The table without [|], under a header naming Product, Quantity and
    Price. *)
Definition edekaTable (line : jsstring) (v : Locals) (r : Result) : Flow :=
  if includes line (js "Product") && includes line (js "Quantity")
     && includes line (js "Price")
  then Continue (set_inEDEKATable true v) r
  else if inEDEKATable v then
    if includes line (js "Posten:") || includes line (js "SUMME")
       || includes line (js "Datum:")
    then Continue (set_inEDEKATable false v) r
    else Next v (push_opt (parseEDEKATableRow (draws r) line) r)
  else Next v r.

(** The markdown table under a row of dashes. *)
Definition standardTable (line : jsstring) (v : Locals) (r : Result) : Flow :=
  if includes line (js "|") && includes line (js "---")
  then Continue (set_inTable true v) r
  else if inTable v && includes line (js "|") then
    let columns := cells line in
    if Nat.leb 3 (List.length columns)
    then Next v (push_opt (parseTableRow (draws r) columns) r)
    else Next v r
  else if inTable v then Next (set_inTable false v) r
  else Next v r.

(** The bullet list under an items heading. *)
Definition itemsSection (line : jsstring) (v : Locals) (r : Result) : Flow :=
  if isItemsSection line then Continue (set_inItemsSection true v) r
  else if inItemsSection v && startsWith line (js "*") && includes line (js "**")
  then Next v (push_opt (parseListItem (draws r) line) r)
  else if inItemsSection v && negb (startsWith line (js "*"))
  then Next (set_inItemsSection false v) r
  else Next v r.

(** The bullet list under "Items Purchased", each product followed by
    lines of quantity and price. *)
Definition itemsPurchased (line : jsstring) (following : list jsstring)
           (v : Locals) (r : Result) : Flow :=
  if includes line (js "Items Purchased") || includes line (js "Items purchased")
  then Continue (set_inItemsPurchased true v) r
  else if inItemsPurchased v && startsWith line (js "*")
          && includes line (js "**")
  then Next v (push_opt (parseNewListItem (draws r) line following) r)
  else if inItemsPurchased v && negb (startsWith line (js "*"))
          && negb (includes line [9%N]) && negb (includes line (js "+"))
  then Next (set_inItemsPurchased false v) r
  else Next v r.

(** One turn of the loop, for [lines[i]] and the lines after it. *)
Definition structuredLine (raw : jsstring) (following : list jsstring)
           (v : Locals) (r : Result) : Locals * Result :=
  let line := trim raw in
  if includes line (js "Products Purchased")
     || includes line (js "Products purchased")
  then (set_inProductsSection true v, r)
  else
    finish
      (andThen (productsSection line following v r) (fun v r =>
       andThen (pipeTable line v r) (fun v r =>
       andThen (edekaTable line v r) (fun v r =>
       andThen (standardTable line v r) (fun v r =>
       andThen (itemsSection line v r) (fun v r =>
       itemsPurchased line following v r)))))).

Fixpoint structuredLoop (lines : list jsstring) (v : Locals) (r : Result)
  : Result :=
  match lines with
  | [] => r
  | raw :: following =>
      let (v', r') := structuredLine raw following v r in
      structuredLoop following v' r'
  end.

Definition extractStructuredData (lines : list jsstring) (r : Result)
  : Result :=
  structuredLoop lines initLocals r.

(** *** parseMarkdown *)

Definition parseMarkdown (markdown : jsstring) : Result :=
  let lines := split_on LF markdown in
  let r := initial now markdown in
  let r := extractStructuredData lines r in
  let r := extractLineData lines r in
  let r := extractPatternData markdown r in
  if Nat.eqb (List.length (items r)) 0
  then extractItemsFallback markdown r
  else r.

End Engine.

(** *** Vocabulary of the properties *)


(** An item without its code, and a result without the codes of its
    items. *)
Definition erase_item (it : LineItem) : LineItem :=
  {| product_name := product_name it; quantity := quantity it;
     unit_price := unit_price it; total_price := total_price it;
     category := category it; brand := brand it; item_code := [];
     line_text := line_text it; matched := matched it |}.

Definition erase_codes (r : Result) : Result :=
  with_items (map erase_item) (draws r) r.

(** The information on the processing without the reading of the clock,
    and a result without what a run draws from outside: the codes of its
    items and its time stamp. *)
Definition erase_stamp (i : ProcessingInfo) : ProcessingInfo :=
  {| timestamp := []; version := version i; ocr_model := ocr_model i;
     parser_version := parser_version i |}.

Definition erase (r : Result) : Result :=
  {| metadata := metadata r; store := store r;
     items := map erase_item (items r);
     totals := totals r; payment := payment r;
     cashier_info := cashier_info r; fiscal_info := fiscal_info r;
     loyalty := loyalty r; raw_markdown := raw_markdown r;
     confidence_score := confidence_score r;
     processing_time := processing_time r;
     processing_info := erase_stamp (processing_info r);
     draws := draws r |}.

(** The fields outside the receipt, without the reading of the clock. *)
Definition info_of (r : Result) :=
  (confidence_score r, processing_time r, erase_stamp (processing_info r)).


(** A field that holds a value is kept: when the guard [g] finds [a]
    set, [b] is [a]. *)
Definition kept {A : Type} (g : A -> bool) (a b : A) : Prop :=
  g a = true -> b = a.

(** The guard of a field that is written together with a second one. *)
Definition str_set1 (p : option jsstring * option jsstring) : bool :=
  str_set (fst p).
Definition num_set1 (p : option jsnum * option jsstring) : bool :=
  num_set (fst p).

Definition metadata_kept (m m' : Metadata) : Prop :=
  kept str_set (date m) (date m') /\ kept str_set (time m) (time m').

Definition store_kept (s s' : Store) : Prop :=
  kept str_set1 (name s, store_chain s) (name s', store_chain s')
  /\ kept str_set (address s) (address s')
  /\ kept str_set (phone s) (phone s')
  /\ kept str_set (tax_id s) (tax_id s').

Definition totals_kept (t t' : Totals) : Prop :=
  kept num_set (total_amount t) (total_amount t')
  /\ kept num_set (vat_amount t) (vat_amount t')
  /\ kept num_set (subtotal t) (subtotal t').

Definition payment_kept (p p' : Payment) : Prop :=
  kept str_set1 (method p, card_type p) (method p', card_type p')
  /\ kept num_set (amount_paid p) (amount_paid p').

Definition cashier_kept (c c' : CashierInfo) : Prop :=
  kept str_set (start_time c) (start_time c')
  /\ kept str_set (end_time c) (end_time c')
  /\ kept str_set (cashier_number c) (cashier_number c')
  /\ kept str_set (terminal_number c) (terminal_number c').

Definition fiscal_kept (f f' : FiscalInfo) : Prop :=
  kept str_set (tse_signature f) (tse_signature f')
  /\ kept str_set (signature_counter f) (signature_counter f')
  /\ kept str_set (signature f) (signature f').

Definition loyalty_kept (l l' : Loyalty) : Prop :=
  kept num_set1 (points_earned l, program l) (points_earned l', program l').

(** Every scalar field of [r] that holds a non-empty string or a number
    other than zero has the same value in [r']. *)
Definition fields_kept (r r' : Result) : Prop :=
  metadata_kept (metadata r) (metadata r')
  /\ store_kept (store r) (store r')
  /\ totals_kept (totals r) (totals r')
  /\ payment_kept (payment r) (payment r')
  /\ cashier_kept (cashier_info r) (cashier_info r')
  /\ fiscal_kept (fiscal_info r) (fiscal_info r')
  /\ loyalty_kept (loyalty r) (loyalty r').

Definition scalars_of (r : Result) :=
  (metadata r, store r, totals r, payment r, cashier_info r, fiscal_info r,
   loyalty r).





(** Two results that differ at most in the codes of their items and in
    their time stamp. *)
Definition same_up_to_run (r1 r2 : Result) : Prop := erase r1 = erase r2.

Definition same_item_but_code (o1 o2 : option LineItem) : Prop :=
  option_map erase_item o1 = option_map erase_item o2.

Definition flow_result (x : Flow) : Result :=
  match x with Continue _ r | Next _ r => r end.

Definition flow_locals (x : Flow) : Locals :=
  match x with Continue v _ | Next v _ => v end.

Definition flow_continues (x : Flow) : bool :=
  match x with Continue _ _ => true | Next _ _ => false end.

Definition same_flow (x y : Flow) : Prop :=
  flow_continues x = flow_continues y
  /\ flow_locals x = flow_locals y
  /\ same_up_to_run (flow_result x) (flow_result y).

End Receipt.

(* ================================================================== *)
(** ** The orchestrator *)
(* ================================================================== *)

Module MultiOCR.
Import JsString.
Local Open Scope string_scope.
Local Open Scope list_scope.

(** What a backend hands back: the text and a confidence. *)
Record OcrResult : Type := { text : jsstring; confidence : Q }.

(** How the race of [processWithService] between a backend and the timer
    settles: the promise resolves with a result (that may be null), or it
    rejects, with the error of the backend or with the time-out. *)
Inductive Outcome : Type :=
| Resolved (result : option OcrResult)
| Rejected (message : string).

Record Config : Type :=
  { primary : string;
    fallback : string;
    timeout : N;
    minConfidence : Q }.

(** [{ ...result, service_used, fallback_used }] *)
Record Answer : Type :=
  { result : OcrResult;
    service_used : string;
    fallback_used : bool }.

(** An entry of the array [results]. *)
Record Entry : Type :=
  { service : string;
    entry_result : option OcrResult;
    error : option string }.

(** What a run has done so far: the backends invoked, in order, and the
    array [results]. *)
Record Log : Type :=
  { invoked : list string;
    results : list Entry }.

Inductive Completion : Type :=
| Returns (a : Answer)
| Throws (message : string).

Section Run.

(** [services] lists the keys of [this.services] in the order of
    [Object.entries]; [behave] tells how the call of each backend settles
    for the image at hand. *)
Variable services : list string.
Variable behave : string -> Outcome.

Definition available (serviceName : string) : bool :=
  existsb (String.eqb serviceName) services.

Definition record (serviceName : string) (e : Entry) (l : Log) : Log :=
  {| invoked := invoked l ++ [serviceName]; results := results l ++ [e] |}.

Definition call_only (serviceName : string) (l : Log) : Log :=
  {| invoked := invoked l ++ [serviceName]; results := results l |}.

(** [a >= b] and [a > b] on confidences *)
Definition ge (a b : Q) : bool := Qle_bool b a.
Definition gt (a b : Q) : bool := negb (Qle_bool a b).

(** The attempt on the primary or on the fallback backend: an answer when
    the confidence reaches the threshold, one more entry of [results]
    otherwise. *)
Definition tryConfigured (config : Config) (serviceName : string)
           (isFallback : bool) (l : Log) : Answer * Log + Log :=
  match behave serviceName with
  | Resolved (Some r) =>
      if ge (confidence r) (minConfidence config)
      then inl ({| result := r; service_used := serviceName;
                   fallback_used := isFallback |},
                call_only serviceName l)
      else inr (record serviceName
                       {| service := serviceName; entry_result := Some r;
                          error := Some "Low confidence" |} l)
  | Resolved None =>
      inr (record serviceName
                  {| service := serviceName; entry_result := None;
                     error := Some "Low confidence" |} l)
  | Rejected message =>
      inr (record serviceName
                  {| service := serviceName; entry_result := None;
                     error := Some message |} l)
  end.

(** The loop over [Object.entries(this.services)]. *)
Fixpoint tryRemaining (config : Config) (names : list string)
         (bestResult : option Answer) (l : Log) : option Answer * Log :=
  match names with
  | [] => (bestResult, l)
  | serviceName :: names' =>
      if negb (String.eqb serviceName (primary config))
         && negb (String.eqb serviceName (fallback config))
      then
        match behave serviceName with
        | Resolved (Some r) =>
            let l := record serviceName
                            {| service := serviceName; entry_result := Some r;
                               error := None |} l in
            let better :=
              match bestResult with
              | None => true
              | Some b => gt (confidence r) (confidence (result b))
              end in
            tryRemaining config names'
                         (if better
                          then Some {| result := r; service_used := serviceName;
                                       fallback_used := true |}
                          else bestResult)
                         l
        | Resolved None =>
            tryRemaining config names' bestResult (call_only serviceName l)
        | Rejected message =>
            tryRemaining config names' bestResult
                         (record serviceName
                                 {| service := serviceName;
                                    entry_result := None;
                                    error := Some message |} l)
        end
      else tryRemaining config names' bestResult l
  end.

Definition processImage (config : Config) : Completion * Log :=
  let l := {| invoked := []; results := [] |} in
  let afterPrimary :=
    if available (primary config)
    then tryConfigured config (primary config) false l
    else inr l in
  match afterPrimary with
  | inl (a, l) => (Returns a, l)
  | inr l =>
      let afterFallback :=
        if available (fallback config)
           && negb (String.eqb (fallback config) (primary config))
        then tryConfigured config (fallback config) true l
        else inr l in
      match afterFallback with
      | inl (a, l) => (Returns a, l)
      | inr l =>
          match tryRemaining config services None l with
          | (Some bestResult, l) => (Returns bestResult, l)
          | (None, l) =>
              (Throws "All OCR services failed to process the image", l)
          end
      end
  end.

End Run.

(** The attempts of a run that came back with a result, each with the
    name of its backend, in the order of the attempts. *)
Definition candidates (l : Log) (behave : string -> Outcome)
  : list (string * OcrResult) :=
  flat_map (fun n => match behave n with
                     | Resolved (Some r) => [(n, r)]
                     | _ => []
                     end)
           (invoked l).

End MultiOCR.

(* ================================================================== *)
(** ** Sample inputs *)
(* ================================================================== *)

Module Samples.
Import JsString JsNum Receipt MultiOCR.
Local Open Scope string_scope.
Local Open Scope list_scope.

(** The configuration of the constructor, and three backends. *)
Definition defaults : Config :=
  {| primary := "google"; fallback := "tesseract"; timeout := 30000%N;
     minConfidence := 1 # 2 |}.

Definition sure : OcrResult := {| text := JsString.js "EDEKA"; confidence := 9 # 10 |}.
Definition blurred : OcrResult := {| text := JsString.js "EDEKA"; confidence := 2 # 5 |}.
Definition faint : OcrResult := {| text := JsString.js "ED"; confidence := 3 # 10 |}.
Definition noise : OcrResult := {| text := JsString.js "E"; confidence := 1 # 10 |}.

Definition google_sure (serviceName : string) : Outcome :=
  if String.eqb serviceName "google" then Resolved (Some sure)
  else Rejected "not reached".

(** Every backend comes back below the threshold: the primary with 0.4,
    the fallback with 0.3 and the third backend with 0.1. *)
Definition all_low (serviceName : string) : Outcome :=
  if String.eqb serviceName "google" then Resolved (Some blurred)
  else if String.eqb serviceName "tesseract" then Resolved (Some faint)
  else Resolved (Some noise).

(** The primary backend comes back below the threshold and the fallback
    backend fails. *)
Definition low_then_error (serviceName : string) : Outcome :=
  if String.eqb serviceName "google" then Resolved (Some blurred)
  else Rejected "Service tesseract timed out after 30000ms".

(** A sequence of random draws, and a conversion of numbers to strings
    that writes whole numbers in decimal digits (none of the samples below
    reaches the template literal that calls it). *)
Definition fixed_random (n : nat) : jsstring := js "0.4fzyo82mvyr".

(** Two readings of the clock. *)
Definition noon : jsstring := js "2024-01-15T12:00:00.000Z".
Definition midnight : jsstring := js "2024-01-16T00:00:00.000Z".

Definition show_whole (n : jsnum) : jsstring :=
  match n with
  | JFin (Qmake (Z.pos p) 1) =>
      js (NilEmpty.string_of_uint (Pos.to_uint p))
  | _ => js "NaN"
  end.

Definition lines_of (l : list string) : jsstring :=
  join [LF] (map js l).

(** The item line of an EDEKA receipt. *)
Definition gouda_line : jsstring := js "G&G Gouda 1,99 € x 2 3,98 €".





(** The total line of a dm receipt. *)
Definition summe_line : jsstring := js "SUMME EUR 13,95".

(** The text of processWithMockOCR. *)
Definition mockMarkdown : jsstring :=
  lines_of ["# Receipt"; "";
            "Vollmilch 3.5% 2x €3.50";
            "Vollkornbrot 1x €2.80";
            "Bio Äpfel 1kg €4.20";
            "Tomaten 500g €2.50";
            "";
            "Total: €13.00";
            "Date: 2024-01-15"].

(** Two lines of value-added tax, the first of them of amount zero. *)
Definition vat_lines : list jsstring := [js "MwSt: 0,00"; js "MwSt: 1,50"].
Definition vat_text : jsstring := join [LF] vat_lines.

End Samples.

(* ================================================================== *)
(** ** Vocabulary for the numbers *)
(* ================================================================== *)

Module JsNumSpec.

(** The quotient of two whole numbers. *)
Definition ratio (n d : Z) : Q := (inject_Z n / inject_Z d)%Q.

End JsNumSpec.

(* ================================================================== *)
(** ** More vocabulary for the orchestrator *)
(* ================================================================== *)

Module MultiOCRSpec.
Import MultiOCR.
Local Open Scope string_scope.
Local Open Scope list_scope.

(** An attempt that does not end the run: it fails, comes back with
    nothing, or comes back below the threshold. *)
Definition below_threshold (config : Config) (o : Outcome) : Prop :=
  match o with
  | Resolved (Some r) => ge (confidence r) (minConfidence config) = false
  | _ => True
  end.

(** A backend that is neither the primary nor the fallback one. *)
Definition remaining (config : Config) (serviceName : string) : bool :=
  negb (String.eqb serviceName (primary config))
  && negb (String.eqb serviceName (fallback config)).

(** The backends that the first two steps of a run call. *)
Definition configured (services : list string) (config : Config)
  : list string :=
  (if available services (primary config) then [primary config] else [])
  ++ (if available services (fallback config)
         && negb (String.eqb (fallback config) (primary config))
      then [fallback config] else []).

Definition has_result (o : Outcome) : bool :=
  match o with Resolved (Some _) => true | _ => false end.

(** The primary backend comes back below the threshold and the fallback
    backend above it. *)
Definition low_then_sure (serviceName : string) : Outcome :=
  if String.eqb serviceName "google" then Resolved (Some Samples.blurred)
  else if String.eqb serviceName "tesseract" then Resolved (Some Samples.sure)
  else Rejected "not reached".

Definition three_services : list string := ["google"; "azure"; "tesseract"].

End MultiOCRSpec.

(* ================================================================== *)
(** ** Vocabulary for the matcher *)
(* ================================================================== *)

Module RegexSpec.
Import JsString Regex.
Local Open Scope list_scope.

(** A pattern that may match without reading a code unit. *)
Fixpoint nullable (r : regex) : bool :=
  match r with
  | Eps | Bol | Eol => true
  | Chr _ | Any | Cls _ _ => false
  | Seq r1 r2 => nullable r1 && nullable r2
  | Alt r1 r2 => nullable r1 || nullable r2
  | Rep min max _ r' =>
      Nat.eqb min 0 || nullable r'
      || match max with Some O => true | _ => false end
  | Grp _ r' => nullable r'
  end.

(** The code units with which a match that reads something may start. *)
Fixpoint first (fl : flags) (r : regex) (c : char) : bool :=
  match r with
  | Eps | Bol | Eol => false
  | Chr a => chr_eq fl a c
  | Any => negb (is_line_terminator c)
  | Cls neg items => xorb neg (existsb (item_matches fl c) items)
  | Seq r1 r2 => first fl r1 c || (nullable r1 && first fl r2 c)
  | Alt r1 r2 => first fl r1 c || first fl r2 c
  | Rep _ _ _ r' => first fl r' c
  | Grp _ r' => first fl r' c
  end.

(** The code units of white space, one by one. *)
Definition whitespace : list char :=
  [9; 10; 11; 12; 13; 32; 160; 5760; 8192; 8193; 8194; 8195; 8196; 8197;
   8198; 8199; 8200; 8201; 8202; 8232; 8233; 8239; 8287; 12288; 65279]%N.

(** The number of code units that every match of a pattern reads, for a
    pattern that has one. *)
Fixpoint width (r : regex) : option nat :=
  match r with
  | Eps | Bol | Eol => Some 0
  | Chr _ | Any | Cls _ _ => Some 1
  | Seq r1 r2 =>
      match width r1, width r2 with
      | Some a, Some b => Some (a + b)
      | _, _ => None
      end
  | Alt r1 r2 =>
      match width r1, width r2 with
      | Some a, Some b => if Nat.eqb a b then Some a else None
      | _, _ => None
      end
  | Rep min (Some max) _ r' =>
      match width r' with
      | Some a => if Nat.eqb min max then Some (min * a) else None
      | None => None
      end
  | Rep _ None _ _ => None
  | Grp _ r' => width r'
  end.

(** The code units that a match of a pattern may read. *)
Fixpoint alphabet (fl : flags) (r : regex) (c : char) : bool :=
  match r with
  | Eps | Bol | Eol => false
  | Chr a => chr_eq fl a c
  | Any => negb (is_line_terminator c)
  | Cls neg items => xorb neg (existsb (item_matches fl c) items)
  | Seq r1 r2 | Alt r1 r2 => alphabet fl r1 c || alphabet fl r2 c
  | Rep _ _ _ r' => alphabet fl r' c
  | Grp _ r' => alphabet fl r' c
  end.

(** [reads_in p x y]: [y] is [x] after code units of [p] were read. *)
Definition reads_in (p : char -> bool) (x y : mstate) : Prop :=
  exists pre, rest x = pre ++ rest y /\ Forall (fun c => p c = true) pre.

(** [reads x y]: the state [y] is [x] after some code units were read. *)
Definition reads (x y : mstate) : Prop :=
  exists pre, rest x = pre ++ rest y.

(** The states [x] and [y] hold the same text for the group [n]. *)
Definition same_cap (n : nat) (x y : mstate) : Prop :=
  lookup_cap n (caps y) = lookup_cap n (caps x).

(** The state in which a search starts at the head of [s]. *)
Definition start (s : jsstring) : mstate :=
  {| rest := s; prev := None; caps := [] |}.

End RegexSpec.

(* ================================================================== *)
(** ** More vocabulary for the extraction engine *)
(* ================================================================== *)

Module ReceiptSpec.
Import JsString Regex JsNum Receipt.
Local Open Scope string_scope.
Local Open Scope list_scope.

Section Parts.

Variable random36 : nat -> jsstring.
Variable numToString : jsnum -> jsstring.

(** The first four parts of a turn of the loop of extractStructuredData,
    in their order: the products section and the three tables. *)
Definition tableParts (line : jsstring) (following : list jsstring)
           (v : Locals) (r : Result) : Flow :=
  andThen (productsSection random36 numToString line following v r) (fun v r =>
  andThen (pipeTable random36 line v r) (fun v r =>
  andThen (edekaTable random36 line v r) (fun v r =>
  standardTable random36 line v r))).

End Parts.

(** The fields of the object that [parseMarkdown] returns that lie outside
    its receipt: those of [ocr_data] and [processing_info]. *)
Definition outside_receipt (r : Result) :=
  (raw_markdown r, confidence_score r, processing_time r, processing_info r).

(** Every item of a result has the property [P]. *)
Definition all_items (P : LineItem -> Prop) (r : Result) : Prop :=
  Forall P (items r).

(** The characters of a date and of a time of day. *)
Definition is_date_char (c : char) : bool :=
  is_digit c || (c =? chr "-")%N || (c =? chr ".")%N || (c =? chr "/")%N.

Definition is_time_char (c : char) : bool :=
  is_digit c || (c =? chr ":")%N.

(** [r'] has the items of [r] and then, maybe, more. *)
Definition appends (r r' : Result) : Prop :=
  exists added, items r' = items r ++ added.

(** The digits of base 36 that [Math.random().toString(36)] writes, and
    the characters of an item code. *)
Definition is_base36 (c : char) : bool :=
  is_digit c || in_range (chr "a") (chr "z") c.

Definition is_upper_alnum (c : char) : bool :=
  is_digit c || in_range (chr "A") (chr "Z") c.

End ReceiptSpec.

(* ================================================================== *)
(** ** The markdown of a recognised text *)
(* ================================================================== *)

(** [convertToMarkdown] of GoogleVisionService with the four tests it
    calls; AzureVisionService and TesseractOCRService have the same five
    functions, letter for letter. *)
Module ServiceMarkdown.
Import JsString Regex.
Local Open Scope string_scope.
Local Open Scope list_scope.

(* "[0-9]+[,.]?[0-9]*" *)
Definition re_number : list regex :=
  [plus digit; opt (Cls false (cc ",.")); star digit].

(* "/[0-9]+[,.]?[0-9]*\s*€/" *)
Definition pricePattern : regex := seqs (re_number ++ [star space; lit "€"]).

Definition totalPatterns : list (flags * regex) :=
  [ (icase, lit "total"); (icase, lit "summe"); (icase, lit "gesamt");
    (* "/€\s*[0-9]+[,.]?[0-9]*/" *)
    (plain, seqs (lit "€" :: star space :: re_number));
    (plain, pricePattern) ].

Definition some_pattern (patterns : list (flags * regex)) (line : jsstring)
  : bool :=
  existsb (fun p => test (fst p) (snd p) line) patterns.

Definition isTotalLine (line : jsstring) : bool :=
  some_pattern totalPatterns line.

(* "[.\/-]" *)
Definition date_separator : regex := Cls false (cc "./-").

Definition datePatterns : list (flags * regex) :=
  [ (* "/\d{1,2}[.\/-]\d{1,2}[.\/-]\d{2,4}/" *)
    (plain, seqs [Rep 1 (Some 2) true digit; date_separator;
                  Rep 1 (Some 2) true digit; date_separator;
                  Rep 2 (Some 4) true digit]);
    (* "/\d{1,2}:\d{2}/" *)
    (plain, seqs [Rep 1 (Some 2) true digit; lit ":"; times 2 digit]) ].

Definition isDateLine (line : jsstring) : bool :=
  some_pattern datePatterns line.

Definition storePatterns : list (flags * regex) :=
  map (fun word => (icase, lit word))
      ["edeka"; "dm"; "rewe"; "lidl"; "aldi"; "kaufland"; "str."; "straße";
       "straße"; "tel"; "phone"].

Definition isStoreLine (line : jsstring) : bool :=
  some_pattern storePatterns line.

Definition isItemLine (line : jsstring) : bool :=
  test plain pricePattern line && Nat.ltb 5 (List.length line).

(** The template literal of a section with one bold bullet. *)
Definition section (heading : string) (trimmedLine : jsstring) : jsstring :=
  js "## " ++ js heading ++ [LF; LF] ++ js "* **" ++ trimmedLine ++ js "**"
     ++ [LF; LF].

Definition tableHead : jsstring :=
  js "## Items Purchased" ++ [LF; LF] ++ js "| Item | Quantity | Price |"
     ++ [LF] ++ js "| --- | --- | --- |" ++ [LF].

(** One turn of the loop; the state is the markdown written so far and
    [inItemsSection]. *)
Definition convertLine (state : jsstring * bool) (line : jsstring)
  : jsstring * bool :=
  let (markdown, inItemsSection) := state in
  let trimmedLine := trim line in
  if negb (nonempty trimmedLine) then (markdown, inItemsSection)
  else if isTotalLine trimmedLine
  then (markdown ++ section "Total" trimmedLine, inItemsSection)
  else if isDateLine trimmedLine
  then (markdown ++ section "Date and Time" trimmedLine, inItemsSection)
  else if isStoreLine trimmedLine
  then (markdown ++ section "Store Information" trimmedLine, inItemsSection)
  else if isItemLine trimmedLine
  then
    let markdown :=
      if negb inItemsSection then markdown ++ tableHead else markdown in
    (markdown ++ js "| " ++ trimmedLine ++ js " | | |" ++ [LF], true)
  else (markdown ++ js "* " ++ trimmedLine ++ [LF], inItemsSection).

Definition noText : jsstring :=
  js "# Receipt" ++ [LF; LF] ++ js "No text detected in image.".

(** [text] is [googleResult.text], [None] when the result has no text. *)
Definition convertToMarkdown (text : option jsstring) : jsstring :=
  match text with
  | None => noText
  | Some text =>
      if negb (nonempty text) then noText
      else
        let lines :=
          filter (fun line => nonempty (trim line)) (split_on LF text) in
        fst (fold_left convertLine lines (js "# Receipt" ++ [LF; LF], false))
  end.

(** What a line that is not blank adds to the markdown when the text holds
    no item line. *)
Definition block (trimmedLine : jsstring) : jsstring :=
  if isTotalLine trimmedLine then section "Total" trimmedLine
  else if isDateLine trimmedLine then section "Date and Time" trimmedLine
  else if isStoreLine trimmedLine
  then section "Store Information" trimmedLine
  else js "* " ++ trimmedLine ++ [LF].

End ServiceMarkdown.

(* ================================================================== *)
(** ** The markdown of an answer *)
(* ================================================================== *)

(** [MultiOCRService.convertToMarkdown].  Each of the three backends that
    initializeServices registers has a method convertToMarkdown, the one of
    [ServiceMarkdown]. *)
Module MultiOCRMarkdown.
Import JsString MultiOCR.
Local Open Scope string_scope.
Local Open Scope list_scope.

Section Convert.

(** [services] lists the keys of [this.services]; [toFixed1 q] is the
    string [q.toFixed(1)]. *)
Variable services : list string.
Variable toFixed1 : Q -> jsstring.

Definition convertToMarkdown (result : Answer) : jsstring :=
  let serviceName := service_used result in
  if available services serviceName
  then ServiceMarkdown.convertToMarkdown (Some (text (MultiOCR.result result)))
  else if negb (nonempty (text (MultiOCR.result result)))
  then ServiceMarkdown.noText
  else js "# Receipt" ++ [LF; LF] ++ js "**Processed by:** "
          ++ js serviceName ++ [LF] ++ js "**Confidence:** "
          ++ toFixed1 (confidence (MultiOCR.result result) * 100)%Q
          ++ js "%" ++ [LF; LF] ++ text (MultiOCR.result result).

End Convert.

End MultiOCRMarkdown.

(* ================================================================== *)
(** ** The rows handed to the database *)
(* ================================================================== *)

(** [Database.storeReceipt] of database-simple.js, as the route
    /process-receipt calls it with the receipt and the OCR data of
    [OCRService.processImage]: the parameters of the INSERT into receipts
    and of the INSERTs into items, in their order.  The row identifiers and
    the failures of the database are left out. *)
Module Database.
Import JsString JsNum.
Local Open Scope string_scope.
Local Open Scope list_scope.






Section Store.

(** [Database.generateItemCode], which reads the clock and Math.random. *)
Variable generateItemCode : jsstring -> jsstring.



End Store.

End Database.

(* ================================================================== *)
(** ** Facts about the matcher *)
(* ================================================================== *)

Module RegexFacts.
Import JsString Regex.
Local Open Scope list_scope.

(** Any fuel above the length of the input gives the same matches: the
    optional iterations of a repetition never use the fuel up. *)
Lemma rep_opt_fuel :
  forall stepf greedy fuel1 fuel2 max x,
    List.length (rest x) < fuel1 ->
    List.length (rest x) < fuel2 ->
    rep_opt stepf greedy fuel1 max x = rep_opt stepf greedy fuel2 max x.
Proof.
  induction fuel1 as [|f1 IH]; intros fuel2 max x H1 H2; [lia|].
  destruct fuel2 as [|f2]; [lia|]. cbn [rep_opt].
  assert (Hmore :
            flat_map (fun y => if List.length (rest y) <? List.length (rest x)
                               then rep_opt stepf greedy f1 (pred_max max) y
                               else []) (stepf x)
            = flat_map (fun y => if List.length (rest y) <? List.length (rest x)
                                 then rep_opt stepf greedy f2 (pred_max max) y
                                 else []) (stepf x)).
  { apply flat_map_ext. intros y.
    destruct (List.length (rest y) <? List.length (rest x)) eqn:E;
      [|reflexivity].
    apply Nat.ltb_lt in E. apply IH; lia. }
  rewrite Hmore. reflexivity.
Qed.

(** The fuel that [rep_req] hands to [rep_opt] could be any larger one. *)
Lemma rep_opt_enough :
  forall stepf greedy extra max x,
    rep_opt stepf greedy (S (List.length (rest x))) max x
    = rep_opt stepf greedy (S (List.length (rest x)) + extra) max x.
Proof. intros. apply rep_opt_fuel; lia. Qed.

End RegexFacts.

(* ================================================================== *)
(** ** Facts about the orchestrator *)
(* ================================================================== *)

Module MultiOCRFacts.
Import MultiOCR Samples.
Local Open Scope string_scope.
Local Open Scope list_scope.

(** C7. When the primary backend is available and its attempt comes back
    with a confidence at or above [minConfidence], the run invokes the
    primary backend and no other, and it returns that result with
    [service_used] the primary backend and [fallback_used] false. *)
Theorem primary_success_invokes_nothing_else :
  forall (services : list string) (behave : string -> Outcome)
         (config : Config) (r : OcrResult),
    available services (primary config) = true ->
    behave (primary config) = Resolved (Some r) ->
    ge (confidence r) (minConfidence config) = true ->
    processImage services behave config
    = (Returns {| result := r; service_used := primary config;
                  fallback_used := false |},
       {| invoked := [primary config]; results := [] |}).
Proof.
  intros services behave config r Havail Hres Hconf.
  unfold processImage, tryConfigured.
  rewrite Havail, Hres, Hconf.
  reflexivity.
Qed.

Lemma primary_success_invokes_nothing_else_witness :
  available ["google"; "azure"; "tesseract"] (primary defaults) = true /\
  google_sure (primary defaults) = Resolved (Some sure) /\
  ge (confidence sure) (minConfidence defaults) = true /\
  processImage ["google"; "azure"; "tesseract"] google_sure defaults
  = (Returns {| result := sure; service_used := "google";
                fallback_used := false |},
     {| invoked := ["google"]; results := [] |}).
Proof.
  split; [reflexivity|].
  split; [reflexivity|].
  split; [reflexivity|].
  apply (@primary_success_invokes_nothing_else
           ["google"; "azure"; "tesseract"] google_sure defaults sure);
    reflexivity.
Defined.

(** C1, at a failing input.  No attempt reaches the threshold and all
    three come back with a result; the run returns the result of the third
    backend, of confidence 0.1, and not that of the primary backend, of
    confidence 0.4, the highest of the three. *)
Theorem best_result_skips_primary_and_fallback :
  let run := processImage ["google"; "azure"; "tesseract"] all_low defaults in
  fst run = Returns {| result := noise; service_used := "azure";
                       fallback_used := true |}
  /\ candidates (snd run) all_low
     = [("google", blurred); ("tesseract", faint); ("azure", noise)]
  /\ gt (confidence blurred) (confidence noise) = true.
Proof.
  cbv zeta. split; [reflexivity|]. split; reflexivity.
Qed.

(** C2, at a failing input.  The primary attempt comes back with a result
    below the threshold, the fallback attempt fails and there is no other
    backend; the run throws although one attempt produced a result. *)
Theorem low_confidence_primary_still_throws :
  let run := processImage ["google"; "tesseract"] low_then_error defaults in
  fst run = Throws "All OCR services failed to process the image"
  /\ candidates (snd run) low_then_error = [("google", blurred)].
Proof.
  cbv zeta. split; reflexivity.
Qed.

End MultiOCRFacts.

(* ================================================================== *)
(** ** Facts about the numbers *)
(* ================================================================== *)

Module JsNumFacts.
Import JsNum JsNumSpec.
Local Open Scope Z_scope.

Lemma round_half_even_near :
  forall a b, 0 < b -> 2 * Z.abs (round_half_even a b * b - a) <= b.
Proof.
  intros a b Hb. unfold round_half_even.
  pose proof (Z.div_mod a b ltac:(lia)) as E.
  pose proof (Z.mod_pos_bound a b Hb) as Hm.
  set (q := a / b) in *. set (r := a mod b) in *.
  destruct (Z.compare_spec (2 * r) b); [destruct (Z.even q)| |]; lia.
Qed.

Lemma round_half_even_ge :
  forall a b k, 0 < b -> k * b <= a -> k <= round_half_even a b.
Proof.
  intros a b k Hb H. unfold round_half_even.
  assert (k <= a / b) by (apply Z.div_le_lower_bound; lia).
  destruct (_ ?= _); [destruct (Z.even _)| |]; lia.
Qed.

Lemma round_half_even_le :
  forall a b k, 0 < b -> a <= k * b -> round_half_even a b <= k.
Proof.
  intros a b k Hb H. unfold round_half_even.
  pose proof (Z.div_mod a b ltac:(lia)) as E.
  pose proof (Z.mod_pos_bound a b Hb) as Hm.
  set (q := a / b) in *. set (r := a mod b) in *.
  destruct (Z.compare_spec (2 * r) b); [destruct (Z.even q)| |]; nia.
Qed.

Lemma round_half_even_tie :
  forall a b,
    0 < b -> 2 * (a mod b) = b -> Z.even (round_half_even a b) = true.
Proof.
  intros a b Hb H. unfold round_half_even. rewrite H, Z.compare_refl.
  destruct (Z.even (a / b)) eqn:E; [exact E|].
  rewrite Z.even_add, E. reflexivity.
Qed.

Lemma round_half_even_exact :
  forall m b, 0 < b -> round_half_even (m * b) b = m.
Proof.
  intros m b Hb. unfold round_half_even.
  rewrite Z.mod_mul, Z.div_mul by lia.
  destruct (Z.compare_spec (2 * 0) b); [lia | reflexivity | lia].
Qed.

Lemma scale_pos :
  forall n d e, 0 < n -> 0 < d ->
    0 < fst (scale n d e) /\ 0 < snd (scale n d e).
Proof.
  intros n d e Hn Hd. unfold scale.
  destruct (0 <=? e) eqn:E; cbn [fst snd].
  - apply Z.leb_le in E. split; [lia|]. apply Z.mul_pos_pos; [lia|].
    apply Z.pow_pos_nonneg; lia.
  - apply Z.leb_gt in E. split; [|lia]. apply Z.mul_pos_pos; [lia|].
    apply Z.pow_pos_nonneg; lia.
Qed.

(** [n / d] over [2 ^ e], read in the rationals. *)
Lemma scale_ratio :
  forall n d e, 0 < n -> 0 < d ->
    (inject_Z (fst (scale n d e)) * 2 ^ e * inject_Z d
     == inject_Z n * inject_Z (snd (scale n d e)))%Q.
Proof.
  intros n d e Hn Hd. unfold scale.
  destruct (0 <=? e) eqn:E; cbn [fst snd].
  - apply Z.leb_le in E. rewrite inject_Z_mult.
    rewrite (Zpower_Qpower 2 e E). change (inject_Z 2) with 2%Q. ring.
  - apply Z.leb_gt in E. rewrite inject_Z_mult.
    rewrite (Zpower_Qpower 2 (- e)) by lia. change (inject_Z 2) with 2%Q.
    rewrite Qpower_opp.
    assert (H : ~ (2 ^ e == 0)%Q).
    { apply Qpower_not_0. discriminate. }
    field. exact H.
Qed.

Lemma dyadic_value :
  forall m e, (dyadic m e == inject_Z m * 2 ^ e)%Q.
Proof. intros m e. apply Qred_correct. Qed.

Lemma two_power_pos : forall e, (0 < 2 ^ e)%Q.
Proof. intros e. apply Qpower_0_lt. reflexivity. Qed.

Section Nearest.

Variables n d : Z.
Hypothesis n_pos : 0 < n.
Hypothesis d_pos : 0 < d.

(** The value rounded at the bit [e] is at most half a unit of that bit
    away. *)
Lemma rounded_near :
  forall e,
    let m := round_half_even (fst (scale n d e)) (snd (scale n d e)) in
    (Qabs (inject_Z m * 2 ^ e - ratio n d) <= 2 ^ e * (1 # 2))%Q.
Proof.
  intros e m.
  destruct (scale_pos e n_pos d_pos) as [Ha Hb].
  pose proof (scale_ratio e n_pos d_pos) as Hr.
  pose proof (round_half_even_near (fst (scale n d e)) Hb) as Hm.
  fold m in Hm.
  set (a := fst (scale n d e)) in *. set (b := snd (scale n d e)) in *.
  pose proof (two_power_pos e) as Hs. set (s := (2 ^ e)%Q) in *.
  assert (HB : (0 < inject_Z b)%Q)
    by (change 0%Q with (inject_Z 0); rewrite <- Zlt_Qlt; exact Hb).
  assert (HD : (0 < inject_Z d)%Q)
    by (change 0%Q with (inject_Z 0); rewrite <- Zlt_Qlt; exact d_pos).
  assert (Hx : (ratio n d == inject_Z a * s / inject_Z b)%Q).
  { unfold ratio. field_simplify_eq; [|split; lra].
    rewrite <- Hr. ring. }
  assert (H1 : (inject_Z m * s - ratio n d
                == (inject_Z m * inject_Z b - inject_Z a) / inject_Z b * s)%Q).
  { rewrite Hx. field. lra. }
  assert (H2 : (- inject_Z b <= 2 * (inject_Z m * inject_Z b - inject_Z a))%Q
               /\ (2 * (inject_Z m * inject_Z b - inject_Z a) <= inject_Z b)%Q).
  { rewrite <- !inject_Z_mult, <- inject_Z_opp.
    unfold Qminus. rewrite <- inject_Z_opp, <- inject_Z_plus.
    change 2%Q with (inject_Z 2). rewrite <- inject_Z_mult.
    rewrite <- !Zle_Qle. lia. }
  set (t := ((inject_Z m * inject_Z b - inject_Z a) / inject_Z b)%Q) in *.
  assert (Ht : (- (1 # 2) <= t)%Q /\ (t <= 1 # 2)%Q).
  { unfold t. split.
    - apply Qle_shift_div_l; [exact HB | lra].
    - apply Qle_shift_div_r; [exact HB | lra]. }
  rewrite H1. apply Qabs_Qle_condition. split; nra.
Qed.

Lemma two_power_plus :
  forall a b, (2 ^ (a + b) == 2 ^ a * 2 ^ b)%Q.
Proof. intros a b. apply Qpower_plus. discriminate. Qed.

Lemma two_power_Z :
  forall k, 0 <= k -> (inject_Z (2 ^ k) == 2 ^ k)%Q.
Proof. intros k Hk. apply (Zpower_Qpower 2 k Hk). Qed.

Lemma log2_bounds :
  forall z, 0 < z ->
    (2 ^ Z.log2 z <= inject_Z z)%Q /\ (inject_Z z < 2 ^ (Z.log2 z + 1))%Q.
Proof.
  intros z Hz. destruct (Z.log2_spec z Hz) as [H1 H2].
  pose proof (Z.log2_nonneg z) as H0.
  rewrite <- !two_power_Z by lia. rewrite <- Zle_Qle, <- Zlt_Qlt.
  replace (Z.log2 z + 1) with (Z.succ (Z.log2 z)) by lia.
  split; [exact H1 | exact H2].
Qed.

Lemma ratio_scaled :
  forall e,
    (ratio n d * inject_Z (snd (scale n d e))
     == inject_Z (fst (scale n d e)) * 2 ^ e)%Q.
Proof.
  intros e. pose proof (scale_ratio e n_pos d_pos) as Hr.
  assert (HD : (0 < inject_Z d)%Q)
    by (change 0%Q with (inject_Z 0); rewrite <- Zlt_Qlt; exact d_pos).
  assert (Hx : (ratio n d * inject_Z d == inject_Z n)%Q)
    by (unfold ratio; field; lra).
  apply (Qmult_inj_r _ _ (inject_Z d)); [lra|].
  setoid_replace (ratio n d * inject_Z (snd (scale n d e)) * inject_Z d)%Q
    with (ratio n d * inject_Z d * inject_Z (snd (scale n d e)))%Q by ring.
  rewrite Hx. symmetry. exact Hr.
Qed.

(** The test of [last_bit], read in the rationals. *)
Lemma scaled_test :
  forall e k, 0 <= k ->
    (2 ^ k * snd (scale n d e) <= fst (scale n d e)
     <-> (2 ^ (e + k) <= ratio n d)%Q).
Proof.
  intros e k Hk.
  destruct (scale_pos e n_pos d_pos) as [Ha Hb].
  pose proof (ratio_scaled e) as Hx.
  set (a := fst (scale n d e)) in *. set (b := snd (scale n d e)) in *.
  assert (HB : (0 < inject_Z b)%Q)
    by (change 0%Q with (inject_Z 0); rewrite <- Zlt_Qlt; exact Hb).
  rewrite Zle_Qle, inject_Z_mult, two_power_Z by exact Hk.
  rewrite two_power_plus.
  pose proof (two_power_pos e) as Hs. pose proof (two_power_pos k) as Hp.
  set (s := (2 ^ e)%Q) in *. set (p := (2 ^ k)%Q) in *.
  split; intros H.
  - apply Qnot_lt_le. intros C. nra.
  - apply Qnot_lt_le. intros C. nra.
Qed.

Lemma ratio_bounds :
  (2 ^ (Z.log2 n - Z.log2 d - 1) < ratio n d)%Q
  /\ (ratio n d < 2 ^ (Z.log2 n - Z.log2 d + 1))%Q.
Proof.
  destruct (log2_bounds n_pos) as [Hn1 Hn2].
  destruct (log2_bounds d_pos) as [Hd1 Hd2].
  assert (HD : (0 < inject_Z d)%Q)
    by (change 0%Q with (inject_Z 0); rewrite <- Zlt_Qlt; exact d_pos).
  assert (Hx : (ratio n d * inject_Z d == inject_Z n)%Q).
  { unfold ratio. field. lra. }
  set (ln := Z.log2 n) in *. set (ld := Z.log2 d) in *.
  assert (E1 : (2 ^ ln == 2 ^ (ln - ld - 1) * 2 ^ (ld + 1))%Q).
  { rewrite <- two_power_plus. replace (ln - ld - 1 + (ld + 1)) with ln by lia.
    reflexivity. }
  assert (E2 : (2 ^ (ln + 1) == 2 ^ (ln - ld + 1) * 2 ^ ld)%Q).
  { rewrite <- two_power_plus. replace (ln - ld + 1 + ld) with (ln + 1) by lia.
    reflexivity. }
  pose proof (two_power_pos (ln - ld - 1)) as P1.
  pose proof (two_power_pos (ln - ld + 1)) as P2.
  set (N := inject_Z n) in *. set (D := inject_Z d) in *.
  set (a1 := (2 ^ (ln - ld - 1))%Q) in *. set (a2 := (2 ^ (ld + 1))%Q) in *.
  set (a3 := (2 ^ (ln - ld + 1))%Q) in *. set (a4 := (2 ^ ld)%Q) in *.
  set (a5 := (2 ^ ln)%Q) in *. set (a6 := (2 ^ (ln + 1))%Q) in *.
  split.
  - apply Qnot_le_lt. intros C. nra.
  - apply Qnot_le_lt. intros C. nra.
Qed.

(** The last bit leaves 53 bits above it, or is the lowest bit there is. *)
Lemma last_bit_spec :
  let e := last_bit n d in
  -1074 <= e
  /\ (ratio n d < 2 ^ (e + 53))%Q
  /\ (-1074 < e -> (2 ^ (e + 52) <= ratio n d)%Q).
Proof.
  intros e. unfold last_bit in e.
  destruct ratio_bounds as [Hlo Hhi].
  set (e0 := Z.log2 n - Z.log2 d - 53) in *.
  replace (Z.log2 n - Z.log2 d - 1) with (e0 + 52) in Hlo by (unfold e0; lia).
  replace (Z.log2 n - Z.log2 d + 1) with (e0 + 1 + 53) in Hhi by (unfold e0; lia).
  pose proof (scaled_test e0 (k := 53) ltac:(lia)) as Ht.
  destruct (scale n d e0) as [a b] eqn:Es. cbn [fst snd] in Ht.
  set (e1 := if 2 ^ 53 * b <=? a then e0 + 1 else e0) in *.
  assert (H1 : (2 ^ (e1 + 52) <= ratio n d)%Q /\ (ratio n d < 2 ^ (e1 + 53))%Q).
  { unfold e1. destruct (2 ^ 53 * b <=? a) eqn:E.
    - apply Z.leb_le in E. apply Ht in E.
      replace (e0 + 1 + 52) with (e0 + 53) by lia. split; assumption.
    - apply Z.leb_gt in E. split; [apply Qlt_le_weak, Hlo|].
      apply Qnot_le_lt. intros C. apply Ht in C. lia. }
  destruct H1 as [H1 H2].
  assert (He : e = Z.max (-1074) e1) by reflexivity.
  split; [lia|]. split.
  - eapply Qlt_le_trans; [exact H2|].
    apply Qpower_le_compat_l; [lia | discriminate].
  - intros Hn. replace e with e1 by lia. exact H1.
Qed.


(** No double from [2 ^ 1024] on: the rounding gives none from half a unit
    of the last bit below on. *)
Lemma nearest_none :
  nearest n d = None -> (2 ^ 1024 - 2 ^ 970 <= ratio n d)%Q.
Proof.
  unfold nearest.
  destruct last_bit_spec as (He & _ & Hn).
  pose proof (rounded_near (last_bit n d)) as Hr. cbv zeta in Hr.
  set (e := last_bit n d) in *.
  destruct (scale n d e) as [a b]. cbn [fst snd] in Hr.
  set (m := round_half_even a b) in *.
  destruct (0 <=? e) eqn:E0; [|discriminate].
  destruct (2 ^ 1024 <=? m * 2 ^ e) eqn:E1; [|discriminate].
  intros _. apply Z.leb_le in E0. apply Z.leb_le in E1.
  rewrite Zle_Qle, inject_Z_mult, !two_power_Z in E1 by lia.
  apply Qabs_Qle_condition in Hr. destruct Hr as [_ Hr].
  pose proof (two_power_pos 970) as P970.
  destruct (Z_le_gt_dec e 971) as [Hs|Hl].
  - assert (Hm : (2 ^ e <= 2 ^ 971)%Q)
      by (apply Qpower_le_compat_l; [exact Hs | discriminate]).
    assert (E : (2 ^ 971 * (1 # 2) == 2 ^ 970)%Q).
    { change (1 # 2)%Q with (2 ^ (-1))%Q. rewrite <- two_power_plus.
      reflexivity. }
    set (s := (2 ^ e)%Q) in *. set (t := (2 ^ 1024)%Q) in *.
    set (u := (2 ^ 970)%Q) in *. set (w := (2 ^ 971)%Q) in *.
    set (ms := (inject_Z m * s)%Q) in *. set (y := ratio n d) in *.
    clearbody s t u w ms y. lra.
  - specialize (Hn ltac:(lia)).
    assert (Hm : (2 ^ 1024 <= 2 ^ (e + 52))%Q)
      by (apply Qpower_le_compat_l; [lia | discriminate]).
    set (s := (2 ^ (e + 52))%Q) in *.
    set (t := (2 ^ 1024)%Q) in *. set (u := (2 ^ 970)%Q) in *.
    set (y := ratio n d) in *. clearbody s t u y. lra.
Qed.

Lemma nearest_overflow :
  (2 ^ 1024 <= ratio n d)%Q -> nearest n d = None.
Proof.
  intros Hx. unfold nearest.
  destruct last_bit_spec as (He & Hup & Hn).
  set (e := last_bit n d) in *.
  assert (Hlt : (2 ^ 1024 < 2 ^ (e + 53))%Q)
    by (eapply Qle_lt_trans; [exact Hx | exact Hup]).
  apply Qpower_lt_compat_l_inv in Hlt; [|reflexivity].
  specialize (Hn ltac:(lia)).
  pose proof (scaled_test e (k := 52) ltac:(lia)) as Ht.
  destruct (scale_pos e n_pos d_pos) as [_ Hb].
  destruct (scale n d e) as [a b]. cbn [fst snd] in Ht, Hb.
  apply Ht in Hn. apply (@round_half_even_ge a b (2 ^ 52) Hb) in Hn.
  set (m := round_half_even a b) in *.
  replace (0 <=? e) with true by (symmetry; apply Z.leb_le; lia).
  replace (2 ^ 1024 <=? m * 2 ^ e) with true; [reflexivity|].
  symmetry. apply Z.leb_le.
  assert (Hp : 2 ^ 972 <= 2 ^ e) by (apply Z.pow_le_mono_r; lia).
  change (2 ^ 1024) with (2 ^ 52 * 2 ^ 972).
  apply Z.mul_le_mono_nonneg; lia.
Qed.

(** What the rounding gives is a double: a whole number of at most
    [2 ^ 53] times a last bit that is not below [2 ^ -1074], and less than
    [2 ^ 1024]. *)
Lemma nearest_shape :
  forall v,
    nearest n d = Some v ->
    exists m e,
      (v == inject_Z m * 2 ^ e)%Q
      /\ 0 <= m <= 2 ^ 53 /\ -1074 <= e /\ (v < 2 ^ 1024)%Q.
Proof.
  intros v. unfold nearest.
  destruct last_bit_spec as (He & Hup & _).
  set (e := last_bit n d) in *.
  pose proof (scaled_test e (k := 53) ltac:(lia)) as Ht.
  destruct (scale_pos e n_pos d_pos) as [Ha Hb].
  destruct (scale n d e) as [a b]. cbn [fst snd] in Ht, Ha, Hb.
  set (m := round_half_even a b).
  assert (Hm : 0 <= m <= 2 ^ 53).
  { split.
    - apply round_half_even_ge; [exact Hb | lia].
    - apply round_half_even_le; [exact Hb|].
      destruct (Z_le_gt_dec (2 ^ 53 * b) a) as [C|C]; [|lia].
      apply Ht in C. exfalso. revert C. apply Qlt_not_le, Hup. }
  destruct (0 <=? e) eqn:E0; cbn [andb].
  - destruct (2 ^ 1024 <=? m * 2 ^ e) eqn:E1; [discriminate|].
    intros H; injection H as <-. exists m, e.
    rewrite dyadic_value. apply Z.leb_le in E0. apply Z.leb_gt in E1.
    refine (conj (Qeq_refl _) (conj Hm (conj He _))).
    rewrite <- (two_power_Z E0), <- inject_Z_mult.
    rewrite <- (two_power_Z (k := 1024)) by lia.
    rewrite <- Zlt_Qlt. exact E1.
  - intros H; injection H as <-. exists m, e.
    rewrite dyadic_value. apply Z.leb_gt in E0.
    refine (conj (Qeq_refl _) (conj Hm (conj He _))).
    assert (H1 : (2 ^ e <= 2 ^ 0)%Q)
      by (apply Qpower_le_compat_l; [lia | discriminate]).
    assert (H2 : (inject_Z m <= 2 ^ 53)%Q).
    { rewrite <- (two_power_Z (k := 53)) by lia. rewrite <- Zle_Qle.
      apply Hm. }
    assert (H3 : (0 <= inject_Z m)%Q).
    { change 0%Q with (inject_Z 0). rewrite <- Zle_Qle. apply Hm. }
    assert (H4 : (2 ^ 53 < 2 ^ 1024)%Q)
      by (apply Qpower_lt_compat_l; [lia | reflexivity]).
    pose proof (two_power_pos e) as H5.
    change (2 ^ 0)%Q with 1%Q in H1.
    set (s := (2 ^ e)%Q) in *. set (M := inject_Z m) in *.
    set (u := (2 ^ 53)%Q) in *. set (w := (2 ^ 1024)%Q) in *.
    clearbody s M u w. nra.
Qed.

End Nearest.

Lemma double_proper :
  forall p q, (p == q)%Q -> double p = double q.
Proof.
  intros p q H. unfold double. rewrite (Qred_complete p q H). reflexivity.
Qed.


(** A finite result is a double. *)
Theorem double_shape :
  forall q r,
    double q = JFin r ->
    exists m e,
      (r == inject_Z m * 2 ^ e)%Q
      /\ Z.abs m <= 2 ^ 53 /\ -1074 <= e /\ (Qabs r < 2 ^ 1024)%Q.
Proof.
  intros q r. unfold double.
  destruct (Qred q) as [nn dd]. cbn [Qnum Qden].
  destruct nn as [|n|n].
  - intros H; injection H as <-. exists 0, 0.
    refine (conj _ (conj _ (conj _ _))); try reflexivity; lia.
  - destruct (nearest _ _) as [v|] eqn:E; [|discriminate].
    intros H; injection H as <-.
    apply nearest_shape in E; try reflexivity.
    destruct E as (m & e & E1 & E2 & E3 & E4).
    exists m, e. refine (conj E1 (conj _ (conj E3 _))); [lia|].
    rewrite Qabs_pos; [exact E4|].
    rewrite E1. apply Qmult_le_0_compat; [|apply Qlt_le_weak, two_power_pos].
    change 0%Q with (inject_Z 0). rewrite <- Zle_Qle. lia.
  - destruct (nearest _ _) as [v|] eqn:E; [|discriminate].
    intros H; injection H as <-.
    apply nearest_shape in E; try reflexivity.
    destruct E as (m & e & E1 & E2 & E3 & E4).
    exists (- m), e. rewrite Qabs_opp.
    refine (conj _ (conj _ (conj E3 _))); [|lia|].
    + rewrite E1, inject_Z_opp. ring.
    + rewrite Qabs_pos; [exact E4|].
      rewrite E1.
      apply Qmult_le_0_compat; [|apply Qlt_le_weak, two_power_pos].
      change 0%Q with (inject_Z 0). rewrite <- Zle_Qle. lia.
Qed.

(** An infinity stands only for a number of [2 ^ 1024 - 2 ^ 970] and
    more, and for every number from [2 ^ 1024] on. *)
Theorem double_infinite :
  forall q neg,
    double q = JInf neg ->
    (2 ^ 1024 - 2 ^ 970 <= Qabs q)%Q /\ neg = negb (Qle_bool 0 q).
Proof.
  intros q neg. unfold double.
  pose proof (Qred_correct q) as Hq.
  destruct (Qred q) as [nn dd]. cbn [Qnum Qden].
  destruct nn as [|n|n]; [discriminate| |].
  - destruct (nearest _ _) as [v|] eqn:E; [discriminate|].
    intros H; injection H as <-.
    apply nearest_none in E; try reflexivity. unfold ratio in E.
    rewrite <- Qmake_Qdiv in E.
    assert (Hp : (0 <= q)%Q) by (rewrite <- Hq; discriminate).
    split.
    + rewrite Qabs_pos by exact Hp. rewrite <- Hq. exact E.
    + apply Qle_bool_iff in Hp. rewrite Hp. reflexivity.
  - destruct (nearest _ _) as [v|] eqn:E; [discriminate|].
    intros H; injection H as <-.
    apply nearest_none in E; try reflexivity. unfold ratio in E.
    rewrite <- Qmake_Qdiv in E.
    assert (Hp : (q < 0)%Q) by (rewrite <- Hq; reflexivity).
    split.
    + rewrite Qabs_neg by (apply Qlt_le_weak, Hp). rewrite <- Hq. exact E.
    + destruct (Qle_bool 0 q) eqn:B; [|reflexivity].
      apply Qle_bool_iff in B. exfalso. apply (Qlt_irrefl 0).
      eapply Qle_lt_trans; [exact B | exact Hp].
Qed.

Theorem double_overflow :
  forall q, (2 ^ 1024 <= Qabs q)%Q -> exists neg, double q = JInf neg.
Proof.
  intros q H. unfold double.
  pose proof (Qred_correct q) as Hq.
  destruct (Qred q) as [nn dd]. cbn [Qnum Qden].
  rewrite <- Hq in H.
  destruct nn as [|n|n].
  - exfalso. revert H. apply Qlt_not_le.
    eapply Qle_lt_trans; [|apply two_power_pos]. unfold Qle. cbn. lia.
  - rewrite (@nearest_overflow (Z.pos n) (Z.pos dd)); try reflexivity;
      [exists false; reflexivity|].
    unfold ratio. rewrite <- Qmake_Qdiv. rewrite Qabs_pos in H by discriminate. exact H.
  - rewrite (@nearest_overflow (Z.pos n) (Z.pos dd)); try reflexivity;
      [exists true; reflexivity|].
    unfold ratio. rewrite <- Qmake_Qdiv.
    setoid_replace (Z.neg n # dd)%Q with (- (Z.pos n # dd))%Q in H
      by reflexivity.
    rewrite Qabs_opp, Qabs_pos in H by discriminate. exact H.
Qed.

Section Exact.

Variables n d : Z.
Hypothesis n_pos : 0 < n.
Hypothesis d_pos : 0 < d.

(** A number that is a double is the double nearest to it. *)
Lemma nearest_exact :
  forall m e,
    0 < m < 2 ^ 53 -> -1074 <= e ->
    (ratio n d == inject_Z m * 2 ^ e)%Q ->
    (ratio n d < 2 ^ 1024)%Q ->
    nearest n d = Some (dyadic m e).
Proof.
  intros m e Hm He Hx Hlt. unfold nearest.
  destruct (last_bit_spec n_pos d_pos) as (He' & _ & Hn).
  set (e' := last_bit n d) in *.
  assert (HM : (inject_Z m < 2 ^ 53)%Q).
  { rewrite <- (two_power_Z (k := 53)) by lia. rewrite <- Zlt_Qlt. apply Hm. }
  assert (Hle : e' <= e).
  { destruct (Z.eq_dec e' (-1074)) as [->|Hne]; [exact He|].
    specialize (Hn ltac:(lia)). rewrite Hx in Hn.
    assert (H : (2 ^ (e' + 52) < 2 ^ (53 + e))%Q).
    { eapply Qle_lt_trans; [exact Hn|]. rewrite two_power_plus.
      apply Qmult_lt_compat_r; [apply two_power_pos | exact HM]. }
    apply Qpower_lt_compat_l_inv in H; [lia | reflexivity]. }
  pose proof (ratio_scaled n_pos d_pos e') as Hr.
  destruct (scale_pos e' n_pos d_pos) as [Ha Hb].
  destruct (scale n d e') as [a b]. cbn [fst snd] in Hr, Ha, Hb.
  set (K := m * 2 ^ (e - e')).
  assert (HK : (inject_Z K * 2 ^ e' == inject_Z m * 2 ^ e)%Q).
  { unfold K. rewrite inject_Z_mult, two_power_Z by lia.
    rewrite <- Qmult_assoc, <- two_power_plus.
    replace (e - e' + e') with e by lia. reflexivity. }
  assert (Hab : a = K * b).
  { apply inject_Z_injective. rewrite inject_Z_mult.
    apply (Qmult_inj_r _ _ (2 ^ e')%Q).
    { apply Qpower_not_0. discriminate. }
    rewrite <- Hr, Hx, <- HK. ring. }
  rewrite Hab, (round_half_even_exact K Hb).
  replace ((0 <=? e') && (2 ^ 1024 <=? K * 2 ^ e')) with false.
  - f_equal. unfold dyadic. apply Qred_complete. exact HK.
  - symmetry. apply andb_false_iff.
    destruct (Z_le_gt_dec 0 e') as [H0|H0];
      [right | left; apply Z.leb_gt; lia].
    apply Z.leb_gt. rewrite Zlt_Qlt, inject_Z_mult, !two_power_Z by lia.
    rewrite HK, <- Hx. exact Hlt.
Qed.

End Exact.

Lemma Qred_zero : forall q, (q == 0)%Q -> Qred q = 0%Q.
Proof. intros q H. rewrite (Qred_complete q 0 H). reflexivity. Qed.

Lemma double_exact_pos :
  forall m e,
    0 < m < 2 ^ 53 -> -1074 <= e ->
    (inject_Z m * 2 ^ e < 2 ^ 1024)%Q ->
    forall q, (q == inject_Z m * 2 ^ e)%Q ->
      double q = JFin (Qred q) /\ double (- q) = JFin (Qred (- q)).
Proof.
  intros m e Hm He Hlt q Hq.
  assert (Hpos : (0 < q)%Q).
  { rewrite Hq. apply Qmult_lt_0_compat; [|apply two_power_pos].
    change 0%Q with (inject_Z 0). rewrite <- Zlt_Qlt. lia. }
  assert (Hn : exists n dd, Qred q = (Z.pos n # dd)%Q).
  { pose proof (Qred_correct q) as E. destruct (Qred q) as [[|n|n] dd].
    - exfalso. rewrite <- E in Hpos. discriminate.
    - exists n, dd. reflexivity.
    - exfalso. rewrite <- E in Hpos. discriminate. }
  destruct Hn as (n & dd & En).
  assert (Hx : (ratio (Z.pos n) (Z.pos dd) == inject_Z m * 2 ^ e)%Q).
  { unfold ratio. rewrite <- Qmake_Qdiv, <- En, Qred_correct. exact Hq. }
  assert (E : nearest (Z.pos n) (Z.pos dd) = Some (Qred q)).
  { rewrite (@nearest_exact (Z.pos n) (Z.pos dd) eq_refl eq_refl m e
               Hm He Hx).
    - f_equal. unfold dyadic. apply Qred_complete. symmetry. exact Hq.
    - rewrite Hx. exact Hlt. }
  split.
  - unfold double. rewrite En. cbn [Qnum Qden]. rewrite E, En. reflexivity.
  - unfold double. rewrite Qred_opp, En. cbn [Qopp Qnum Qden Z.opp].
    rewrite E, En. reflexivity.
Qed.

(** Every double is its own double: the rounding changes a number only
    when it has to. *)
Theorem double_exact :
  forall (m e : Z) (q : Q),
    Z.abs m <= 2 ^ 53 -> -1074 <= e ->
    (q == inject_Z m * 2 ^ e)%Q -> (Qabs q < 2 ^ 1024)%Q ->
    double q = JFin (Qred q).
Proof.
  assert (P : forall m e q,
             0 < m <= 2 ^ 53 -> -1074 <= e ->
             (q == inject_Z m * 2 ^ e)%Q -> (q < 2 ^ 1024)%Q ->
             double q = JFin (Qred q)
             /\ double (- q) = JFin (Qred (- q))).
  { intros m e q Hm He Hq Hlt.
    destruct (Z.eq_dec m (2 ^ 53)) as [->|Hne].
    - apply (@double_exact_pos (2 ^ 52) (e + 1)); try lia.
      + rewrite two_power_plus.
        setoid_replace (inject_Z (2 ^ 52) * (2 ^ e * 2 ^ 1))%Q
          with (inject_Z (2 ^ 53) * 2 ^ e)%Q
          by (rewrite !two_power_Z by lia; rewrite <- !two_power_plus;
              replace (52 + (e + 1)) with (53 + e) by lia; reflexivity).
        rewrite <- Hq. exact Hlt.
      + rewrite Hq, two_power_plus, !two_power_Z by lia.
        rewrite <- !two_power_plus.
        replace (52 + (e + 1)) with (53 + e) by lia. reflexivity.
    - apply (@double_exact_pos m e); try lia; [|exact Hq].
      rewrite <- Hq. exact Hlt. }
  intros m e q Hm He Hq Hlt.
  destruct (Z_dec m 0) as [[Hn|Hp]|Hz0].
  3: subst m.
  - assert (H : (- q == inject_Z (- m) * 2 ^ e)%Q)
      by (rewrite Hq, inject_Z_opp; ring).
    destruct (P (- m) e (- q)%Q ltac:(lia) He H) as [_ H2].
    + rewrite <- Qabs_opp in Hlt. eapply Qle_lt_trans; [apply Qle_Qabs|].
      exact Hlt.
    + rewrite (double_proper (p := q) (q := (- - q)%Q))
        by (symmetry; apply Qopp_involutive).
      rewrite H2. f_equal. apply Qred_complete, Qopp_involutive.
  - apply (P m e q); try lia; try assumption.
    eapply Qle_lt_trans; [apply Qle_Qabs | exact Hlt].
  - assert (Hz : (q == 0)%Q) by (rewrite Hq; ring).
    rewrite (double_proper Hz), (Qred_zero Hz). reflexivity.
Qed.

(** Rounding twice is rounding once. *)
Corollary double_idempotent :
  forall q r, double q = JFin r -> double r = JFin r.
Proof.
  intros q r H.
  destruct (@double_shape q r H) as (m & e & E1 & E2 & E3 & E4).
  rewrite (@double_exact m e r E2 E3 E1 E4). f_equal.
  revert H. unfold double. destruct (Qnum (Qred q)).
  - intros H; injection H as <-. reflexivity.
  - destruct (nearest _ _) as [v|] eqn:E; [|discriminate].
    intros H; injection H as <-. unfold nearest in E.
    destruct (scale _ _ _). destruct (_ && _); [discriminate|].
    injection E as <-. unfold dyadic. apply Qred_complete, Qred_correct.
  - destruct (nearest _ _) as [v|] eqn:E; [|discriminate].
    intros H; injection H as <-. unfold nearest in E.
    destruct (scale _ _ _). destruct (_ && _); [discriminate|].
    injection E as <-. unfold dyadic. rewrite Qred_opp. f_equal.
    apply Qred_complete, Qred_correct.
Qed.

(** The rounding at its edges: a half goes to the even neighbour, the
    smallest double is [2 ^ -1074] and the largest is
    [2 ^ 1024 - 2 ^ 971]. *)
Lemma double_at_the_edges :
  double (inject_Z (2 ^ 53 + 1)) = JFin (inject_Z (2 ^ 53))
  /\ double (inject_Z (2 ^ 53 + 3)) = JFin (inject_Z (2 ^ 53 + 4))
  /\ double (2 ^ (-1075))%Q = JFin 0
  /\ double (3 * 2 ^ (-1075))%Q = JFin (Qred (2 ^ (-1073))%Q)
  /\ double (2 ^ (-1074))%Q = JFin (Qred (2 ^ (-1074))%Q)
  /\ double (inject_Z (2 ^ 1024 - 2 ^ 970)) = JInf false
  /\ double (inject_Z (2 ^ 1024 - 2 ^ 970 - 1))
     = JFin (inject_Z (2 ^ 1024 - 2 ^ 971))
  /\ double (- inject_Z (2 ^ 1024))%Q = JInf true.
Proof. repeat split; vm_compute; reflexivity. Qed.



End JsNumFacts.

(* ================================================================== *)
(** ** Facts about the extraction engine *)
(* ================================================================== *)

Module ReceiptFacts.
Import JsString Regex JsNum Receipt Samples JsNumFacts.
Local Open Scope string_scope.
Local Open Scope list_scope.

(** Case analysis on every test that a goal still shows. *)
Ltac split_tests :=
  repeat match goal with
         | |- context [if ?b then _ else _] => destruct b
         | |- context [match ?x with _ => _ end] => destruct x
         end.

(** Reduction of the projections and of the updates of a result. *)
Ltac fields :=
  cbn [metadata store items totals payment cashier_info fiscal_info loyalty
       raw_markdown confidence_score processing_time processing_info draws
       with_fields with_totals with_metadata with_items
       flow_continues flow_locals flow_result fst snd].

Tactic Notation "fields" "in" hyp(H) :=
  cbn [metadata store items totals payment cashier_info fiscal_info loyalty
       raw_markdown confidence_score processing_time processing_info draws
       with_fields with_totals with_metadata with_items
       flow_continues flow_locals flow_result fst snd] in H.

Ltac split_fields :=
  repeat (fields;
          match goal with
          | |- context [if ?b then _ else _] => destruct b
          | |- context [match ?x with _ => _ end] => destruct x
          end).

(** *** The unit price of every item is derived *)

Section UnitPrice.

Variable random36 : nat -> jsstring.
Variable numToString : jsnum -> jsstring.
Variable now : jsstring.


















Lemma finish_result : forall x, snd (finish x) = flow_result x.
Proof. intros [v r|v r]; reflexivity. Qed.










End UnitPrice.

(** *** Two runs differ at most in the item codes and the time stamp *)

Section TwoRuns.

Variable rnd1 rnd2 : nat -> jsstring.
Variable numToString : jsnum -> jsstring.
Variable now1 now2 : jsstring.

Lemma same_up_to_run_inv :
  forall r1 r2,
    same_up_to_run r1 r2 ->
    metadata r1 = metadata r2 /\ store r1 = store r2
    /\ totals r1 = totals r2 /\ payment r1 = payment r2
    /\ cashier_info r1 = cashier_info r2 /\ fiscal_info r1 = fiscal_info r2
    /\ loyalty r1 = loyalty r2 /\ raw_markdown r1 = raw_markdown r2
    /\ draws r1 = draws r2
    /\ map erase_item (items r1) = map erase_item (items r2).
Proof.
  intros r1 r2 H. unfold same_up_to_run, erase in H.
  injection H as H1 H2 H3 H4 H5 H6 H7 H8 H9 _ _ _ H10. tauto.
Qed.

Lemma same_info :
  forall r1 r2, same_up_to_run r1 r2 -> info_of r1 = info_of r2.
Proof.
  intros r1 r2 H. unfold same_up_to_run in H. unfold info_of.
  pose proof (f_equal confidence_score H) as E1.
  pose proof (f_equal processing_time H) as E2.
  pose proof (f_equal processing_info H) as E3.
  cbn in E1, E2, E3. congruence.
Qed.

Lemma same_up_to_run_intro :
  forall r1 r2,
    metadata r1 = metadata r2 -> store r1 = store r2 ->
    totals r1 = totals r2 -> payment r1 = payment r2 ->
    cashier_info r1 = cashier_info r2 -> fiscal_info r1 = fiscal_info r2 ->
    loyalty r1 = loyalty r2 -> raw_markdown r1 = raw_markdown r2 ->
    draws r1 = draws r2 ->
    map erase_item (items r1) = map erase_item (items r2) ->
    info_of r1 = info_of r2 ->
    same_up_to_run r1 r2.
Proof.
  intros r1 r2 H1 H2 H3 H4 H5 H6 H7 H8 H9 H10 H11.
  unfold same_up_to_run, erase. unfold info_of in H11.
  assert (E1 : confidence_score r1 = confidence_score r2) by congruence.
  assert (E2 : processing_time r1 = processing_time r2) by congruence.
  assert (E3 : erase_stamp (processing_info r1)
               = erase_stamp (processing_info r2)) by congruence.
  rewrite H1, H2, H3, H4, H5, H6, H7, H8, H9, H10, E1, E2, E3. reflexivity.
Qed.

Lemma same_length :
  forall r1 r2,
    same_up_to_run r1 r2 ->
    List.length (items r1) = List.length (items r2).
Proof.
  intros r1 r2 H. apply same_up_to_run_inv in H.
  destruct H as (_ & _ & _ & _ & _ & _ & _ & _ & _ & H).
  rewrite <- (length_map erase_item (items r1)), H. apply length_map.
Qed.

Lemma with_items_same :
  forall r1 r2 a1 a2 n,
    same_up_to_run r1 r2 ->
    map erase_item a1 = map erase_item a2 ->
    same_up_to_run (with_items (fun l => l ++ a1) n r1)
                   (with_items (fun l => l ++ a2) n r2).
Proof.
  intros r1 r2 a1 a2 n H Ha. pose proof (same_info H) as Hi.
  apply same_up_to_run_inv in H.
  destruct H as (H1 & H2 & H3 & H4 & H5 & H6 & H7 & H8 & H9 & H10).
  apply same_up_to_run_intro; try exact Hi; cbn; try assumption;
    try reflexivity.
  rewrite !map_app, H10, Ha. reflexivity.
Qed.

Lemma push_same :
  forall it1 it2 r1 r2,
    same_up_to_run r1 r2 -> erase_item it1 = erase_item it2 ->
    same_up_to_run (push it1 r1) (push it2 r2).
Proof.
  intros it1 it2 r1 r2 H Hit. unfold push.
  assert (Hd : draws r1 = draws r2) by (apply same_up_to_run_inv in H; tauto).
  rewrite Hd. apply with_items_same; [exact H | cbn; rewrite Hit; reflexivity].
Qed.

Lemma push_opt_same :
  forall o1 o2 r1 r2,
    same_up_to_run r1 r2 -> same_item_but_code o1 o2 ->
    same_up_to_run (push_opt o1 r1) (push_opt o2 r2).
Proof.
  intros [it1|] [it2|] r1 r2 H Ho; unfold same_item_but_code in Ho;
    cbn in *; try discriminate; [|exact H].
  apply push_same; [exact H | congruence].
Qed.

Lemma mkItem_same :
  forall n productName q price text,
    erase_item (mkItem rnd1 n productName q price text)
    = erase_item (mkItem rnd2 n productName q price text).
Proof. reflexivity. Qed.

Lemma extractItem_same :
  forall n line,
    same_item_but_code (extractItem rnd1 n line) (extractItem rnd2 n line).
Proof.
  intros n line. unfold extractItem, same_item_but_code.
  destruct (isHeaderOrTotal line); [reflexivity|].
  induction itemPatterns as [|r pats IH]; cbn [extractItem_from];
    [reflexivity|].
  destruct (exec icase r line) as [m|]; [|exact IH].
  destruct (parsePrice _) as [p|]; [|exact IH].
  destruct (nonempty _ && truthy p && gt0 p); [reflexivity | exact IH].
Qed.

Lemma fallbackItem_same :
  forall pats n line,
    same_item_but_code (fallbackItem_from rnd1 pats n line)
                       (fallbackItem_from rnd2 pats n line).
Proof.
  unfold same_item_but_code.
  induction pats as [|r pats IH]; intros n line; cbn [fallbackItem_from];
    [reflexivity|].
  destruct (exec icase r line) as [m|]; [|apply IH].
  destruct (isNotAProduct _); [apply IH | reflexivity].
Qed.

Lemma parseEDEKATableRow_same :
  forall n line,
    same_item_but_code (parseEDEKATableRow rnd1 n line)
                       (parseEDEKATableRow rnd2 n line).
Proof.
  intros n line. unfold parseEDEKATableRow, same_item_but_code.
  split_tests; reflexivity.
Qed.

Lemma parseTableRow_same :
  forall n columns,
    same_item_but_code (parseTableRow rnd1 n columns)
                       (parseTableRow rnd2 n columns).
Proof.
  intros n columns. unfold parseTableRow, same_item_but_code.
  destruct (nth_error columns 0); [|reflexivity].
  split_tests; reflexivity.
Qed.

Lemma parseListItem_same :
  forall n line,
    same_item_but_code (parseListItem rnd1 n line) (parseListItem rnd2 n line).
Proof.
  intros n line. unfold parseListItem, same_item_but_code.
  induction listPatterns as [|r pats IH]; cbn [parseListItem_from];
    [reflexivity|].
  match goal with |- context [exec ?f ?a ?b] => destruct (exec f a b) end;
    [reflexivity | exact IH].
Qed.

Lemma parseNewListItem_same :
  forall n line following,
    same_item_but_code (parseNewListItem rnd1 n line following)
                       (parseNewListItem rnd2 n line following).
Proof.
  intros n line following. unfold parseNewListItem, same_item_but_code.
  destruct (exec plain re_product_bullet line); [|reflexivity].
  destruct (scanNewListItem _ _ _). reflexivity.
Qed.

Lemma same_draws :
  forall r1 r2, same_up_to_run r1 r2 -> draws r1 = draws r2.
Proof. intros r1 r2 H. apply same_up_to_run_inv in H. tauto. Qed.

Lemma productsSection_same :
  forall line following v r1 r2,
    same_up_to_run r1 r2 ->
    same_flow (productsSection rnd1 numToString line following v r1)
              (productsSection rnd2 numToString line following v r2).
Proof.
  intros line following v r1 r2 H. unfold productsSection.
  rewrite (same_draws H).
  split_tests; repeat split; fields; try exact H;
    apply push_same; auto using mkItem_same.
Qed.

Lemma pipeTable_same :
  forall line v r1 r2,
    same_up_to_run r1 r2 ->
    same_flow (pipeTable rnd1 line v r1) (pipeTable rnd2 line v r2).
Proof.
  intros line v r1 r2 H. unfold pipeTable. rewrite (same_draws H).
  split_tests; repeat split; fields; try exact H;
    apply push_same; auto using mkItem_same.
Qed.

Lemma edekaTable_same :
  forall line v r1 r2,
    same_up_to_run r1 r2 ->
    same_flow (edekaTable rnd1 line v r1) (edekaTable rnd2 line v r2).
Proof.
  intros line v r1 r2 H. unfold edekaTable. rewrite (same_draws H).
  split_tests; repeat split; fields; try exact H.
  apply push_opt_same; [exact H | apply parseEDEKATableRow_same].
Qed.

Lemma standardTable_same :
  forall line v r1 r2,
    same_up_to_run r1 r2 ->
    same_flow (standardTable rnd1 line v r1) (standardTable rnd2 line v r2).
Proof.
  intros line v r1 r2 H. unfold standardTable. rewrite (same_draws H).
  split_tests; repeat split; fields; try exact H.
  apply push_opt_same; [exact H | apply parseTableRow_same].
Qed.

Lemma itemsSection_same :
  forall line v r1 r2,
    same_up_to_run r1 r2 ->
    same_flow (itemsSection rnd1 line v r1) (itemsSection rnd2 line v r2).
Proof.
  intros line v r1 r2 H. unfold itemsSection. rewrite (same_draws H).
  split_tests; repeat split; fields; try exact H.
  apply push_opt_same; [exact H | apply parseListItem_same].
Qed.

Lemma itemsPurchased_same :
  forall line following v r1 r2,
    same_up_to_run r1 r2 ->
    same_flow (itemsPurchased rnd1 line following v r1)
              (itemsPurchased rnd2 line following v r2).
Proof.
  intros line following v r1 r2 H. unfold itemsPurchased.
  rewrite (same_draws H).
  split_tests; repeat split; fields; try exact H.
  apply push_opt_same; [exact H | apply parseNewListItem_same].
Qed.

Lemma andThen_same :
  forall x1 x2 k1 k2,
    same_flow x1 x2 ->
    (forall v r1 r2, same_up_to_run r1 r2 -> same_flow (k1 v r1) (k2 v r2)) ->
    same_flow (andThen x1 k1) (andThen x2 k2).
Proof.
  intros [v1 r1|v1 r1] [v2 r2|v2 r2] k1 k2 (Hc & Hv & Hr) Hk;
    cbn in Hc, Hv, Hr; try discriminate; subst v2; cbn [andThen].
  - repeat split. exact Hr.
  - apply Hk, Hr.
Qed.

Lemma structuredLine_same :
  forall raw following v r1 r2,
    same_up_to_run r1 r2 ->
    fst (structuredLine rnd1 numToString raw following v r1)
    = fst (structuredLine rnd2 numToString raw following v r2)
    /\ same_up_to_run (snd (structuredLine rnd1 numToString raw following v r1))
                      (snd (structuredLine rnd2 numToString raw following v r2)).
Proof.
  intros raw following v r1 r2 H. unfold structuredLine.
  destruct (_ || _); [split; [reflexivity | exact H]|].
  match goal with
  | |- fst (finish ?x) = fst (finish ?y) /\ _ =>
      assert (Hxy : same_flow x y)
  end.
  { apply andThen_same; [apply productsSection_same, H|]. intros v1 a1 b1 H1.
    apply andThen_same; [apply pipeTable_same, H1|]. intros v2 a2 b2 H2.
    apply andThen_same; [apply edekaTable_same, H2|]. intros v3 a3 b3 H3.
    apply andThen_same; [apply standardTable_same, H3|]. intros v4 a4 b4 H4.
    apply andThen_same; [apply itemsSection_same, H4|]. intros v5 a5 b5 H5.
    apply itemsPurchased_same, H5. }
  destruct Hxy as (_ & Hv & Hr).
  match goal with
  | |- fst (finish ?x) = fst (finish ?y) /\ _ => destruct x, y
  end; cbn in *; split; assumption.
Qed.

Lemma structuredLoop_same :
  forall lines v r1 r2,
    same_up_to_run r1 r2 ->
    same_up_to_run (structuredLoop rnd1 numToString lines v r1)
                   (structuredLoop rnd2 numToString lines v r2).
Proof.
  induction lines as [|raw following IH]; intros v r1 r2 H;
    cbn [structuredLoop]; [exact H|].
  destruct (structuredLine_same raw following v H) as [Hv Hr].
  destruct (structuredLine rnd1 numToString raw following v r1) as [v1 a1].
  destruct (structuredLine rnd2 numToString raw following v r2) as [v2 a2].
  cbn in Hv, Hr. subst v2. apply IH, Hr.
Qed.

Lemma with_fields_same :
  forall m s t p c f l r1 r2,
    same_up_to_run r1 r2 ->
    same_up_to_run (with_fields m s t p c f l r1) (with_fields m s t p c f l r2).
Proof.
  intros m s t p c f l r1 r2 H. pose proof (same_info H) as Hi.
  apply same_up_to_run_inv in H.
  apply same_up_to_run_intro; try exact Hi; fields; tauto.
Qed.

Lemma lineData_same :
  forall line r1 r2,
    same_up_to_run r1 r2 ->
    same_up_to_run (lineData rnd1 line r1) (lineData rnd2 line r2).
Proof.
  intros line r1 r2 H. unfold lineData.
  destruct (nonempty (trim line)); [|exact H]. fields.
  rewrite (same_length H).
  destruct (same_up_to_run_inv H)
    as (Hm & Hs & Ht & Hp & Hc & Hf & Hl & _ & Hd & _).
  rewrite Hm, Hs, Ht, Hp, Hc, Hf, Hl.
  destruct (Nat.eqb _ 0).
  - apply push_opt_same; [apply with_fields_same, H|].
    rewrite Hd. apply extractItem_same.
  - apply with_fields_same, H.
Qed.

Lemma extractLineData_same :
  forall lines r1 r2,
    same_up_to_run r1 r2 ->
    same_up_to_run (extractLineData rnd1 lines r1)
                   (extractLineData rnd2 lines r2).
Proof.
  unfold extractLineData.
  induction lines as [|line lines IH]; intros r1 r2 H; cbn [fold_left];
    [exact H|].
  apply IH, lineData_same, H.
Qed.

Lemma extractPatternData_same :
  forall markdown r1 r2,
    same_up_to_run r1 r2 ->
    same_up_to_run (extractPatternData markdown r1)
                   (extractPatternData markdown r2).
Proof.
  intros markdown [m1 s1 i1 t1 p1 c1 f1 l1 w1 cs1 pt1 pi1 d1]
         [m2 s2 i2 t2 p2 c2 f2 l2 w2 cs2 pt2 pi2 d2] H.
  pose proof (same_info H) as Hinfo.
  apply same_up_to_run_inv in H. fields in H.
  destruct H as (-> & -> & -> & -> & -> & -> & -> & -> & -> & Hi).
  unfold extractPatternData. fields.
  destruct (num_set (total_amount t2));
    [|destruct (firstTotal documentTotalPatterns markdown)]; fields;
    (destruct (str_set (date m2));
     [|destruct (extractDate_from datePatterns markdown)]);
    apply same_up_to_run_intro; try exact Hinfo; fields; auto.
Qed.

Lemma potentialItems_same :
  forall lines n,
    map erase_item (fst (potentialItems rnd1 lines n))
    = map erase_item (fst (potentialItems rnd2 lines n))
    /\ snd (potentialItems rnd1 lines n) = snd (potentialItems rnd2 lines n).
Proof.
  induction lines as [|line lines IH]; intros n; cbn [potentialItems];
    [split; reflexivity|].
  destruct (_ || _); [apply IH|].
  pose proof (fallbackItem_same fallbackPatterns n (trim line)) as Hf.
  unfold same_item_but_code in Hf.
  destruct (fallbackItem_from rnd1 _ _ _) as [it1|],
           (fallbackItem_from rnd2 _ _ _) as [it2|];
    cbn in Hf; try discriminate; [|apply IH].
  specialize (IH (S n)).
  destruct (potentialItems rnd1 lines (S n)) as [l1 n1].
  destruct (potentialItems rnd2 lines (S n)) as [l2 n2].
  cbn in *. destruct IH as [IH1 IH2]. split; [congruence | exact IH2].
Qed.

Lemma uniqueItems_erase :
  forall l seen,
    map erase_item (uniqueItems seen l) = uniqueItems seen (map erase_item l).
Proof.
  induction l as [|it l IH]; intros seen; cbn [uniqueItems map];
    [reflexivity|].
  cbn [erase_item product_name].
  destruct (existsb _ seen); [apply IH|].
  cbn [map]. rewrite IH. reflexivity.
Qed.

Lemma extractItemsFallback_same :
  forall markdown r1 r2,
    same_up_to_run r1 r2 ->
    same_up_to_run (extractItemsFallback rnd1 markdown r1)
                   (extractItemsFallback rnd2 markdown r2).
Proof.
  intros markdown r1 r2 H. unfold extractItemsFallback.
  rewrite (same_draws H).
  destruct (potentialItems_same (split_on LF markdown) (draws r2)) as [Hl Hn].
  destruct (potentialItems rnd1 _ _) as [l1 n1].
  destruct (potentialItems rnd2 _ _) as [l2 n2].
  cbn in Hl, Hn. subst n2.
  apply with_items_same; [exact H|].
  rewrite !uniqueItems_erase, Hl. reflexivity.
Qed.

Lemma parseMarkdown_same :
  forall markdown : jsstring,
    same_up_to_run (parseMarkdown rnd1 numToString now1 markdown)
                   (parseMarkdown rnd2 numToString now2 markdown).
Proof.
  intros markdown. unfold parseMarkdown.
  assert (H : same_up_to_run
                (extractPatternData markdown
                   (extractLineData rnd1 (split_on LF markdown)
                      (extractStructuredData rnd1 numToString
                         (split_on LF markdown) (initial now1 markdown))))
                (extractPatternData markdown
                   (extractLineData rnd2 (split_on LF markdown)
                      (extractStructuredData rnd2 numToString
                         (split_on LF markdown) (initial now2 markdown))))).
  { apply extractPatternData_same, extractLineData_same.
    unfold extractStructuredData. apply structuredLoop_same.
    unfold same_up_to_run.
    cbv [erase initial erase_stamp metadata store items totals payment
         cashier_info fiscal_info loyalty raw_markdown confidence_score
         processing_time processing_info draws version ocr_model
         parser_version map].
    reflexivity. }
  cbv zeta. rewrite (same_length H).
  destruct (Nat.eqb _ 0); [apply extractItemsFallback_same|]; exact H.
Qed.

(** C8, as amended.  Two runs of [parseMarkdown] on the same text,
    whatever [Math.random] gives and whatever the clock shows in each,
    return objects that are the same in every field of the receipt, of the
    OCR data and of the information on the processing, except for the
    codes of the items and for the time stamp: the scalar fields, the
    text, the version strings and the number of items are the same, and
    the items at the same place agree in every field but the code. *)
Theorem two_runs_differ_only_in_codes_and_time_stamp :
  forall markdown : jsstring,
    let r1 := parseMarkdown rnd1 numToString now1 markdown in
    let r2 := parseMarkdown rnd2 numToString now2 markdown in
    erase r1 = erase r2
    /\ scalars_of r1 = scalars_of r2
    /\ raw_markdown r1 = raw_markdown r2
    /\ confidence_score r1 = confidence_score r2
    /\ processing_time r1 = processing_time r2
    /\ version (processing_info r1) = version (processing_info r2)
    /\ ocr_model (processing_info r1) = ocr_model (processing_info r2)
    /\ parser_version (processing_info r1)
       = parser_version (processing_info r2)
    /\ List.length (items r1) = List.length (items r2)
    /\ (forall k it1 it2,
          nth_error (items r1) k = Some it1 ->
          nth_error (items r2) k = Some it2 ->
          product_name it1 = product_name it2
          /\ quantity it1 = quantity it2
          /\ unit_price it1 = unit_price it2
          /\ total_price it1 = total_price it2
          /\ category it1 = category it2
          /\ brand it1 = brand it2
          /\ line_text it1 = line_text it2
          /\ matched it1 = matched it2).
Proof.
  intros markdown r1 r2.
  pose proof (parseMarkdown_same markdown) as H. fold r1 r2 in H.
  pose proof (same_info H) as Hi. pose proof (same_length H) as Hl.
  destruct (same_up_to_run_inv H)
    as (H1 & H2 & H3 & H4 & H5 & H6 & H7 & H8 & _ & H10).
  unfold info_of in Hi.
  assert (E1 : confidence_score r1 = confidence_score r2) by congruence.
  assert (E2 : processing_time r1 = processing_time r2) by congruence.
  assert (E3 : erase_stamp (processing_info r1)
               = erase_stamp (processing_info r2)) by congruence.
  split; [exact H|]. split; [unfold scalars_of; congruence|].
  split; [exact H8|]. split; [exact E1|]. split; [exact E2|].
  split; [exact (f_equal version E3)|].
  split; [exact (f_equal ocr_model E3)|].
  split; [exact (f_equal parser_version E3)|].
  split; [exact Hl|].
  intros k it1 it2 K1 K2.
  assert (E : erase_item it1 = erase_item it2).
  { apply (map_nth_error erase_item) in K1.
    apply (map_nth_error erase_item) in K2.
    rewrite H10 in K1. congruence. }
  refine (conj (f_equal product_name E) (conj (f_equal quantity E)
           (conj (f_equal unit_price E) (conj (f_equal total_price E)
             (conj (f_equal category E) (conj (f_equal brand E)
               (conj (f_equal line_text E) (f_equal matched E)))))))).
Qed.

End TwoRuns.

(** *** parsePrice *)

Section ParsePrice.

Lemma first_at_class :
  forall neg items p c s,
    first_at plain (Cls neg items) p (c :: s)
    = if xorb neg (existsb (item_matches plain c) items)
      then Some {| rest := s; prev := Some c; caps := [] |}
      else None.
Proof.
  intros neg items p c s. unfold first_at. cbn [matches step_char rest].
  destruct (xorb neg _); reflexivity.
Qed.











End ParsePrice.



(** *** The engine on the sample inputs *)

Section OnSamples.

Variable random36 : nat -> jsstring.
Variable numToString : jsnum -> jsstring.
Variable now : jsstring.

(** C3, at its input.  The text that holds the one line "G&G Gouda 1,99 €
    x 2 3,98 €" gives one item named "G&G Gouda", but with quantity 1,
    unit price 1.99 and total price 1.99: the third pattern of extractItem
    stops at the first amount before a euro sign, and nothing reads the
    "x 2" and the line total that follow it. *)
Theorem gouda_line_read_as_one_piece :
  map (fun it => (product_name it, quantity it, unit_price it, total_price it))
      (items (parseMarkdown random36 numToString now gouda_line))
  = [(js "G&G Gouda", JFin 1, Some (double (199 # 100)),
      Some (double (199 # 100)))].
Proof. vm_compute. reflexivity. Qed.

(** C4, at its input.  On the text "SUMME EUR 13,95" the currency is
    "EUR" but no total amount is found: after the label the patterns of
    extractTotal and of extractPatternData allow a colon, white space and a
    euro sign, not the letters EUR. *)
Theorem summe_eur_line_gives_no_total :
  totals (parseMarkdown random36 numToString now summe_line)
  = {| subtotal := None; vat_amount := None; vat_rate := None;
       total_amount := None; currency := js "EUR" |}.
Proof. vm_compute. reflexivity. Qed.

(** C5, at a failing input.  The text of processWithMockOCR has four item
    lines and no structured block; the pass over the lines emits an item
    for the first of them only, because the test that the item list is
    empty is made anew at every line. *)
Theorem line_pass_stops_after_first_item :
  items (extractStructuredData random36 numToString
                               (split_on LF mockMarkdown)
                               (initial now mockMarkdown)) = []
  /\ map product_name (items (parseMarkdown random36 numToString now mockMarkdown))
     = [js "Vollmilch 3.5%"]
  /\ (forall n,
        option_map product_name (extractItem random36 n (js "Vollkornbrot 1x €2.80"))
        = Some (js "Vollkornbrot")).
Proof.
  split; [vm_compute; reflexivity|].
  split; [vm_compute; reflexivity|].
  intros n. vm_compute. reflexivity.
Qed.

(** C6, at a failing input.  The first line sets the VAT amount to zero;
    the guard of extractTotals takes zero for an empty field, and the
    second line overwrites the amount with 1.50. *)
Theorem zero_vat_amount_is_overwritten :
  vat_amount (totals (lineData random36 (js "MwSt: 0,00") (initial now vat_text)))
  = Some (JFin 0)
  /\ vat_amount (totals (extractLineData random36 vat_lines (initial now vat_text)))
     = Some (JFin (3 # 2))
  /\ vat_amount (totals (parseMarkdown random36 numToString now vat_text))
     = Some (JFin (3 # 2)).
Proof.
  split; [vm_compute; reflexivity|].
  split; vm_compute; reflexivity.
Qed.

End OnSamples.


(** C8, where the claim fails.  Two runs on the text of processWithMockOCR
    with the same draws of [Math.random], one at noon and one at midnight:
    each result carries the reading of its clock as its time stamp, so the
    two differ in a field that is not the code of an item. *)
Lemma time_stamp_differs_between_two_runs :
  timestamp (processing_info
               (parseMarkdown fixed_random show_whole noon mockMarkdown))
  = noon
  /\ timestamp (processing_info
                  (parseMarkdown fixed_random show_whole midnight
                                 mockMarkdown))
     = midnight
  /\ erase_codes (parseMarkdown fixed_random show_whole noon mockMarkdown)
     <> erase_codes (parseMarkdown fixed_random show_whole midnight
                                   mockMarkdown).
Proof.
  assert (H1 : timestamp (processing_info
                            (parseMarkdown fixed_random show_whole noon
                                           mockMarkdown)) = noon)
    by (vm_compute; reflexivity).
  assert (H2 : timestamp (processing_info
                            (parseMarkdown fixed_random show_whole midnight
                                           mockMarkdown)) = midnight)
    by (vm_compute; reflexivity).
  refine (conj H1 (conj H2 _)). intros H.
  assert (E : forall r,
             timestamp (processing_info (erase_codes r))
             = timestamp (processing_info r)) by reflexivity.
  apply (f_equal (fun r => timestamp (processing_info r))) in H.
  cbv beta in H. rewrite !E, H1, H2 in H. vm_compute in H. discriminate.
Qed.


(** *** A field that holds a value is not written again *)

Section KeptFields.

Variable random36 : nat -> jsstring.
Variable numToString : jsnum -> jsstring.
Variable now : jsstring.

(** Case analysis on a test whose condition holds no other test. *)
Ltac split_inner :=
  match goal with
  | |- context [if ?b then _ else _] =>
      lazymatch b with
      | context [if _ then _ else _] => fail
      | context [match _ with _ => _ end] => fail
      | _ => destruct b eqn:?
      end
  | |- context [match ?x with _ => _ end] =>
      lazymatch x with
      | context [if _ then _ else _] => fail
      | context [match _ with _ => _ end] => fail
      | _ => destruct x eqn:?
      end
  end.

Ltac scalars :=
  cbn [date time name address phone tax_id store_chain subtotal vat_amount
       total_amount method amount_paid card_type start_time end_time
       cashier_number terminal_number tse_signature signature_counter
       signature program points_earned
       set_date set_time set_name set_address set_phone set_tax_id
       set_total_amount set_vat_amount set_subtotal set_method
       set_amount_paid set_start_time set_end_time set_cashier_number
       set_terminal_number set_tse_signature set_signature_counter
       set_signature set_points str_set1 num_set1 fst snd] in *.

(** A guarded field, the guard being true by [G]. *)
Ltac keep_field :=
  let G := fresh "G" in
  unfold kept, str_set1, num_set1; intros G; scalars;
  repeat (rewrite ?G; scalars; split_inner; scalars);
  rewrite ?G; scalars; try reflexivity; try congruence.

Lemma kept_refl : forall (A : Type) (g : A -> bool) (a : A), kept g a a.
Proof. intros A g a _. reflexivity. Qed.

Lemma kept_trans :
  forall (A : Type) (g : A -> bool) (a b c : A),
    kept g a b -> kept g b c -> kept g a c.
Proof.
  unfold kept. intros A g a b c Hab Hbc G.
  pose proof (Hab G) as E. subst b. exact (Hbc G).
Qed.

Lemma extractMetadata_kept :
  forall line m, metadata_kept m (extractMetadata line m).
Proof.
  intros line m. unfold metadata_kept, extractMetadata.
  split; keep_field.
Qed.

Lemma extractStoreInfo_kept :
  forall line s, store_kept s (extractStoreInfo line s).
Proof.
  intros line s. unfold store_kept, extractStoreInfo.
  refine (conj _ (conj _ (conj _ _))); keep_field.
Qed.

Lemma extractTotals_kept :
  forall line t, totals_kept t (extractTotals line t).
Proof.
  intros line t. unfold totals_kept, extractTotals.
  refine (conj _ (conj _ _)); keep_field.
Qed.

Lemma extractPaymentInfo_kept :
  forall line p, payment_kept p (extractPaymentInfo line p).
Proof.
  intros line p. unfold payment_kept, extractPaymentInfo.
  split; keep_field.
Qed.

Lemma extractCashierInfo_kept :
  forall line c, cashier_kept c (extractCashierInfo line c).
Proof.
  intros line c. unfold cashier_kept, extractCashierInfo.
  refine (conj _ (conj _ (conj _ _))); keep_field.
Qed.

Lemma extractFiscalInfo_kept :
  forall line f, fiscal_kept f (extractFiscalInfo line f).
Proof.
  intros line f. unfold fiscal_kept, extractFiscalInfo.
  refine (conj _ (conj _ _)); keep_field.
Qed.

Lemma extractLoyaltyInfo_kept :
  forall line l, loyalty_kept l (extractLoyaltyInfo line l).
Proof.
  intros line l. unfold loyalty_kept, extractLoyaltyInfo. keep_field.
Qed.

Lemma fields_kept_refl : forall r, fields_kept r r.
Proof.
  intros r. unfold fields_kept, metadata_kept, store_kept, totals_kept,
    payment_kept, cashier_kept, fiscal_kept, loyalty_kept.
  repeat (apply conj); apply kept_refl.
Qed.

Lemma fields_kept_trans :
  forall r1 r2 r3, fields_kept r1 r2 -> fields_kept r2 r3 -> fields_kept r1 r3.
Proof.
  intros r1 r2 r3. unfold fields_kept, metadata_kept, store_kept, totals_kept,
    payment_kept, cashier_kept, fiscal_kept, loyalty_kept.
  intros H12 H23.
  repeat match goal with H : _ /\ _ |- _ => destruct H end.
  repeat (apply conj); eapply kept_trans; eassumption.
Qed.

Lemma fields_kept_same_scalars :
  forall r r', scalars_of r' = scalars_of r -> fields_kept r r'.
Proof.
  intros r r' H. unfold scalars_of in H.
  injection H as H1 H2 H3 H4 H5 H6 H7.
  unfold fields_kept. rewrite H1, H2, H3, H4, H5, H6, H7.
  apply fields_kept_refl.
Qed.

Lemma push_opt_scalars :
  forall o r, scalars_of (push_opt o r) = scalars_of r.
Proof. intros [it|] r; reflexivity. Qed.

Lemma andThen_scalars :
  forall x k r,
    scalars_of (flow_result x) = scalars_of r ->
    (forall v r', scalars_of (flow_result (k v r')) = scalars_of r') ->
    scalars_of (flow_result (andThen x k)) = scalars_of r.
Proof.
  intros [v a|v a] k r Hx Hk; cbn [andThen flow_result] in *;
    [exact Hx | rewrite Hk; exact Hx].
Qed.

Lemma structuredLine_scalars :
  forall raw following v r,
    scalars_of (snd (structuredLine random36 numToString raw following v r))
    = scalars_of r.
Proof.
  intros raw following v r. unfold structuredLine.
  destruct (_ || _); [reflexivity|]. rewrite finish_result.
  apply andThen_scalars.
  { unfold productsSection. split_tests; reflexivity. }
  intros v1 r1. apply andThen_scalars.
  { unfold pipeTable. split_tests; reflexivity. }
  intros v2 r2. apply andThen_scalars.
  { unfold edekaTable. split_tests; cbn [flow_result];
      rewrite ?push_opt_scalars; reflexivity. }
  intros v3 r3. apply andThen_scalars.
  { unfold standardTable. split_tests; cbn [flow_result];
      rewrite ?push_opt_scalars; reflexivity. }
  intros v4 r4. apply andThen_scalars.
  { unfold itemsSection. split_tests; cbn [flow_result];
      rewrite ?push_opt_scalars; reflexivity. }
  intros v5 r5. unfold itemsPurchased. split_tests; cbn [flow_result];
    rewrite ?push_opt_scalars; reflexivity.
Qed.

Lemma structuredLoop_scalars :
  forall lines v r,
    scalars_of (structuredLoop random36 numToString lines v r) = scalars_of r.
Proof.
  induction lines as [|raw following IH]; intros v r; cbn [structuredLoop];
    [reflexivity|].
  pose proof (structuredLine_scalars raw following v r) as H.
  destruct (structuredLine random36 numToString raw following v r) as [v' r'].
  rewrite IH. exact H.
Qed.

Lemma lineData_kept :
  forall line r, fields_kept r (lineData random36 line r).
Proof.
  intros line r. unfold lineData.
  destruct (nonempty (trim line)); [|apply fields_kept_refl].
  eapply fields_kept_trans;
    [|apply fields_kept_same_scalars;
      match goal with
      | |- scalars_of (if ?c then push_opt ?o ?a else ?a) = _ =>
          instantiate (1 := a); destruct c;
          [apply push_opt_scalars | reflexivity]
      end].
  unfold fields_kept. fields.
  exact (conj (extractMetadata_kept _ _)
        (conj (extractStoreInfo_kept _ _)
        (conj (extractTotals_kept _ _)
        (conj (extractPaymentInfo_kept _ _)
        (conj (extractCashierInfo_kept _ _)
        (conj (extractFiscalInfo_kept _ _)
              (extractLoyaltyInfo_kept _ _))))))).
Qed.

Lemma extractLineData_kept :
  forall lines r, fields_kept r (extractLineData random36 lines r).
Proof.
  unfold extractLineData.
  induction lines as [|line lines IH]; intros r; cbn [fold_left];
    [apply fields_kept_refl|].
  eapply fields_kept_trans; [apply lineData_kept | apply IH].
Qed.

Lemma extractPatternData_kept :
  forall markdown r, fields_kept r (extractPatternData markdown r).
Proof.
  intros markdown [m s i t p c f l w d]. unfold extractPatternData. fields.
  destruct (num_set (total_amount t)) eqn:Et;
    [|destruct (firstTotal documentTotalPatterns markdown)]; fields;
    (destruct (str_set (date m)) eqn:Em;
     [|destruct (extractDate_from datePatterns markdown)]); fields;
    unfold fields_kept, metadata_kept, store_kept, totals_kept, payment_kept,
      cashier_kept, fiscal_kept, loyalty_kept, kept; fields; scalars;
    repeat (apply conj); intros G; try reflexivity; congruence.
Qed.

Lemma extractItemsFallback_scalars :
  forall markdown r,
    scalars_of (extractItemsFallback random36 markdown r) = scalars_of r.
Proof.
  intros markdown r. unfold extractItemsFallback.
  destruct (potentialItems _ _ _). reflexivity.
Qed.

(** X13. What the guards do keep: every scalar field that holds a non-empty
    string or a number other than zero once the pass over the lines has
    read the lines [pre] has that same value in the receipt that
    [parseMarkdown] returns. *)
Theorem set_fields_survive :
  forall (markdown : jsstring) (pre post : list jsstring),
    split_on LF markdown = pre ++ post ->
    fields_kept
      (extractLineData random36 pre
         (extractStructuredData random36 numToString (split_on LF markdown)
                                (initial now markdown)))
      (parseMarkdown random36 numToString now markdown).
Proof.
  intros markdown pre post Hsplit. unfold parseMarkdown. cbv zeta.
  set (r0 := extractStructuredData random36 numToString (split_on LF markdown)
                                   (initial now markdown)).
  assert (Hline : extractLineData random36 (split_on LF markdown) r0
                  = extractLineData random36 post
                                    (extractLineData random36 pre r0)).
  { rewrite Hsplit. unfold extractLineData. apply fold_left_app. }
  rewrite Hline.
  eapply fields_kept_trans; [apply extractLineData_kept|].
  eapply fields_kept_trans; [apply extractPatternData_kept|].
  destruct (Nat.eqb _ 0); [|apply fields_kept_refl].
  apply fields_kept_same_scalars, extractItemsFallback_scalars.
Qed.

End KeptFields.

End ReceiptFacts.

(* ================================================================== *)
(** ** More facts about the orchestrator *)
(* ================================================================== *)

Module MultiOCRMore.
Import MultiOCR MultiOCRSpec.
Local Open Scope string_scope.
Local Open Scope list_scope.

Lemma tryConfigured_cases :
  forall behave config n b l,
    (exists r, behave n = Resolved (Some r)
               /\ ge (confidence r) (minConfidence config) = true
               /\ tryConfigured behave config n b l
                  = inl ({| result := r; service_used := n; fallback_used := b |},
                         call_only n l))
    \/ (below_threshold config (behave n)
        /\ exists e, tryConfigured behave config n b l = inr (record n e l)).
Proof.
  intros behave config n b l. unfold tryConfigured, below_threshold.
  destruct (behave n) as [[r|]|m].
  - destruct (ge (confidence r) (minConfidence config)) eqn:E.
    + left. exists r. repeat split; assumption.
    + right. split; [reflexivity | eexists; reflexivity].
  - right. split; [exact I | eexists; reflexivity].
  - right. split; [exact I | eexists; reflexivity].
Qed.

Lemma tryRemaining_invoked :
  forall behave config names best l,
    invoked (snd (tryRemaining behave config names best l))
    = invoked l ++ filter (remaining config) names.
Proof.
  induction names as [|n names IH]; intros best l; cbn [tryRemaining filter].
  - cbn. rewrite app_nil_r. reflexivity.
  - change (negb (n =? primary config) && negb (n =? fallback config))
      with (remaining config n).
    destruct (remaining config n).
    + destruct (behave n) as [[r|]|m]; rewrite IH;
        cbn [invoked record call_only]; rewrite <- app_assoc; reflexivity.
    + apply IH.
Qed.

(** The three ways a run goes. *)
Lemma processImage_cases :
  forall services behave config,
    let run := processImage services behave config in
    (exists r,
        available services (primary config) = true
        /\ behave (primary config) = Resolved (Some r)
        /\ ge (confidence r) (minConfidence config) = true
        /\ fst run = Returns {| result := r; service_used := primary config;
                                fallback_used := false |}
        /\ invoked (snd run) = [primary config])
    \/ (exists r,
           (available services (primary config) = true ->
            below_threshold config (behave (primary config)))
           /\ available services (fallback config) = true
           /\ String.eqb (fallback config) (primary config) = false
           /\ behave (fallback config) = Resolved (Some r)
           /\ ge (confidence r) (minConfidence config) = true
           /\ fst run = Returns {| result := r; service_used := fallback config;
                                   fallback_used := true |}
           /\ invoked (snd run) = configured services config)
    \/ (exists l,
           (available services (primary config) = true ->
            below_threshold config (behave (primary config)))
           /\ (available services (fallback config) = true ->
               String.eqb (fallback config) (primary config) = false ->
               below_threshold config (behave (fallback config)))
           /\ invoked l = configured services config
           /\ fst run = match fst (tryRemaining behave config services None l) with
                        | Some b => Returns b
                        | None => Throws "All OCR services failed to process the image"
                        end
           /\ snd run = snd (tryRemaining behave config services None l)).
Proof.
  intros services behave config. cbv zeta. unfold processImage, configured.
  set (l0 := {| invoked := []; results := [] |}).
  destruct (available services (primary config)) eqn:Hp.
  - destruct (tryConfigured_cases behave config (primary config) false l0)
      as [(r & Hr & Hge & ->)|(Hlow & e & ->)].
    + left. exists r. repeat split; assumption.
    + right. set (l1 := record (primary config) e l0).
      destruct (available services (fallback config)) eqn:Hf;
        [destruct (String.eqb (fallback config) (primary config)) eqn:Hne|];
        cbn [andb negb].
      * right. exists l1. split; [intros _; exact Hlow|].
        split; [intros _ H; discriminate|]. split; [reflexivity|].
        destruct (tryRemaining behave config services None l1) as [[b|] l2];
          split; reflexivity.
      * destruct (tryConfigured_cases behave config (fallback config) true l1)
          as [(r & Hr & Hge & ->)|(Hlow2 & e2 & ->)].
        -- left. exists r. split; [intros _; exact Hlow|].
           repeat split; assumption.
        -- right. exists (record (fallback config) e2 l1).
           split; [intros _; exact Hlow|]. split; [intros _ _; exact Hlow2|].
           split; [reflexivity|].
           destruct (tryRemaining behave config services None _) as [[b|] l2];
             split; reflexivity.
      * right. exists l1. split; [intros _; exact Hlow|].
        split; [intros H; discriminate|]. split; [reflexivity|].
        destruct (tryRemaining behave config services None l1) as [[b|] l2];
          split; reflexivity.
  - right.
    destruct (available services (fallback config)) eqn:Hf;
      [destruct (String.eqb (fallback config) (primary config)) eqn:Hne|];
      cbn [andb negb app].
    + right. exists l0. split; [intros H; discriminate|].
      split; [intros _ H; discriminate|]. split; [reflexivity|].
      destruct (tryRemaining behave config services None l0) as [[b|] l2];
        split; reflexivity.
    + destruct (tryConfigured_cases behave config (fallback config) true l0)
        as [(r & Hr & Hge & ->)|(Hlow2 & e2 & ->)].
      * left. exists r. split; [intros H; discriminate|].
        repeat split; assumption.
      * right. exists (record (fallback config) e2 l0).
        split; [intros H; discriminate|]. split; [intros _ _; exact Hlow2|].
        split; [reflexivity|].
        destruct (tryRemaining behave config services None _) as [[b|] l2];
          split; reflexivity.
    + right. exists l0. split; [intros H; discriminate|].
      split; [intros H; discriminate|]. split; [reflexivity|].
      destruct (tryRemaining behave config services None l0) as [[b|] l2];
        split; reflexivity.
Qed.


Lemma available_In :
  forall services n, available services n = true <-> In n services.
Proof.
  intros services n. unfold available. rewrite existsb_exists. split.
  - intros (x & Hx & E). apply String.eqb_eq in E. subst. exact Hx.
  - intros H. exists n. split; [exact H | apply String.eqb_refl].
Qed.

Lemma remaining_iff :
  forall config n,
    remaining config n = true <-> n <> primary config /\ n <> fallback config.
Proof.
  intros config n. unfold remaining.
  rewrite andb_true_iff, !negb_true_iff, !String.eqb_neq. tauto.
Qed.

Lemma configured_In :
  forall services config n,
    In n (configured services config) ->
    In n services /\ remaining config n = false.
Proof.
  intros services config n. unfold configured, remaining.
  destruct (available services (primary config)) eqn:Hp;
    destruct (available services (fallback config)) eqn:Hf;
    destruct (String.eqb (fallback config) (primary config)) eqn:Hne;
    cbn; intros H; repeat destruct H as [H|H]; try contradiction; subst n;
    rewrite ?String.eqb_refl, ?andb_false_r; cbn;
    (split; [apply available_In; assumption | reflexivity]).
Qed.

Lemma configured_NoDup :
  forall services config, NoDup (configured services config).
Proof.
  intros services config. unfold configured.
  destruct (available services (primary config));
    destruct (available services (fallback config));
    destruct (String.eqb (fallback config) (primary config)) eqn:Hne; cbn;
    repeat (constructor; [cbn; try tauto|]); try constructor.
  intros [H|[]]. apply String.eqb_neq in Hne. contradiction.
Qed.

(** The attempts of the loop over the remaining backends. *)
Lemma tryRemaining_none :
  forall behave config names best l,
    fst (tryRemaining behave config names best l) = None <->
    best = None
    /\ forall n, In n names -> remaining config n = true ->
                 has_result (behave n) = false.
Proof.
  induction names as [|n names IH]; intros best l; cbn [tryRemaining].
  - cbn. split; [intros H; split; [exact H | intros n []] | tauto].
  - change (negb (n =? primary config) && negb (n =? fallback config))
      with (remaining config n).
    destruct (remaining config n) eqn:Hn.
    + destruct (behave n) as [[r|]|m] eqn:Hb; rewrite IH.
      * split.
        -- intros [H _]. destruct best as [b|];
             [destruct (gt _ _)|]; discriminate.
        -- intros [_ H]. specialize (H n (or_introl eq_refl) Hn).
           rewrite Hb in H. discriminate.
      * split; intros [H1 H2]; (split; [exact H1|]).
        -- intros x [<-|Hx] Hr; [rewrite Hb; reflexivity | auto].
        -- intros x Hx. apply H2. right. exact Hx.
      * split; intros [H1 H2]; (split; [exact H1|]).
        -- intros x [<-|Hx] Hr; [rewrite Hb; reflexivity | auto].
        -- intros x Hx. apply H2. right. exact Hx.
    + rewrite IH. split; intros [H1 H2]; (split; [exact H1|]).
      * intros x [<-|Hx] Hr; [congruence | auto].
      * intros x Hx. apply H2. right. exact Hx.
Qed.

Lemma gt_lt : forall a b, gt a b = true <-> (b < a)%Q.
Proof.
  intros a b. unfold gt. rewrite negb_true_iff. split.
  - intros H. apply Qnot_le_lt. intros Hle.
    apply Qle_bool_iff in Hle. congruence.
  - intros H. destruct (Qle_bool a b) eqn:E; [|reflexivity].
    apply Qle_bool_iff in E. exfalso. exact (Qlt_not_le _ _ H E).
Qed.

Lemma gt_false_le : forall a b, gt a b = false <-> (a <= b)%Q.
Proof.
  intros a b. unfold gt. rewrite negb_false_iff. apply Qle_bool_iff.
Qed.

(** What the loop over the remaining backends hands back, for any best
    result it starts from. *)
Lemma tryRemaining_best :
  forall behave config names best l b,
    fst (tryRemaining behave config names best l) = Some b ->
    (best = Some b
     /\ forall n r, In n names -> remaining config n = true ->
                    behave n = Resolved (Some r) ->
                    (confidence r <= confidence (result b))%Q)
    \/ (exists pre post,
           names = pre ++ service_used b :: post
           /\ remaining config (service_used b) = true
           /\ behave (service_used b) = Resolved (Some (result b))
           /\ fallback_used b = true
           /\ (forall b0, best = Some b0 ->
                          (confidence (result b0) < confidence (result b))%Q)
           /\ (forall n r, In n pre -> remaining config n = true ->
                           behave n = Resolved (Some r) ->
                           (confidence r < confidence (result b))%Q)
           /\ (forall n r, In n post -> remaining config n = true ->
                           behave n = Resolved (Some r) ->
                           (confidence r <= confidence (result b))%Q)).
Proof.
  induction names as [|n names IH]; intros best l b; cbn [tryRemaining].
  - cbn. intros ->. left. split; [reflexivity | intros n r []].
  - change (negb (n =? primary config) && negb (n =? fallback config))
      with (remaining config n).
    assert (Hskip :
              forall l',
                (remaining config n = false \/ has_result (behave n) = false) ->
                fst (tryRemaining behave config names best l') = Some b ->
                (best = Some b
                 /\ forall x r, In x (n :: names) -> remaining config x = true ->
                                behave x = Resolved (Some r) ->
                                (confidence r <= confidence (result b))%Q)
                \/ (exists pre post,
                       n :: names = pre ++ service_used b :: post
                       /\ remaining config (service_used b) = true
                       /\ behave (service_used b) = Resolved (Some (result b))
                       /\ fallback_used b = true
                       /\ (forall b0, best = Some b0 ->
                             (confidence (result b0) < confidence (result b))%Q)
                       /\ (forall x r, In x pre -> remaining config x = true ->
                             behave x = Resolved (Some r) ->
                             (confidence r < confidence (result b))%Q)
                       /\ (forall x r, In x post -> remaining config x = true ->
                             behave x = Resolved (Some r) ->
                             (confidence r <= confidence (result b))%Q))).
    { intros l' Hn H. apply IH in H.
      destruct H as [[Hb Hle]|(pre & post & E & H1 & H2 & H3 & H4 & H5 & H6)].
      - left. split; [exact Hb|]. intros x r [<-|Hx] Hr Hbx; [|eauto].
        destruct Hn as [Hn|Hn]; [congruence | rewrite Hbx in Hn; discriminate].
      - right. exists (n :: pre), post. rewrite E. repeat split; try assumption.
        intros x r [<-|Hx] Hr Hbx; [|eauto].
        destruct Hn as [Hn|Hn]; [congruence | rewrite Hbx in Hn; discriminate]. }
    destruct (remaining config n) eqn:Hn; [|apply Hskip; left; reflexivity].
    destruct (behave n) as [[r|]|m] eqn:Hb;
      [|apply Hskip; right; reflexivity | apply Hskip; right; reflexivity].
    clear Hskip. intros H. apply IH in H.
    destruct best as [b0|].
    + destruct (gt (confidence r) (confidence (result b0))) eqn:G.
      * apply gt_lt in G.
        destruct H as [[Hb0 Hle]|(pre & post & E & H1 & H2 & H3 & H4 & H5 & H6)].
        -- injection Hb0 as <-. right. exists [], names. cbn.
           repeat split; try assumption.
           ++ intros b1 Hb1. injection Hb1 as <-. exact G.
           ++ intros x r0 [].
        -- right. exists (n :: pre), post. rewrite E.
           repeat split; try assumption.
           ++ intros b1 Hb1. injection Hb1 as <-.
              eapply Qlt_trans; [exact G|]. exact (H4 _ eq_refl).
           ++ intros x r0 [<-|Hx] Hr Hbx; [|eauto].
              rewrite Hb in Hbx. injection Hbx as <-. exact (H4 _ eq_refl).
      * apply gt_false_le in G.
        destruct H as [[Hb0 Hle]|(pre & post & E & H1 & H2 & H3 & H4 & H5 & H6)].
        -- injection Hb0 as <-. left. split; [reflexivity|].
           intros x r0 [<-|Hx] Hr Hbx; [|eauto].
           rewrite Hb in Hbx. injection Hbx as <-. exact G.
        -- right. exists (n :: pre), post. rewrite E.
           repeat split; try assumption.
           intros x r0 [<-|Hx] Hr Hbx; [|eauto].
           rewrite Hb in Hbx. injection Hbx as <-.
           eapply Qle_lt_trans; [exact G|]. exact (H4 _ eq_refl).
    + destruct H as [[Hb0 Hle]|(pre & post & E & H1 & H2 & H3 & H4 & H5 & H6)].
      * injection Hb0 as <-. right. exists [], names. cbn.
        repeat split; try assumption.
        -- intros b1 Hb1. discriminate.
        -- intros x r0 [].
      * right. exists (n :: pre), post. rewrite E.
        repeat split; try assumption.
        -- intros b1 Hb1. discriminate.
        -- intros x r0 [<-|Hx] Hr Hbx; [|eauto].
           rewrite Hb in Hbx. injection Hbx as <-. exact (H4 _ eq_refl).
Qed.


(** X1. When the primary backend is missing or its attempt ends below the
    threshold, and the fallback backend, another one, is available and
    comes back at or above the threshold, the run returns the result of the
    fallback backend with [fallback_used] true, and it has called the
    primary backend (when there is one) and the fallback backend only. *)
Theorem fallback_takes_over :
  forall (services : list string) (behave : string -> Outcome)
         (config : Config) (r : OcrResult),
    (available services (primary config) = true ->
     below_threshold config (behave (primary config))) ->
    available services (fallback config) = true ->
    String.eqb (fallback config) (primary config) = false ->
    behave (fallback config) = Resolved (Some r) ->
    ge (confidence r) (minConfidence config) = true ->
    fst (processImage services behave config)
    = Returns {| result := r; service_used := fallback config;
                 fallback_used := true |}
    /\ invoked (snd (processImage services behave config))
       = configured services config.
Proof.
  intros services behave config r Hp Hf Hne Hr Hge.
  destruct (processImage_cases services behave config)
    as [(r' & Ha & Hb & Hc & _)
       |[(r' & _ & _ & _ & Hb & _ & H1 & H2)|(l & _ & Hlow & _)]].
  - specialize (Hp Ha). unfold below_threshold in Hp. rewrite Hb in Hp.
    congruence.
  - rewrite Hr in Hb. injection Hb as <-. split; assumption.
  - specialize (Hlow Hf Hne). unfold below_threshold in Hlow.
    rewrite Hr in Hlow. congruence.
Qed.

Lemma fallback_takes_over_witness :
  (available three_services (primary Samples.defaults) = true ->
   below_threshold Samples.defaults (low_then_sure (primary Samples.defaults)))
  /\ available three_services (fallback Samples.defaults) = true
  /\ String.eqb (fallback Samples.defaults) (primary Samples.defaults) = false
  /\ low_then_sure (fallback Samples.defaults) = Resolved (Some Samples.sure)
  /\ ge (confidence Samples.sure) (minConfidence Samples.defaults) = true
  /\ fst (processImage three_services low_then_sure Samples.defaults)
     = Returns {| result := Samples.sure; service_used := "tesseract";
                  fallback_used := true |}.
Proof.
  assert (H1 : available three_services (primary Samples.defaults) = true ->
               below_threshold Samples.defaults
                               (low_then_sure (primary Samples.defaults)))
    by (intros _; reflexivity).
  refine (conj H1 (conj eq_refl (conj eq_refl (conj eq_refl (conj eq_refl _))))).
  exact (proj1 (@fallback_takes_over three_services low_then_sure
                  Samples.defaults Samples.sure H1 eq_refl eq_refl eq_refl
                  eq_refl)).
Defined.

(** X2. A run throws, and then with the message that all services failed,
    exactly when neither the primary nor the fallback attempt reaches the
    threshold and no other backend comes back with a result. *)
Theorem throws_exactly_when_nothing_left :
  forall (services : list string) (behave : string -> Outcome)
         (config : Config) (message : string),
    fst (processImage services behave config) = Throws message
    <-> (message = "All OCR services failed to process the image"
         /\ (available services (primary config) = true ->
             below_threshold config (behave (primary config)))
         /\ (available services (fallback config) = true ->
             String.eqb (fallback config) (primary config) = false ->
             below_threshold config (behave (fallback config)))
         /\ (forall n, In n services -> remaining config n = true ->
                       has_result (behave n) = false)).
Proof.
  intros services behave config message.
  destruct (processImage_cases services behave config)
    as [(r & Ha & Hb & Hc & H1 & _)
       |[(r & _ & Ha & Hne & Hb & Hc & H1 & _)|(l & Hp & Hf & _ & H1 & _)]];
    rewrite H1.
  - split; [discriminate|]. intros (_ & Hlow & _). specialize (Hlow Ha).
    unfold below_threshold in Hlow. rewrite Hb in Hlow. congruence.
  - split; [discriminate|]. intros (_ & _ & Hlow & _).
    specialize (Hlow Ha Hne). unfold below_threshold in Hlow.
    rewrite Hb in Hlow. congruence.
  - destruct (fst (tryRemaining behave config services None l)) as [b|] eqn:E.
    + split; [discriminate|]. intros (_ & _ & _ & Hnone).
      assert (Habs : fst (tryRemaining behave config services None l) = None)
        by (apply tryRemaining_none; split; [reflexivity | exact Hnone]).
      congruence.
    + apply tryRemaining_none in E. destruct E as [_ E]. split.
      * intros H. injection H as <-. repeat split; assumption.
      * intros (-> & _). reflexivity.
Qed.

(** X3. No backend is called twice in a run, and none is called that is
    not registered. *)
Theorem no_backend_called_twice :
  forall (services : list string) (behave : string -> Outcome)
         (config : Config),
    NoDup services ->
    NoDup (invoked (snd (processImage services behave config)))
    /\ incl (invoked (snd (processImage services behave config))) services.
Proof.
  intros services behave config Hnd.
  assert (Hc : incl (configured services config) services)
    by (intros n Hn; apply configured_In in Hn; tauto).
  destruct (processImage_cases services behave config)
    as [(r & Ha & _ & _ & _ & ->)
       |[(r & _ & _ & _ & _ & _ & _ & ->)|(l & _ & _ & Hl & _ & ->)]].
  - split; [repeat constructor; cbn; tauto|].
    intros n [<-|[]]. apply available_In, Ha.
  - split; [apply configured_NoDup | exact Hc].
  - rewrite tryRemaining_invoked, Hl. split.
    + apply NoDup_app.
      * apply configured_NoDup.
      * apply NoDup_filter, Hnd.
      * intros n Hn Hn'. apply configured_In in Hn. apply filter_In in Hn'.
        destruct Hn as [_ Hn]. destruct Hn' as [_ Hn']. congruence.
    + apply incl_app; [exact Hc|]. intros n Hn. apply filter_In in Hn. tauto.
Qed.

Lemma no_backend_called_twice_witness :
  NoDup three_services
  /\ NoDup (invoked (snd (processImage three_services Samples.all_low
                                       Samples.defaults)))
  /\ incl (invoked (snd (processImage three_services Samples.all_low
                                      Samples.defaults))) three_services.
Proof.
  assert (H : NoDup three_services).
  { unfold three_services.
    repeat (constructor; [cbn; intros K; repeat destruct K as [K|K];
                          try discriminate; contradiction|]).
    constructor. }
  split; [exact H|].
  exact (@no_backend_called_twice three_services Samples.all_low
                                  Samples.defaults H).
Defined.

(** X4. Unless the primary or the fallback attempt reaches the threshold,
    every registered backend is called. *)
Theorem without_threshold_every_backend_is_called :
  forall (services : list string) (behave : string -> Outcome)
         (config : Config),
    (available services (primary config) = true ->
     below_threshold config (behave (primary config))) ->
    (available services (fallback config) = true ->
     String.eqb (fallback config) (primary config) = false ->
     below_threshold config (behave (fallback config))) ->
    forall n, In n services ->
              In n (invoked (snd (processImage services behave config))).
Proof.
  intros services behave config Hp Hf n Hn.
  destruct (processImage_cases services behave config)
    as [(r & Ha & Hb & Hc & _)
       |[(r & _ & Ha & Hne & Hb & Hc & _)|(l & _ & _ & Hl & _ & ->)]].
  - specialize (Hp Ha). unfold below_threshold in Hp. rewrite Hb in Hp.
    congruence.
  - specialize (Hf Ha Hne). unfold below_threshold in Hf. rewrite Hb in Hf.
    congruence.
  - rewrite tryRemaining_invoked, Hl. apply in_or_app.
    destruct (remaining config n) eqn:Hr.
    + right. apply filter_In. split; assumption.
    + left. unfold configured. unfold remaining in Hr.
      apply andb_false_iff in Hr. rewrite !negb_false_iff in Hr.
      destruct Hr as [Hr|Hr]; apply String.eqb_eq in Hr; subst n.
      * apply available_In in Hn. rewrite Hn. left. reflexivity.
      * apply available_In in Hn. rewrite Hn.
        destruct (String.eqb (fallback config) (primary config)) eqn:E.
        -- apply String.eqb_eq in E. rewrite <- E, Hn. left. reflexivity.
        -- apply in_or_app. right. left. reflexivity.
Qed.

Lemma without_threshold_every_backend_is_called_witness :
  (available three_services (primary Samples.defaults) = true ->
   below_threshold Samples.defaults (Samples.all_low (primary Samples.defaults)))
  /\ (available three_services (fallback Samples.defaults) = true ->
      String.eqb (fallback Samples.defaults) (primary Samples.defaults) = false ->
      below_threshold Samples.defaults
                      (Samples.all_low (fallback Samples.defaults)))
  /\ In "azure" three_services
  /\ In "azure" (invoked (snd (processImage three_services Samples.all_low
                                            Samples.defaults))).
Proof.
  assert (H1 : available three_services (primary Samples.defaults) = true ->
               below_threshold Samples.defaults
                               (Samples.all_low (primary Samples.defaults)))
    by (intros _; reflexivity).
  assert (H2 : available three_services (fallback Samples.defaults) = true ->
               String.eqb (fallback Samples.defaults)
                          (primary Samples.defaults) = false ->
               below_threshold Samples.defaults
                               (Samples.all_low (fallback Samples.defaults)))
    by (intros _ _; reflexivity).
  assert (H3 : In "azure" three_services) by (right; left; reflexivity).
  refine (conj H1 (conj H2 (conj H3 _))).
  exact (@without_threshold_every_backend_is_called
           three_services Samples.all_low Samples.defaults H1 H2 "azure" H3).
Defined.

(** X5. The result that a run returns is the result with which the backend
    named in [service_used] came back in that run. *)
Theorem answer_is_a_candidate :
  forall (services : list string) (behave : string -> Outcome)
         (config : Config) (a : Answer),
    fst (processImage services behave config) = Returns a ->
    In (service_used a, result a)
       (candidates (snd (processImage services behave config)) behave).
Proof.
  intros services behave config a. unfold candidates.
  assert (Hin : forall names n r,
             In n names -> behave n = Resolved (Some r) ->
             In (n, r) (flat_map (fun n => match behave n with
                                           | Resolved (Some r) => [(n, r)]
                                           | _ => []
                                           end) names)).
  { intros names n r Hn Hb. apply in_flat_map. exists n.
    split; [exact Hn|]. rewrite Hb. left. reflexivity. }
  destruct (processImage_cases services behave config)
    as [(r & Ha & Hb & _ & -> & ->)
       |[(r & _ & Ha & Hne & Hb & _ & -> & ->)|(l & _ & _ & Hl & -> & ->)]].
  - intros H. injection H as <-. cbn [service_used result].
    apply Hin; [left; reflexivity | exact Hb].
  - intros H. injection H as <-. cbn [service_used result].
    apply Hin; [|exact Hb]. unfold configured. rewrite Ha, Hne. cbn [andb negb].
    apply in_or_app. right. left. reflexivity.
  - destruct (fst (tryRemaining behave config services None l)) as [b|] eqn:E;
      [|discriminate].
    intros H. injection H as <-. apply tryRemaining_best in E.
    destruct E as [[E _]|(pre & post & E & Hr & Hb & _)]; [discriminate|].
    apply Hin; [|exact Hb]. rewrite tryRemaining_invoked. apply in_or_app.
    right. apply filter_In. split; [|exact Hr]. rewrite E.
    apply in_or_app. right. left. reflexivity.
Qed.

Lemma answer_is_a_candidate_witness :
  fst (processImage three_services Samples.all_low Samples.defaults)
  = Returns {| result := Samples.noise; service_used := "azure";
               fallback_used := true |}
  /\ In ("azure", Samples.noise)
        (candidates (snd (processImage three_services Samples.all_low
                                       Samples.defaults)) Samples.all_low).
Proof.
  assert (H : fst (processImage three_services Samples.all_low Samples.defaults)
              = Returns {| result := Samples.noise; service_used := "azure";
                           fallback_used := true |}) by reflexivity.
  split; [exact H|].
  exact (@answer_is_a_candidate three_services Samples.all_low Samples.defaults
                                _ H).
Defined.

(** X6. When neither the primary nor the fallback attempt reaches the
    threshold, the result returned is the best of the other backends: it
    is the result of one of them, every other backend listed before it came
    back with a strictly lower confidence, and every one listed after it
    with a confidence that is not higher. *)
Theorem best_of_the_other_backends :
  forall (services : list string) (behave : string -> Outcome)
         (config : Config) (a : Answer),
    (available services (primary config) = true ->
     below_threshold config (behave (primary config))) ->
    (available services (fallback config) = true ->
     String.eqb (fallback config) (primary config) = false ->
     below_threshold config (behave (fallback config))) ->
    fst (processImage services behave config) = Returns a ->
    exists pre post,
      services = pre ++ service_used a :: post
      /\ remaining config (service_used a) = true
      /\ behave (service_used a) = Resolved (Some (result a))
      /\ fallback_used a = true
      /\ (forall n r, In n pre -> remaining config n = true ->
                      behave n = Resolved (Some r) ->
                      (confidence r < confidence (result a))%Q)
      /\ (forall n r, In n post -> remaining config n = true ->
                      behave n = Resolved (Some r) ->
                      (confidence r <= confidence (result a))%Q).
Proof.
  intros services behave config a Hp Hf.
  destruct (processImage_cases services behave config)
    as [(r & Ha & Hb & Hc & _)
       |[(r & _ & Ha & Hne & Hb & Hc & _)|(l & _ & _ & _ & -> & _)]].
  - specialize (Hp Ha). unfold below_threshold in Hp. rewrite Hb in Hp.
    congruence.
  - specialize (Hf Ha Hne). unfold below_threshold in Hf. rewrite Hb in Hf.
    congruence.
  - destruct (fst (tryRemaining behave config services None l)) as [b|] eqn:E;
      [|discriminate].
    intros H. injection H as <-. apply tryRemaining_best in E.
    destruct E as [[E _]|(pre & post & E & H1 & H2 & H3 & _ & H5 & H6)];
      [discriminate|].
    exists pre, post. repeat split; assumption.
Qed.

Lemma best_of_the_other_backends_witness :
  (available three_services (primary Samples.defaults) = true ->
   below_threshold Samples.defaults (Samples.all_low (primary Samples.defaults)))
  /\ (available three_services (fallback Samples.defaults) = true ->
      String.eqb (fallback Samples.defaults) (primary Samples.defaults) = false ->
      below_threshold Samples.defaults
                      (Samples.all_low (fallback Samples.defaults)))
  /\ fst (processImage three_services Samples.all_low Samples.defaults)
     = Returns {| result := Samples.noise; service_used := "azure";
                  fallback_used := true |}
  /\ exists pre post, three_services = pre ++ "azure" :: post.
Proof.
  assert (H1 : available three_services (primary Samples.defaults) = true ->
               below_threshold Samples.defaults
                               (Samples.all_low (primary Samples.defaults)))
    by (intros _; reflexivity).
  assert (H2 : available three_services (fallback Samples.defaults) = true ->
               String.eqb (fallback Samples.defaults)
                          (primary Samples.defaults) = false ->
               below_threshold Samples.defaults
                               (Samples.all_low (fallback Samples.defaults)))
    by (intros _ _; reflexivity).
  assert (H3 : fst (processImage three_services Samples.all_low Samples.defaults)
               = Returns {| result := Samples.noise; service_used := "azure";
                            fallback_used := true |}) by reflexivity.
  refine (conj H1 (conj H2 (conj H3 _))).
  destruct (@best_of_the_other_backends three_services Samples.all_low
              Samples.defaults _ H1 H2 H3) as (pre & post & E & _).
  exists pre, post. exact E.
Defined.

(** X7. In a result that a run returns, [fallback_used] is false exactly
    when [service_used] is the primary backend, and a result of the primary
    or of the fallback backend has a confidence at or above the threshold:
    a result below it is that of another backend. *)
Theorem answer_flags :
  forall (services : list string) (behave : string -> Outcome)
         (config : Config) (a : Answer),
    fst (processImage services behave config) = Returns a ->
    fallback_used a = negb (String.eqb (service_used a) (primary config))
    /\ (remaining config (service_used a) = false ->
        ge (confidence (result a)) (minConfidence config) = true).
Proof.
  intros services behave config a.
  destruct (processImage_cases services behave config)
    as [(r & Ha & Hb & Hc & -> & _)
       |[(r & _ & Ha & Hne & Hb & Hc & -> & _)|(l & _ & _ & _ & -> & _)]].
  - intros H. injection H as <-. cbn [service_used result fallback_used].
    rewrite String.eqb_refl. split; [reflexivity | intros _; exact Hc].
  - intros H. injection H as <-. cbn [service_used result fallback_used].
    rewrite Hne. split; [reflexivity | intros _; exact Hc].
  - destruct (fst (tryRemaining behave config services None l)) as [b|] eqn:E;
      [|discriminate].
    intros H. injection H as <-. apply tryRemaining_best in E.
    destruct E as [[E _]|(pre & post & _ & H1 & _ & H3 & _)]; [discriminate|].
    split; [|congruence]. rewrite H3.
    apply remaining_iff in H1. destruct H1 as [H1 _].
    apply String.eqb_neq in H1. rewrite H1. reflexivity.
Qed.

Lemma answer_flags_witness :
  fst (processImage three_services low_then_sure Samples.defaults)
  = Returns {| result := Samples.sure; service_used := "tesseract";
               fallback_used := true |}
  /\ true = negb (String.eqb "tesseract" (primary Samples.defaults)).
Proof.
  assert (H : fst (processImage three_services low_then_sure Samples.defaults)
              = Returns {| result := Samples.sure; service_used := "tesseract";
                           fallback_used := true |}) by reflexivity.
  split; [exact H|].
  exact (proj1 (@answer_flags three_services low_then_sure Samples.defaults _ H)).
Defined.

End MultiOCRMore.

(* ================================================================== *)
(** ** More facts about the matcher *)
(* ================================================================== *)

Module MatcherFacts.
Import JsString Regex RegexSpec.
Local Open Scope list_scope.

(** *** A match reads forward *)

Lemma reads_refl : forall x, reads x x.
Proof. intros x. exists []. reflexivity. Qed.

Lemma reads_trans : forall x y z, reads x y -> reads y z -> reads x z.
Proof.
  intros x y z [a Ha] [b Hb]. exists (a ++ b).
  rewrite Ha, Hb, app_assoc. reflexivity.
Qed.

Lemma step_char_inv :
  forall x p y,
    In y (step_char x p) ->
    exists c, rest x = c :: rest y /\ p c = true /\ caps y = caps x
              /\ prev y = Some c.
Proof.
  intros x p y. unfold step_char. destruct (rest x) as [|c s]; [intros []|].
  destruct (p c) eqn:E; [|intros []]. intros [<-|[]].
  exists c. repeat split. exact E.
Qed.

Section Repeat.

Variable stepf : mstate -> list mstate.
Variable I : mstate -> mstate -> Prop.
Hypothesis I_refl : forall x, I x x.
Hypothesis I_trans : forall x y z, I x y -> I y z -> I x z.
Hypothesis I_step : forall x y, In y (stepf x) -> I x y.

Lemma rep_opt_inv :
  forall greedy fuel max x y,
    In y (rep_opt stepf greedy fuel max x) -> I x y.
Proof.
  induction fuel as [|f IH]; intros max x y; cbn [rep_opt].
  - intros [<-|[]]. apply I_refl.
  - assert (Hmore : In y (flat_map
                            (fun z => if List.length (rest z) <? List.length (rest x)
                                      then rep_opt stepf greedy f (pred_max max) z
                                      else []) (stepf x)) -> I x y).
    { intros H. apply in_flat_map in H. destruct H as (z & Hz & H).
      destruct (List.length (rest z) <? List.length (rest x)); [|destruct H].
      eapply I_trans; [apply I_step; exact Hz | eapply IH; exact H]. }
    destruct max as [[|m]|].
    + intros [<-|[]]. apply I_refl.
    + destruct greedy; intros H.
      * apply in_app_or in H. destruct H as [H|[<-|[]]];
          [apply Hmore; exact H | apply I_refl].
      * destruct H as [<-|H]; [apply I_refl | apply Hmore; exact H].
    + destruct greedy; intros H.
      * apply in_app_or in H. destruct H as [H|[<-|[]]];
          [apply Hmore; exact H | apply I_refl].
      * destruct H as [<-|H]; [apply I_refl | apply Hmore; exact H].
Qed.

Lemma rep_req_inv :
  forall greedy min max x y,
    In y (rep_req stepf greedy min max x) -> I x y.
Proof.
  induction min as [|n IH]; intros max x y; cbn [rep_req].
  - apply rep_opt_inv.
  - assert (Hmore : In y (flat_map (rep_req stepf greedy n (pred_max max))
                                   (stepf x)) -> I x y).
    { intros H. apply in_flat_map in H. destruct H as (z & Hz & H).
      eapply I_trans; [apply I_step; exact Hz | eapply IH; exact H]. }
    destruct max as [[|m]|]; [intros [<-|[]]; apply I_refl | exact Hmore
                              | exact Hmore].
Qed.

End Repeat.

Lemma set_cap_rest : forall n x y, rest (set_cap n x y) = rest y.
Proof. reflexivity. Qed.

Lemma clear_caps_rest : forall gs x, rest (clear_caps gs x) = rest x.
Proof. reflexivity. Qed.

(** The input still to read after a match is a final part of the input
    before it. *)
Lemma matches_reads :
  forall fl r x y, In y (matches fl r x) -> reads x y.
Proof.
  intros fl. induction r as [|c| |neg items|r1 IH1 r2 IH2|r1 IH1 r2 IH2
                            |min max g r IH|n r IH| |];
    intros x y; cbn [matches].
  - intros [<-|[]]. apply reads_refl.
  - intros H. apply step_char_inv in H. destruct H as (a & H & _).
    exists [a]. exact H.
  - intros H. apply step_char_inv in H. destruct H as (a & H & _).
    exists [a]. exact H.
  - intros H. apply step_char_inv in H. destruct H as (a & H & _).
    exists [a]. exact H.
  - intros H. apply in_flat_map in H. destruct H as (z & Hz & H).
    eapply reads_trans; [apply IH1; exact Hz | apply IH2; exact H].
  - intros H. apply in_app_or in H. destruct H as [H|H]; auto.
  - apply rep_req_inv.
    + apply reads_refl.
    + apply reads_trans.
    + intros a b H. apply IH in H. destruct H as [pre H]. exists pre.
      exact H.
  - intros H. apply in_map_iff in H. destruct H as (z & <- & Hz).
    apply IH in Hz. destruct Hz as [pre H]. exists pre. exact H.
  - destruct (at_bol fl x); [intros [<-|[]]; apply reads_refl | intros []].
  - destruct (at_eol fl x); [intros [<-|[]]; apply reads_refl | intros []].
Qed.

(** *** What a match reads *)

Lemma reads_in_refl : forall p x, reads_in p x x.
Proof. intros p x. exists []. split; [reflexivity | constructor]. Qed.

Lemma reads_in_one :
  forall (p : char -> bool) a x y,
    rest x = a :: rest y -> p a = true -> reads_in p x y.
Proof.
  intros p a x y H Hp. exists [a].
  split; [exact H | repeat constructor; exact Hp].
Qed.

Lemma reads_in_weaken :
  forall (p q : char -> bool) x y,
    (forall c, p c = true -> q c = true) ->
    reads_in p x y -> reads_in q x y.
Proof.
  intros p q x y Hpq (u & Hu & Fu). exists u.
  split; [exact Hu|]. eapply Forall_impl; [|exact Fu]. exact Hpq.
Qed.

Lemma reads_in_trans :
  forall p x y z, reads_in p x y -> reads_in p y z -> reads_in p x z.
Proof.
  intros p x y z (u & Hu & Fu) (v & Hv & Fv).
  exists (u ++ v). rewrite Hu, Hv, app_assoc.
  split; [reflexivity | apply Forall_app; split; assumption].
Qed.

(** Every code unit that a match reads is of the alphabet of its
    pattern. *)
Lemma matches_alphabet :
  forall fl r x y,
    In y (matches fl r x) -> reads_in (alphabet fl r) x y.
Proof.
  intros fl. induction r as [|c| |neg items|r1 IH1 r2 IH2|r1 IH1 r2 IH2
                            |min max g r IH|n r IH| |];
    intros x y; cbn [matches].
  - intros [<-|[]]. apply reads_in_refl.
  - intros H. apply step_char_inv in H. destruct H as (a & H & Hp & _).
    exact (reads_in_one _ x y H Hp).
  - intros H. apply step_char_inv in H. destruct H as (a & H & Hp & _).
    exact (reads_in_one _ x y H Hp).
  - intros H. apply step_char_inv in H. destruct H as (a & H & Hp & _).
    exact (reads_in_one _ x y H Hp).
  - intros H. apply in_flat_map in H. destruct H as (z & Hz & H).
    eapply reads_in_trans.
    + eapply reads_in_weaken; [|apply IH1; exact Hz].
      intros c Hc. cbn [alphabet]. rewrite Hc. reflexivity.
    + eapply reads_in_weaken; [|apply IH2; exact H].
      intros c Hc. cbn [alphabet]. rewrite Hc. apply orb_true_r.
  - intros H. apply in_app_or in H. destruct H as [H|H].
    + eapply reads_in_weaken; [|apply IH1; exact H].
      intros c Hc. cbn [alphabet]. rewrite Hc. reflexivity.
    + eapply reads_in_weaken; [|apply IH2; exact H].
      intros c Hc. cbn [alphabet]. rewrite Hc. apply orb_true_r.
  - apply rep_req_inv.
    + apply reads_in_refl.
    + apply reads_in_trans.
    + intros a b H. apply IH in H. exact H.
  - intros H. apply in_map_iff in H. destruct H as (z & <- & Hz).
    apply IH in Hz. exact Hz.
  - destruct (at_bol fl x); [intros [<-|[]] | intros []].
    apply reads_in_refl.
  - destruct (at_eol fl x); [intros [<-|[]] | intros []].
    apply reads_in_refl.
Qed.

Lemma rep_req_exact :
  forall stepf greedy (w : nat),
    (forall x y, In y (stepf x) ->
                 exists pre, rest x = pre ++ rest y /\ List.length pre = w) ->
    forall n x y,
      In y (rep_req stepf greedy n (Some n) x) ->
      exists pre, rest x = pre ++ rest y /\ List.length pre = n * w.
Proof.
  intros stepf greedy w Hstep. induction n as [|n IH]; intros x y H.
  - cbn [rep_req rep_opt] in H. destruct H as [<-|[]].
    exists []. split; reflexivity.
  - cbn [rep_req pred_max option_map pred] in H.
    apply in_flat_map in H. destruct H as (z & Hz & H).
    destruct (Hstep _ _ Hz) as (u & Hu & Lu).
    destruct (IH _ _ H) as (v & Hv & Lv).
    exists (u ++ v). rewrite Hu, Hv, app_assoc, length_app. split;
      [reflexivity | cbn [Nat.mul]; lia].
Qed.

(** A match of a pattern of fixed width reads that many code units. *)
Lemma matches_width :
  forall fl r w x y,
    width r = Some w ->
    In y (matches fl r x) ->
    exists pre, rest x = pre ++ rest y /\ List.length pre = w.
Proof.
  intros fl. induction r as [|c| |neg items|r1 IH1 r2 IH2|r1 IH1 r2 IH2
                            |min max g r IH|n r IH| |];
    intros w x y; cbn [matches width].
  - intros Hw [<-|[]]. injection Hw as <-. exists []. split; reflexivity.
  - intros Hw H. injection Hw as <-. apply step_char_inv in H.
    destruct H as (a & H & _). exists [a]. split; [exact H | reflexivity].
  - intros Hw H. injection Hw as <-. apply step_char_inv in H.
    destruct H as (a & H & _). exists [a]. split; [exact H | reflexivity].
  - intros Hw H. injection Hw as <-. apply step_char_inv in H.
    destruct H as (a & H & _). exists [a]. split; [exact H | reflexivity].
  - destruct (width r1) as [a|]; [|discriminate].
    destruct (width r2) as [b|]; [|discriminate].
    intros Hw H. injection Hw as <-.
    apply in_flat_map in H. destruct H as (z & Hz & H).
    destruct (IH1 a x z eq_refl Hz) as (u & Hu & Lu).
    destruct (IH2 b z y eq_refl H) as (v & Hv & Lv).
    exists (u ++ v). rewrite Hu, Hv, app_assoc, length_app. split;
      [reflexivity | lia].
  - destruct (width r1) as [a|]; [|discriminate].
    destruct (width r2) as [b|]; [|discriminate].
    destruct (Nat.eqb a b) eqn:E; [|discriminate].
    apply Nat.eqb_eq in E. subst b.
    intros Hw H. injection Hw as <-. apply in_app_or in H.
    destruct H as [H|H]; [apply (IH1 a x y eq_refl H)
                         | apply (IH2 a x y eq_refl H)].
  - destruct max as [max|]; [|discriminate].
    destruct (width r) as [a|]; [|discriminate].
    destruct (Nat.eqb min max) eqn:E; [|discriminate].
    apply Nat.eqb_eq in E. subst max.
    intros Hw H. injection Hw as <-.
    revert H. apply rep_req_exact.
    intros u v Hv. apply (IH a _ v eq_refl) in Hv.
    rewrite clear_caps_rest in Hv. exact Hv.
  - intros Hw H. apply in_map_iff in H. destruct H as (z & <- & Hz).
    rewrite set_cap_rest. apply (IH w x z Hw Hz).
  - intros Hw. injection Hw as <-.
    destruct (at_bol fl x); [intros [<-|[]] | intros []].
    exists []. split; reflexivity.
  - intros Hw. injection Hw as <-.
    destruct (at_eol fl x); [intros [<-|[]] | intros []].
    exists []. split; reflexivity.
Qed.

(** The text of a group of fixed width: that many code units, each of the
    alphabet of the group. *)
Lemma group_shape :
  forall fl n r w x y,
    width r = Some w ->
    In y (matches fl (Grp n r) x) ->
    exists text,
      lookup_cap n (caps y) = Some text
      /\ List.length text = w
      /\ Forall (fun c => alphabet fl r c = true) text.
Proof.
  intros fl n r w x y Hw H. cbn [matches] in H. apply in_map_iff in H.
  destruct H as (z & <- & Hz).
  destruct (@matches_width fl r w x z Hw Hz) as (u & Hu & Lu).
  destruct (@matches_alphabet fl r x z Hz) as (v & Hv & Fv).
  assert (E : u = v).
  { apply (app_inv_tail (rest z)). rewrite <- Hu. exact Hv. }
  subst v. exists u. cbn [set_cap caps lookup_cap]. rewrite Nat.eqb_refl.
  refine (conj _ (conj Lu Fv)). f_equal.
  rewrite Hu, length_app.
  replace (List.length u + List.length (rest z) - List.length (rest z))
    with (List.length u) by lia.
  rewrite firstn_app, firstn_all, Nat.sub_diag. cbn [firstn].
  apply app_nil_r.
Qed.

(** What [exec] finds is a match at some place of the string. *)
Lemma exec_from_inv :
  forall fl r s p idx m,
    exec_from fl r p s idx = Some m ->
    exists x y, In y (matches fl r x) /\ caps x = [] /\ m_caps m = caps y.
Proof.
  intros fl r. induction s as [|c s IH]; intros p idx m;
    cbn [exec_from]; unfold first_at.
  - destruct (matches fl r {| rest := []; prev := p; caps := [] |})
      as [|y l] eqn:E; cbn [hd_error]; [discriminate|].
    intros H. injection H as <-.
    exists {| rest := []; prev := p; caps := [] |}, y.
    rewrite E. repeat split. left. reflexivity.
  - destruct (matches fl r {| rest := c :: s; prev := p; caps := [] |})
      as [|y l] eqn:E; cbn [hd_error]; [apply IH|].
    intros H. injection H as <-.
    exists {| rest := c :: s; prev := p; caps := [] |}, y.
    rewrite E. repeat split. left. reflexivity.
Qed.

(** *** A match writes only its own groups *)

Lemma lookup_cap_filter :
  forall n (p : nat * jsstring -> bool) l,
    (forall v, p (n, v) = true) ->
    lookup_cap n (filter p l) = lookup_cap n l.
Proof.
  intros n p l Hp. induction l as [|[k v] l IH]; [reflexivity|].
  cbn [filter lookup_cap]. destruct (p (k, v)) eqn:E; cbn [lookup_cap].
  - rewrite IH. reflexivity.
  - destruct (Nat.eqb k n) eqn:Ek; [|exact IH].
    apply Nat.eqb_eq in Ek. subst k. rewrite Hp in E. discriminate.
Qed.

Lemma matches_frame :
  forall fl r n x y,
    ~ In n (groups_of r) -> In y (matches fl r x) -> same_cap n x y.
Proof.
  intros fl. unfold same_cap.
  induction r as [|c| |neg items|r1 IH1 r2 IH2|r1 IH1 r2 IH2
                 |min max g r IH|k r IH| |];
    intros n x y Hn; cbn [matches groups_of] in *.
  - intros [<-|[]]. reflexivity.
  - intros H. apply step_char_inv in H. destruct H as (a & _ & _ & -> & _).
    reflexivity.
  - intros H. apply step_char_inv in H. destruct H as (a & _ & _ & -> & _).
    reflexivity.
  - intros H. apply step_char_inv in H. destruct H as (a & _ & _ & -> & _).
    reflexivity.
  - intros H. apply in_flat_map in H. destruct H as (z & Hz & H).
    rewrite (IH2 n z y), (IH1 n x z); auto;
      intros K; apply Hn, in_or_app; auto.
  - intros H. apply in_app_or in H. destruct H as [H|H];
      [apply IH1 | apply IH2]; auto; intros K; apply Hn, in_or_app; auto.
  - intros H.
    apply (@rep_req_inv _ (fun a b => lookup_cap n (caps b)
                                      = lookup_cap n (caps a))) in H.
    + exact H.
    + reflexivity.
    + intros a b c0 H1 H2. rewrite H2. exact H1.
    + intros a b Hb. rewrite (IH n _ b Hn Hb). cbn [clear_caps caps].
      apply lookup_cap_filter. intros v. cbn [fst].
      destruct (existsb (Nat.eqb n) (groups_of r)) eqn:E; [|reflexivity].
      apply existsb_exists in E. destruct E as (k & Hk & E).
      apply Nat.eqb_eq in E. subst k. contradiction.
  - intros H. apply in_map_iff in H. destruct H as (z & <- & Hz).
    cbn [set_cap caps lookup_cap].
    destruct (Nat.eqb k n) eqn:E.
    + apply Nat.eqb_eq in E. subst k. exfalso. apply Hn. left. reflexivity.
    + rewrite lookup_cap_filter.
      * apply IH; [|exact Hz]. intros K. apply Hn. right. exact K.
      * intros v. cbn [fst]. rewrite Nat.eqb_sym, E. reflexivity.
  - destruct (at_bol fl x); [intros [<-|[]]; reflexivity | intros []].
  - destruct (at_eol fl x); [intros [<-|[]]; reflexivity | intros []].
Qed.

(** A group holds what its pattern read. *)
Lemma matches_group :
  forall fl n r x y,
    In y (matches fl (Grp n r) x) ->
    exists pre, rest x = pre ++ rest y /\ lookup_cap n (caps y) = Some pre.
Proof.
  intros fl n r x y H. cbn [matches] in H. apply in_map_iff in H.
  destruct H as (z & <- & Hz). apply matches_reads in Hz.
  destruct Hz as [pre Hz]. exists pre. cbn [set_cap rest caps lookup_cap].
  rewrite Nat.eqb_refl. split; [exact Hz|]. f_equal.
  rewrite Hz, length_app.
  replace (List.length pre + List.length (rest z) - List.length (rest z))
    with (List.length pre) by lia.
  rewrite firstn_app, firstn_all, Nat.sub_diag. cbn [firstn].
  apply app_nil_r.
Qed.

(** *** Where a match may start *)

Lemma matches_first :
  forall fl r x y,
    In y (matches fl r x) ->
    (rest y = rest x /\ nullable r = true)
    \/ (exists c s, rest x = c :: s /\ first fl r c = true).
Proof.
  intros fl. induction r as [|c| |neg items|r1 IH1 r2 IH2|r1 IH1 r2 IH2
                            |min max g r IH|n r IH| |];
    intros x y; cbn [matches nullable first].
  - intros [<-|[]]. left. split; reflexivity.
  - intros H. apply step_char_inv in H. destruct H as (a & H & Hp & _).
    right. exists a, (rest y). split; assumption.
  - intros H. apply step_char_inv in H. destruct H as (a & H & Hp & _).
    right. exists a, (rest y). split; assumption.
  - intros H. apply step_char_inv in H. destruct H as (a & H & Hp & _).
    right. exists a, (rest y). split; assumption.
  - intros H. apply in_flat_map in H. destruct H as (z & Hz & H).
    destruct (IH1 _ _ Hz) as [[E1 N1]|(c & s & E1 & F1)].
    + destruct (IH2 _ _ H) as [[E2 N2]|(c & s & E2 & F2)].
      * left. rewrite N1, N2. split; [congruence | reflexivity].
      * right. exists c, s. rewrite <- E1, N1, F2.
        split; [exact E2 | apply orb_true_r].
    + right. exists c, s. rewrite F1. split; [exact E1 | reflexivity].
  - intros H. apply in_app_or in H. destruct H as [H|H].
    + destruct (IH1 _ _ H) as [[E N]|(c & s & E & F)].
      * left. rewrite N. split; [exact E | reflexivity].
      * right. exists c, s. rewrite F. split; [exact E | reflexivity].
    + destruct (IH2 _ _ H) as [[E N]|(c & s & E & F)].
      * left. rewrite N. split; [exact E | apply orb_true_r].
      * right. exists c, s. rewrite F. split; [exact E | apply orb_true_r].
  - intros H.
    destruct (Nat.eqb min 0 || nullable r
              || match max with Some O => true | _ => false end) eqn:En.
    2:{ apply orb_false_iff in En. destruct En as [En E3].
        apply orb_false_iff in En. destruct En as [E1 E2].
        destruct min as [|n]; [discriminate|]. cbn [rep_req] in H.
        right.
        assert (Hmore : In y (flat_map (rep_req
                                 (fun y0 => matches fl r
                                              (clear_caps (groups_of r) y0))
                                 g n (pred_max max))
                                 (matches fl r (clear_caps (groups_of r) x))))
          by (destruct max as [[|m]|]; [discriminate | exact H | exact H]).
        apply in_flat_map in Hmore. destruct Hmore as (z & Hz & _).
        apply IH in Hz. rewrite clear_caps_rest in Hz.
        destruct Hz as [[_ N]|Hz]; [congruence | exact Hz]. }
    apply (@rep_req_inv _ (fun a b =>
             rest b = rest a
             \/ exists c s, rest a = c :: s /\ first fl r c = true)) in H.
    + destruct H as [H|H]; [left; split; trivial | right; exact H].
    + intros a. left. reflexivity.
    + intros a b c0 [H1|H1] [H2|H2].
      * left. congruence.
      * right. rewrite <- H1. exact H2.
      * right. exact H1.
      * right. exact H1.
    + intros a b Hb. apply IH in Hb. rewrite clear_caps_rest in Hb.
      destruct Hb as [[E _]|Hb]; [left; exact E | right; exact Hb].
  - intros H. apply in_map_iff in H. destruct H as (z & <- & Hz).
    rewrite set_cap_rest. apply IH. exact Hz.
  - destruct (at_bol fl x); [intros [<-|[]]; left; split; reflexivity
                            | intros []].
  - destruct (at_eol fl x); [intros [<-|[]]; left; split; reflexivity
                            | intros []].
Qed.

(** A pattern that must read a code unit finds nothing in a string none
    of whose code units may start a match. *)
Lemma exec_from_none :
  forall fl r s p idx,
    nullable r = false ->
    (forall c, In c s -> first fl r c = false) ->
    exec_from fl r p s idx = None.
Proof.
  intros fl r. induction s as [|c s IH]; intros p idx Hn Hs;
    cbn [exec_from]; unfold first_at.
  - destruct (matches fl r {| rest := []; prev := p; caps := [] |})
      as [|y l] eqn:E; [reflexivity|].
    assert (Hy : In y (matches fl r {| rest := []; prev := p; caps := [] |}))
      by (rewrite E; left; reflexivity).
    apply matches_first in Hy. destruct Hy as [[_ N]|(a & t & Ha & _)];
      [congruence | discriminate].
  - destruct (matches fl r {| rest := c :: s; prev := p; caps := [] |})
      as [|y l] eqn:E.
    + cbn [hd_error]. apply IH; [exact Hn|].
      intros a Ha. apply Hs. right. exact Ha.
    + assert (Hy : In y (matches fl r {| rest := c :: s; prev := p;
                                         caps := [] |}))
        by (rewrite E; left; reflexivity).
      apply matches_first in Hy. destruct Hy as [[_ N]|(a & t & Ha & F)];
        [congruence|].
      cbn [rest] in Ha. injection Ha as <- <-.
      rewrite Hs in F by (left; reflexivity). discriminate.
Qed.

Lemma exec_none :
  forall fl r s,
    nullable r = false ->
    (forall c, In c s -> first fl r c = false) ->
    exec fl r s = None.
Proof. intros. apply exec_from_none; assumption. Qed.

(** Without the [m] flag, a pattern that starts with [^] matches at the
    head of the string or nowhere. *)
Lemma exec_from_anchored_later :
  forall fl r s c idx,
    multiline fl = false ->
    exec_from fl (Seq Bol r) (Some c) s idx = None.
Proof.
  intros fl r. induction s as [|a s IH]; intros c idx Hm;
    cbn [exec_from]; unfold first_at; cbn [matches at_bol prev];
    rewrite Hm; cbn [andb flat_map hd_error]; [reflexivity|].
  apply IH. exact Hm.
Qed.

Lemma exec_anchored :
  forall fl r s m,
    multiline fl = false ->
    exec fl (Seq Bol r) s = Some m ->
    exists y, In y (matches fl r (start s)) /\ m_caps m = caps y.
Proof.
  intros fl r s m Hm. unfold exec.
  destruct s as [|c s]; cbn [exec_from]; unfold first_at;
    cbn [matches at_bol prev flat_map]; rewrite app_nil_r;
    [fold (start []) | fold (start (c :: s))].
  - destruct (matches fl r (start [])) as [|y l] eqn:E; [discriminate|].
    cbn [hd_error]. intros H. injection H as <-. exists y.
    split; [left; reflexivity | reflexivity].
  - destruct (matches fl r (start (c :: s))) as [|y l] eqn:E.
    + cbn [hd_error]. rewrite exec_from_anchored_later by exact Hm.
      discriminate.
    + cbn [hd_error]. intros H. injection H as <-. exists y.
      split; [left; reflexivity | reflexivity].
Qed.

(** A required iteration of a class reads a code unit. *)
Lemma repeat_class_reads :
  forall fl n neg items g x y,
    In y (matches fl (Rep (S n) None g (Cls neg items)) x) ->
    exists c pre, rest x = c :: pre ++ rest y.
Proof.
  intros fl n neg items g x y H. cbn [matches rep_req] in H.
  apply in_flat_map in H. destruct H as (z & Hz & H).
  cbn [groups_of] in Hz. apply step_char_inv in Hz.
  destruct Hz as (c & Hc & _). rewrite clear_caps_rest in Hc.
  assert (Hr : reads z y).
  { revert H. apply rep_req_inv.
    - apply reads_refl.
    - apply reads_trans.
    - intros a b Hb. apply step_char_inv in Hb. destruct Hb as (c0 & Hb & _).
      exists [c0]. exact Hb. }
  destruct Hr as [pre Hr]. exists c, pre. rewrite Hc, Hr. reflexivity.
Qed.

(** The text of the first group of an anchored pattern that starts with
    the group, a required repetition of a class: one code unit of the
    string or more, from its head. *)
Lemma anchored_group_text :
  forall fl k n neg items g r s m,
    multiline fl = false ->
    ~ In k (groups_of r) ->
    exec fl (Seq Bol (Seq (Grp k (Rep (S n) None g (Cls neg items))) r)) s
    = Some m ->
    exists c pre post, s = c :: pre ++ post /\ group m k = Some (c :: pre).
Proof.
  intros fl k n neg items g r s m Hm Hk H.
  apply exec_anchored in H; [|exact Hm]. destruct H as (y & Hy & Hc).
  set (R := Rep (S n) None g (Cls neg items)) in *.
  change (In y (flat_map (matches fl r) (matches fl (Grp k R) (start s))))
    in Hy.
  apply in_flat_map in Hy. destruct Hy as (z & Hz & Hy).
  destruct (@matches_group fl k R (start s) z Hz) as (cap & Hs & Hcap).
  change (In z (map (set_cap k (start s)) (matches fl R (start s)))) in Hz.
  apply in_map_iff in Hz. destruct Hz as (w & Ew & Hw).
  unfold R in Hw. apply repeat_class_reads in Hw.
  destruct Hw as (c & pre & Hw).
  cbn [start rest] in Hs, Hw.
  assert (Erest : rest z = rest w) by (rewrite <- Ew; reflexivity).
  rewrite <- Erest in Hw.
  assert (Ecap : cap = c :: pre).
  { apply (app_inv_tail (rest z)). rewrite <- Hs. exact Hw. }
  exists c, pre, (rest z). split; [exact Hw|].
  unfold group. rewrite Hc.
  rewrite (@matches_frame fl r k z y Hk Hy).
  rewrite Hcap, Ecap. reflexivity.
Qed.

End MatcherFacts.

(* ================================================================== *)
(** ** More facts about the extraction engine *)
(* ================================================================== *)

Module ReceiptMore.
Import JsString Regex JsNum Receipt Samples ReceiptFacts ReceiptSpec RegexSpec
  MatcherFacts.
Local Open Scope string_scope.
Local Open Scope list_scope.

(** *** A property of every item, and a property of the scalar fields *)

Section OnEveryItem.

Variable random36 : nat -> jsstring.
Variable numToString : jsnum -> jsstring.
Variable now : jsstring.

(** A property that the object literal shared by seven builders has, and
    the item of extractItem too. *)
Variable P : LineItem -> Prop.
Hypothesis P_mkItem :
  forall n productName q price text,
    P (mkItem random36 n productName q price text).
Hypothesis P_extractItem :
  forall n line it, extractItem random36 n line = Some it -> P it.

Lemma push_all : forall it r, all_items P r -> P it -> all_items P (push it r).
Proof.
  intros it r Hr Hit. unfold all_items, push, with_items; simpl.
  apply Forall_app; split; [exact Hr | constructor; [exact Hit | constructor]].
Qed.

Lemma push_opt_all :
  forall o r,
    all_items P r -> (forall it, o = Some it -> P it) ->
    all_items P (push_opt o r).
Proof.
  intros [it|] r Hr Ho; simpl; [apply push_all; auto | exact Hr].
Qed.

Lemma fallbackItem_from_all :
  forall pats n line it,
    fallbackItem_from random36 pats n line = Some it -> P it.
Proof.
  induction pats as [|r pats IH]; intros n line it; simpl; [discriminate|].
  destruct (exec icase r line) as [m|]; [|apply IH].
  destruct (isNotAProduct _); [apply IH|].
  intros H; injection H as <-. apply P_mkItem.
Qed.

Lemma parseEDEKATableRow_all :
  forall n line it, parseEDEKATableRow random36 n line = Some it -> P it.
Proof.
  intros n line it. unfold parseEDEKATableRow. split_tests;
    try discriminate; intros H; injection H as <-; apply P_mkItem.
Qed.

Lemma parseTableRow_all :
  forall n columns it, parseTableRow random36 n columns = Some it -> P it.
Proof.
  intros n columns it. unfold parseTableRow.
  destruct (nth_error columns 0) as [itemName|]; [|discriminate].
  split_tests; try discriminate; intros H; injection H as <-; apply P_mkItem.
Qed.

Lemma parseListItem_from_all :
  forall pats n line it,
    parseListItem_from random36 pats n line = Some it -> P it.
Proof.
  induction pats as [|r pats IH]; intros n line it; simpl; [discriminate|].
  destruct (exec plain r line) as [m|]; [|apply IH].
  intros H; injection H as <-. apply P_mkItem.
Qed.

Lemma parseNewListItem_all :
  forall n line following it,
    parseNewListItem random36 n line following = Some it -> P it.
Proof.
  intros n line following it. unfold parseNewListItem.
  destruct (exec plain re_product_bullet line); [|discriminate].
  destruct (scanNewListItem _ _ _).
  intros H; injection H as <-. apply P_mkItem.
Qed.

Lemma andThen_all :
  forall x k,
    all_items P (flow_result x) ->
    (forall v r, all_items P r -> all_items P (flow_result (k v r))) ->
    all_items P (flow_result (andThen x k)).
Proof.
  intros [v r|v r] k Hx Hk; simpl in *; auto.
Qed.

Lemma structuredLine_all :
  forall raw following v r,
    all_items P r ->
    all_items P
      (snd (structuredLine random36 numToString raw following v r)).
Proof.
  intros raw following v r Hr. unfold structuredLine.
  destruct (_ || _); [exact Hr|].
  rewrite finish_result.
  apply andThen_all.
  { unfold productsSection.
    split_tests; simpl; try exact Hr; apply push_all; auto. }
  intros v1 r1 H1. apply andThen_all.
  { unfold pipeTable.
    split_tests; simpl; try exact H1; apply push_all; auto. }
  intros v2 r2 H2. apply andThen_all.
  { unfold edekaTable. split_tests; simpl; try exact H2.
    apply push_opt_all; [exact H2 | apply parseEDEKATableRow_all]. }
  intros v3 r3 H3. apply andThen_all.
  { unfold standardTable. split_tests; simpl; try exact H3.
    apply push_opt_all; [exact H3 | apply parseTableRow_all]. }
  intros v4 r4 H4. apply andThen_all.
  { unfold itemsSection. split_tests; simpl; try exact H4.
    apply push_opt_all; [exact H4 | apply parseListItem_from_all]. }
  intros v5 r5 H5. unfold itemsPurchased. split_tests; simpl; try exact H5.
  apply push_opt_all; [exact H5 | apply parseNewListItem_all].
Qed.

Lemma structuredLoop_all :
  forall lines v r,
    all_items P r ->
    all_items P (structuredLoop random36 numToString lines v r).
Proof.
  induction lines as [|raw following IH]; intros v r Hr; simpl; [exact Hr|].
  pose proof (structuredLine_all raw following v Hr) as H.
  destruct (structuredLine random36 numToString raw following v r) as [v' r'].
  apply IH. exact H.
Qed.

Lemma lineData_all :
  forall line r, all_items P r -> all_items P (lineData random36 line r).
Proof.
  intros line r Hr. unfold lineData.
  destruct (nonempty (trim line)); [|exact Hr].
  match goal with |- context [Nat.eqb ?a ?b] => destruct (Nat.eqb a b) end;
    [|exact Hr].
  apply push_opt_all; [exact Hr | apply P_extractItem].
Qed.

Lemma extractLineData_all :
  forall lines r,
    all_items P r -> all_items P (extractLineData random36 lines r).
Proof.
  unfold extractLineData.
  induction lines as [|line lines IH]; intros r Hr; simpl; [exact Hr|].
  apply IH, lineData_all, Hr.
Qed.

Lemma potentialItems_all :
  forall lines n, Forall P (fst (potentialItems random36 lines n)).
Proof.
  induction lines as [|line lines IH]; intros n; cbn [potentialItems];
    [constructor|].
  destruct (_ || _); [apply IH|].
  destruct (fallbackItem_from _ _ _ _) as [it|] eqn:E; [|apply IH].
  specialize (IH (S n)).
  destruct (potentialItems random36 lines (S n)) as [l n']; cbn [fst] in *.
  constructor; [eapply fallbackItem_from_all; exact E | exact IH].
Qed.

Lemma uniqueItems_all :
  forall l seen, Forall P l -> Forall P (uniqueItems seen l).
Proof.
  induction l as [|it l IH]; intros seen H; simpl; [constructor|].
  inversion H; subst.
  destruct (existsb _ seen); [apply IH; assumption|].
  constructor; [assumption | apply IH; assumption].
Qed.

Lemma extractItemsFallback_all :
  forall markdown r,
    all_items P r -> all_items P (extractItemsFallback random36 markdown r).
Proof.
  intros markdown r Hr. unfold extractItemsFallback.
  pose proof (potentialItems_all (split_on LF markdown) (draws r)) as H.
  destruct (potentialItems _ _ _) as [potential n]; simpl in *.
  unfold all_items, with_items; simpl.
  apply Forall_app; split; [exact Hr | apply uniqueItems_all, H].
Qed.

Lemma pattern_items :
  forall markdown r, items (extractPatternData markdown r) = items r.
Proof.
  intros markdown r. unfold extractPatternData. split_tests; reflexivity.
Qed.

(** Every item of the receipt has the property. *)
Lemma every_item :
  forall markdown,
    Forall P (items (parseMarkdown random36 numToString now markdown)).
Proof.
  intros markdown. unfold parseMarkdown.
  assert (H3 : all_items P (extractPatternData markdown
                      (extractLineData random36 (split_on LF markdown)
                         (extractStructuredData random36 numToString
                            (split_on LF markdown) (initial now markdown))))).
  { unfold all_items. rewrite pattern_items.
    apply extractLineData_all. unfold extractStructuredData.
    apply structuredLoop_all. constructor. }
  match goal with |- context [Nat.eqb ?a ?b] => destruct (Nat.eqb a b) end;
    [apply extractItemsFallback_all|]; exact H3.
Qed.

End OnEveryItem.

Section OnScalars.

Variable random36 : nat -> jsstring.
Variable numToString : jsnum -> jsstring.
Variable now : jsstring.

(** A property of the scalar fields and of the text kept with them that
    holds at the start and that the pass over the lines and the pass over
    the document keep. *)
Variable Q : Result -> Prop.
Hypothesis Q_only_scalars :
  forall r r',
    scalars_of r' = scalars_of r -> raw_markdown r' = raw_markdown r ->
    Q r -> Q r'.
Variable markdown : jsstring.
Hypothesis Q_initial : Q (initial now markdown).
Hypothesis Q_line :
  forall line r,
    Q r ->
    Q (with_fields (extractMetadata line (metadata r))
                   (extractStoreInfo line (store r))
                   (extractTotals line (totals r))
                   (extractPaymentInfo line (payment r))
                   (extractCashierInfo line (cashier_info r))
                   (extractFiscalInfo line (fiscal_info r))
                   (extractLoyaltyInfo line (loyalty r)) r).
Hypothesis Q_pattern :
  forall text r, Q r -> Q (extractPatternData text r).

Lemma push_opt_raw :
  forall o r, raw_markdown (push_opt o r) = raw_markdown r.
Proof. intros [it|] r; reflexivity. Qed.

Lemma andThen_raw :
  forall x k r,
    raw_markdown (flow_result x) = raw_markdown r ->
    (forall v r', raw_markdown (flow_result (k v r')) = raw_markdown r') ->
    raw_markdown (flow_result (andThen x k)) = raw_markdown r.
Proof.
  intros [v a|v a] k r Hx Hk; cbn [andThen flow_result] in *;
    [exact Hx | rewrite Hk; exact Hx].
Qed.

Lemma structuredLine_raw :
  forall raw following v r,
    raw_markdown (snd (structuredLine random36 numToString raw following v r))
    = raw_markdown r.
Proof.
  intros raw following v r. unfold structuredLine.
  destruct (_ || _); [reflexivity|]. rewrite finish_result.
  apply andThen_raw.
  { unfold productsSection. split_tests; reflexivity. }
  intros v1 r1. apply andThen_raw.
  { unfold pipeTable. split_tests; reflexivity. }
  intros v2 r2. apply andThen_raw.
  { unfold edekaTable. split_tests; cbn [flow_result];
      rewrite ?push_opt_raw; reflexivity. }
  intros v3 r3. apply andThen_raw.
  { unfold standardTable. split_tests; cbn [flow_result];
      rewrite ?push_opt_raw; reflexivity. }
  intros v4 r4. apply andThen_raw.
  { unfold itemsSection. split_tests; cbn [flow_result];
      rewrite ?push_opt_raw; reflexivity. }
  intros v5 r5. unfold itemsPurchased. split_tests; cbn [flow_result];
    rewrite ?push_opt_raw; reflexivity.
Qed.

Lemma structuredLoop_raw :
  forall lines v r,
    raw_markdown (structuredLoop random36 numToString lines v r)
    = raw_markdown r.
Proof.
  induction lines as [|raw following IH]; intros v r; cbn [structuredLoop];
    [reflexivity|].
  pose proof (structuredLine_raw raw following v r) as H.
  destruct (structuredLine random36 numToString raw following v r) as [v' r'].
  rewrite IH. exact H.
Qed.

Lemma lineData_scalars_inv :
  forall line r, Q r -> Q (lineData random36 line r).
Proof.
  intros line r Hr. unfold lineData.
  destruct (nonempty (trim line)); [|exact Hr].
  pose proof (Q_line (trim line) Hr) as H.
  match goal with |- context [Nat.eqb ?a ?b] => destruct (Nat.eqb a b) end;
    [|exact H].
  eapply Q_only_scalars; [| |exact H];
    [apply push_opt_scalars | apply push_opt_raw].
Qed.

Lemma extractLineData_scalars_inv :
  forall lines r, Q r -> Q (extractLineData random36 lines r).
Proof.
  unfold extractLineData.
  induction lines as [|line lines IH]; intros r Hr; simpl; [exact Hr|].
  apply IH, lineData_scalars_inv, Hr.
Qed.

(** The receipt has the property. *)
Lemma scalars_inv : Q (parseMarkdown random36 numToString now markdown).
Proof.
  unfold parseMarkdown.
  assert (H1 : Q (extractStructuredData random36 numToString
                    (split_on LF markdown) (initial now markdown))).
  { eapply Q_only_scalars; [| |apply Q_initial].
    - apply structuredLoop_scalars.
    - apply structuredLoop_raw. }
  pose proof (Q_pattern markdown (extractLineData_scalars_inv
                                    (split_on LF markdown) H1)) as H3.
  match goal with |- context [Nat.eqb ?a ?b] => destruct (Nat.eqb a b) end;
    [|exact H3].
  eapply Q_only_scalars; [| |exact H3].
  - apply extractItemsFallback_scalars.
  - unfold extractItemsFallback. destruct (potentialItems _ _ _). reflexivity.
Qed.

End OnScalars.

(** *** The passes write the receipt only *)

Section Untouched.

Variable random36 : nat -> jsstring.
Variable numToString : jsnum -> jsstring.
Variable now : jsstring.

Lemma push_opt_outside :
  forall o r, outside_receipt (push_opt o r) = outside_receipt r.
Proof. intros [it|] r; reflexivity. Qed.

Lemma andThen_outside :
  forall x k r,
    outside_receipt (flow_result x) = outside_receipt r ->
    (forall v r',
        outside_receipt (flow_result (k v r')) = outside_receipt r') ->
    outside_receipt (flow_result (andThen x k)) = outside_receipt r.
Proof.
  intros [v a|v a] k r Hx Hk; cbn [andThen flow_result] in *;
    [exact Hx | rewrite Hk; exact Hx].
Qed.

Lemma structuredLine_outside :
  forall raw following v r,
    outside_receipt
      (snd (structuredLine random36 numToString raw following v r))
    = outside_receipt r.
Proof.
  intros raw following v r. unfold structuredLine.
  destruct (_ || _); [reflexivity|]. rewrite finish_result.
  apply andThen_outside.
  { unfold productsSection. split_tests; reflexivity. }
  intros v1 r1. apply andThen_outside.
  { unfold pipeTable. split_tests; reflexivity. }
  intros v2 r2. apply andThen_outside.
  { unfold edekaTable. split_tests; cbn [flow_result];
      rewrite ?push_opt_outside; reflexivity. }
  intros v3 r3. apply andThen_outside.
  { unfold standardTable. split_tests; cbn [flow_result];
      rewrite ?push_opt_outside; reflexivity. }
  intros v4 r4. apply andThen_outside.
  { unfold itemsSection. split_tests; cbn [flow_result];
      rewrite ?push_opt_outside; reflexivity. }
  intros v5 r5. unfold itemsPurchased. split_tests; cbn [flow_result];
    rewrite ?push_opt_outside; reflexivity.
Qed.

Lemma extractStructuredData_outside :
  forall lines r,
    outside_receipt (extractStructuredData random36 numToString lines r)
    = outside_receipt r.
Proof.
  intros lines. unfold extractStructuredData. generalize initLocals.
  induction lines as [|raw following IH]; intros v r; cbn [structuredLoop];
    [reflexivity|].
  pose proof (structuredLine_outside raw following v r) as H.
  destruct (structuredLine random36 numToString raw following v r) as [v' r'].
  rewrite IH. exact H.
Qed.

Lemma extractLineData_outside :
  forall lines r,
    outside_receipt (extractLineData random36 lines r) = outside_receipt r.
Proof.
  unfold extractLineData.
  induction lines as [|line lines IH]; intros r; cbn [fold_left];
    [reflexivity|].
  rewrite IH. unfold lineData.
  destruct (nonempty (trim line)); [|reflexivity].
  match goal with |- context [Nat.eqb ?a ?b] => destruct (Nat.eqb a b) end;
    rewrite ?push_opt_outside; reflexivity.
Qed.

Lemma extractPatternData_outside :
  forall text r,
    outside_receipt (extractPatternData text r) = outside_receipt r.
Proof.
  intros text r. unfold extractPatternData. split_fields; reflexivity.
Qed.

Lemma extractItemsFallback_outside :
  forall text r,
    outside_receipt (extractItemsFallback random36 text r)
    = outside_receipt r.
Proof.
  intros text r. unfold extractItemsFallback.
  destruct (potentialItems _ _ _). reflexivity.
Qed.

(** X27. The four passes over the text write the receipt and nothing
    else of the object that [parseMarkdown] returns: the OCR data keep the
    text and their two empty fields, and the information on the processing
    is as the object literal made it, the reading of the clock as its time
    stamp and three constants. *)
Theorem passes_write_the_receipt_only :
  forall (markdown : jsstring) (lines : list jsstring) (r : Result),
    (outside_receipt (extractStructuredData random36 numToString lines r)
     = outside_receipt r
     /\ outside_receipt (extractLineData random36 lines r)
        = outside_receipt r
     /\ outside_receipt (extractPatternData markdown r) = outside_receipt r
     /\ outside_receipt (extractItemsFallback random36 markdown r)
        = outside_receipt r)
    /\ outside_receipt (parseMarkdown random36 numToString now markdown)
       = (markdown, None, None,
          {| timestamp := now; version := js "1.0.0";
             ocr_model := js "Llama-3.2-11B-Vision";
             parser_version := js "1.0.0" |}).
Proof.
  intros markdown lines r. split.
  - refine (conj _ (conj _ (conj _ _))).
    + apply extractStructuredData_outside.
    + apply extractLineData_outside.
    + apply extractPatternData_outside.
    + apply extractItemsFallback_outside.
  - unfold parseMarkdown. cbv zeta.
    match goal with |- context [Nat.eqb ?a ?b] => destruct (Nat.eqb a b) end;
      rewrite ?extractItemsFallback_outside, extractPatternData_outside,
        extractLineData_outside, extractStructuredData_outside;
      reflexivity.
Qed.

End Untouched.


(** *** Fields that stay empty, and fields of a fixed vocabulary *)

Section Fields.

Variable random36 : nat -> jsstring.
Variable numToString : jsnum -> jsstring.
Variable now : jsstring.

Lemma extractItem_from_literal :
  forall pats n line it,
    extractItem_from random36 pats n line = Some it ->
    category it = None /\ matched it = false
    /\ brand it = extractBrand (product_name it)
    /\ item_code it = generateItemCode random36 n (product_name it)
    /\ line_text it = line
    /\ nonempty (product_name it) = true
    /\ exists p, total_price it = Some p /\ truthy p = true /\ gt0 p = true.
Proof.
  induction pats as [|r pats IH]; intros n line it; simpl; [discriminate|].
  destruct (exec icase r line) as [m|]; [|apply IH].
  destruct (parsePrice _) as [p|]; [|apply IH].
  destruct (nonempty _ && truthy p && gt0 p) eqn:E; [|apply IH].
  apply andb_true_iff in E. destruct E as [E E3].
  apply andb_true_iff in E. destruct E as [E1 E2].
  intros H; injection H as <-. cbn.
  repeat split; try assumption. exists p. repeat split; assumption.
Qed.

(** X9. Ten fields of the receipt are never filled, whatever the text:
    eight scalar fields stay null, and every item has no category and is
    not matched.  The receipt keeps the text it was read from and the
    currency EUR. *)
Theorem fields_never_filled :
  forall (markdown : jsstring),
    let r := parseMarkdown random36 numToString now markdown in
    raw_markdown r = markdown
    /\ currency (totals r) = js "EUR"
    /\ vat_rate (totals r) = None
    /\ receipt_number (metadata r) = None
    /\ transaction_id (metadata r) = None
    /\ change (payment r) = None
    /\ card_number (payment r) = None
    /\ signature_data (fiscal_info r) = None
    /\ fiscal_data (fiscal_info r) = None
    /\ points_balance (loyalty r) = None
    /\ Forall (fun it => category it = None /\ matched it = false) (items r).
Proof.
  intros markdown r.
  pose (Q := fun r : Result =>
               raw_markdown r = markdown
               /\ currency (totals r) = js "EUR"
               /\ vat_rate (totals r) = None
               /\ receipt_number (metadata r) = None
               /\ transaction_id (metadata r) = None
               /\ change (payment r) = None
               /\ card_number (payment r) = None
               /\ signature_data (fiscal_info r) = None
               /\ fiscal_data (fiscal_info r) = None
               /\ points_balance (loyalty r) = None).
  assert (HQ : Q r).
  { apply scalars_inv; unfold Q.
    - intros a b Hs Hr. unfold scalars_of in Hs.
      injection Hs as E1 E2 E3 E4 E5 E6 E7.
      rewrite ?E1, ?E2, ?E3, ?E4, ?E5, ?E6, ?E7, Hr. tauto.
    - repeat split.
    - intros line [m s i t p c f l w d]. fields.
      intros (H0 & H1 & H2 & H3 & H4 & H5 & H6 & H7 & H8 & H9).
      refine (conj H0 (conj _ (conj _ (conj _ (conj _ (conj _ (conj _
                (conj _ (conj _ _)))))))));
        [rewrite <- H1 | rewrite <- H2 | rewrite <- H3 | rewrite <- H4
         | rewrite <- H5 | rewrite <- H6 | rewrite <- H7 | rewrite <- H8
         | rewrite <- H9];
        clear; [unfold extractTotals | unfold extractTotals
                | unfold extractMetadata | unfold extractMetadata
                | unfold extractPaymentInfo | unfold extractPaymentInfo
                | unfold extractFiscalInfo | unfold extractFiscalInfo
                | unfold extractLoyaltyInfo];
        split_tests; reflexivity.
    - intros text [m s i t p c f l w d]. unfold extractPatternData. fields.
      intros H. split_fields; exact H. }
  destruct HQ as (H0 & H1 & H2 & H3 & H4 & H5 & H6 & H7 & H8 & H9).
  refine (conj H0 (conj H1 (conj H2 (conj H3 (conj H4 (conj H5 (conj H6
            (conj H7 (conj H8 (conj H9 _)))))))))).
  apply every_item.
  - intros. split; reflexivity.
  - intros n line it. unfold extractItem.
    destruct (isHeaderOrTotal line); [discriminate|].
    intros H. apply extractItem_from_literal in H. tauto.
Qed.

(** X10. The brand and the code of every item are functions of its product
    name: the brand is what extractBrand reads in the name, and the code is
    what generateItemCode makes of the name with one of the random draws of
    the run. *)
Theorem brand_and_code_come_from_the_name :
  forall (markdown : jsstring),
    Forall (fun it =>
              brand it = extractBrand (product_name it)
              /\ exists n, item_code it
                           = generateItemCode random36 n (product_name it))
           (items (parseMarkdown random36 numToString now markdown)).
Proof.
  intros markdown. apply every_item.
  - intros. split; [reflexivity|]. exists n. reflexivity.
  - intros n line it. unfold extractItem.
    destruct (isHeaderOrTotal line); [discriminate|].
    intros H. apply extractItem_from_literal in H.
    destruct H as (_ & _ & Hb & Hc & _). split; [exact Hb|].
    exists n. exact Hc.
Qed.

Lemma firstTotal_positive :
  forall pats text a,
    firstTotal pats text = Some a -> truthy a = true /\ gt0 a = true.
Proof.
  induction pats as [|[fl r] pats IH]; intros text a; cbn [firstTotal];
    [discriminate|].
  destruct (exec fl r text) as [m|]; [|apply IH].
  destruct (parsePrice (group m 1)) as [p|]; [|apply IH].
  destruct (truthy p && gt0 p) eqn:E; [|apply IH].
  intros H; injection H as <-. apply andb_true_iff in E. exact E.
Qed.

(** X11. The total of a receipt, when the receipt has one, is a number above
    zero: it is never zero, a negative number or NaN. *)
Theorem total_amount_is_positive :
  forall (markdown : jsstring) (amount : jsnum),
    total_amount (totals (parseMarkdown random36 numToString now markdown))
    = Some amount ->
    gt0 amount = true /\ isNaN amount = false.
Proof.
  intros markdown amount.
  pose (Q := fun r : Result =>
               forall a, total_amount (totals r) = Some a -> gt0 a = true).
  assert (HQ : Q (parseMarkdown random36 numToString now markdown)).
  { apply scalars_inv; unfold Q.
    - intros a b Hs _. unfold scalars_of in Hs.
      injection Hs as _ _ E3 _ _ _ _. rewrite E3. tauto.
    - intros a; discriminate.
    - intros line [m s i t p c f l w d]. fields. intros H a.
      unfold extractTotals. unfold extractTotal.
      destruct (num_set (total_amount t)) eqn:E1.
      + split_tests; cbn; apply H.
      + destruct (firstTotal lineTotalPatterns line) as [b|] eqn:E2.
        * apply firstTotal_positive in E2. destruct E2 as [E2 E3].
          cbn [num_set]. rewrite E2.
          split_tests; cbn; intros K; injection K as <-; exact E3.
        * cbn [num_set]. split_tests; cbn; apply H.
    - intros text [m s i t p c f l w d]. unfold extractPatternData. fields.
      intros H a.
      destruct (num_set (total_amount t)) eqn:E1.
      + split_fields; cbn; apply H.
      + destruct (firstTotal documentTotalPatterns text) as [b|] eqn:E2.
        * apply firstTotal_positive in E2. destruct E2 as [E2 E3].
          split_fields; cbn; intros K; injection K as <-; exact E3.
        * split_fields; cbn; apply H. }
  intros H. pose proof (HQ _ H) as Hpos. split; [exact Hpos|].
  destruct amount; [reflexivity | reflexivity | discriminate].
Qed.

Lemma findStore_In :
  forall pats line n chain,
    findStore pats line = Some (n, chain) ->
    exists pattern, In (pattern, n, chain) pats.
Proof.
  induction pats as [|[[pattern n0] chain0] pats IH]; intros line n chain;
    cbn [findStore]; [discriminate|].
  destruct (test icase pattern line && includes (cleanName line) (js n0)).
  - intros H; injection H as <- <-. exists pattern. left. reflexivity.
  - intros H. destruct (IH _ _ _ H) as [p Hp]. exists p. right. exact Hp.
Qed.

(** X14. Four fields take their values from a fixed vocabulary: the name of
    the store and its chain are those of one row of the table of known
    stores (or both null), the card type is VISA, EC or null, and the
    loyalty program is PAYBACK when points were read and null otherwise. *)
Theorem fields_of_a_fixed_vocabulary :
  forall (markdown : jsstring),
    let r := parseMarkdown random36 numToString now markdown in
    (name (store r) = None /\ store_chain (store r) = None
     \/ exists pattern n chain,
          In (pattern, n, chain) storePatterns
          /\ name (store r) = Some (js n)
          /\ store_chain (store r) = Some (js chain))
    /\ (card_type (payment r) = None
        \/ card_type (payment r) = Some (js "VISA")
        \/ card_type (payment r) = Some (js "EC"))
    /\ (points_earned (loyalty r) = None /\ program (loyalty r) = None
        \/ (exists points, points_earned (loyalty r) = Some points)
           /\ program (loyalty r) = Some (js "PAYBACK")).
Proof.
  intros markdown.
  pose (Q := fun r : Result =>
    (name (store r) = None /\ store_chain (store r) = None
     \/ exists pattern n chain,
          In (pattern, n, chain) storePatterns
          /\ name (store r) = Some (js n)
          /\ store_chain (store r) = Some (js chain))
    /\ (card_type (payment r) = None
        \/ card_type (payment r) = Some (js "VISA")
        \/ card_type (payment r) = Some (js "EC"))
    /\ (points_earned (loyalty r) = None /\ program (loyalty r) = None
        \/ (exists points, points_earned (loyalty r) = Some points)
           /\ program (loyalty r) = Some (js "PAYBACK"))).
  change (Q (parseMarkdown random36 numToString now markdown)).
  apply scalars_inv; unfold Q.
  - intros a b Hs _. unfold scalars_of in Hs.
    injection Hs as _ E2 _ E4 _ _ E7. rewrite E2, E4, E7. tauto.
  - cbn. tauto.
  - intros line [m s i t p c f l w d]. fields. intros (Hs & Hp & Hl).
    refine (conj _ (conj _ _)).
    + assert (Hn : forall s',
                 name s' = None /\ store_chain s' = None
                 \/ (exists pattern n chain,
                        In (pattern, n, chain) storePatterns
                        /\ name s' = Some (js n)
                        /\ store_chain s' = Some (js chain)) ->
                 let s1 := if str_set (address s') then s'
                           else if test plain re_address line
                                then set_address (Some (trim line)) s'
                                else s' in
                 let s2 := if str_set (phone s1) then s1
                           else if test icase re_phone line
                                then set_phone (Some (trim line)) s1
                                else s1 in
                 let s3 := if str_set (tax_id s2) then s2
                           else match exec icase re_tax_id line with
                                | Some m => set_tax_id (group m 1) s2
                                | None => s2
                                end in
                 name s3 = None /\ store_chain s3 = None
                 \/ (exists pattern n chain,
                        In (pattern, n, chain) storePatterns
                        /\ name s3 = Some (js n)
                        /\ store_chain s3 = Some (js chain))).
      { intros s' H. cbv zeta. split_tests; cbn; exact H. }
      unfold extractStoreInfo.
      destruct (str_set (name s)); [apply Hn; exact Hs|].
      destruct (findStore storePatterns line) as [[n chain]|] eqn:E;
        [|apply Hn; exact Hs].
      apply Hn. right. apply findStore_In in E. destruct E as [pattern E].
      exists pattern, n, chain. cbn. repeat split. exact E.
    + unfold extractPaymentInfo.
      destruct (str_set (method p)).
      * split_tests; cbn; exact Hp.
      * destruct (test icase re_payment_method line);
          [|split_tests; cbn; exact Hp].
        destruct (includes line (js "VISA"));
          [split_tests; cbn; tauto|].
        destruct (includes line (js "EC"));
          [split_tests; cbn; tauto|].
        split_tests; cbn; exact Hp.
    + unfold extractLoyaltyInfo.
      destruct (num_set (points_earned l)); [exact Hl|].
      destruct (exec icase re_payback line); [|exact Hl].
      right. cbn. split; [eexists; reflexivity | reflexivity].
  - intros text [m s i t p c f l w d]. unfold extractPatternData. fields.
    intros H. split_fields; exact H.
Qed.

End Fields.

(** *** The strategies *)

Section Strategies.

Variable random36 : nat -> jsstring.
Variable numToString : jsnum -> jsstring.
Variable now : jsstring.

Lemma lineData_items_kept :
  forall line r,
    items r <> [] -> items (lineData random36 line r) = items r.
Proof.
  intros line r Hr. unfold lineData.
  destruct (nonempty (trim line)); [|reflexivity]. fields.
  destruct (items r) as [|it l] eqn:E; [contradiction|].
  cbn [List.length Nat.eqb]. fields. exact E.
Qed.

Lemma extractLineData_items_kept :
  forall lines r,
    items r <> [] -> items (extractLineData random36 lines r) = items r.
Proof.
  unfold extractLineData.
  induction lines as [|line lines IH]; intros r Hr; cbn [fold_left];
    [reflexivity|].
  pose proof (@lineData_items_kept line r Hr) as E.
  rewrite IH; [exact E | rewrite E; exact Hr].
Qed.

(** The pass over the lines, started without an item: it ends without
    one, no line that is not blank being read as an item, or with the item
    of the first line that is read as one. *)
Lemma extractLineData_first_item :
  forall lines r,
    items r = [] ->
    (items (extractLineData random36 lines r) = []
     /\ draws (extractLineData random36 lines r) = draws r
     /\ forall line, In line lines -> nonempty (trim line) = true ->
                     extractItem random36 (draws r) (trim line) = None)
    \/ (exists line it,
           In line lines
           /\ extractItem random36 (draws r) (trim line) = Some it
           /\ items (extractLineData random36 lines r) = [it]).
Proof.
  induction lines as [|line lines IH]; intros r Hr.
  - left. repeat split; [exact Hr | intros line []].
  - change (extractLineData random36 (line :: lines) r)
      with (extractLineData random36 lines (lineData random36 line r)).
    destruct (nonempty (trim line)) eqn:Hne.
    + destruct (extractItem random36 (draws r) (trim line)) as [it|] eqn:E.
      * right. exists line, it. split; [left; reflexivity|].
        split; [exact E|].
        assert (Hl : items (lineData random36 line r) = [it]).
        { unfold lineData. rewrite Hne. fields. rewrite Hr.
          cbn [List.length Nat.eqb]. rewrite E. unfold push_opt, push.
          fields. rewrite ?Hr. reflexivity. }
        rewrite extractLineData_items_kept; [exact Hl|].
        rewrite Hl. discriminate.
      * assert (Hl : items (lineData random36 line r) = []
                     /\ draws (lineData random36 line r) = draws r).
        { unfold lineData. rewrite Hne. fields. rewrite Hr.
          cbn [List.length Nat.eqb]. rewrite E. cbn [push_opt].
          fields. rewrite ?Hr. split; reflexivity. }
        destruct Hl as [Hl Hd].
        destruct (IH _ Hl) as [(H1 & H2 & H3)|(l & it & H1 & H2 & H3)];
          [left | right].
        -- refine (conj H1 (conj _ _)); [congruence|].
           intros l [<-|Hin] Hl'; [exact E|].
           rewrite <- Hd. apply H3; assumption.
        -- exists l, it. rewrite <- Hd.
           repeat split; [right; exact H1 | exact H2 | exact H3].
    + assert (Hl : lineData random36 line r = r).
      { unfold lineData. rewrite Hne. reflexivity. }
      rewrite Hl.
      destruct (IH r Hr) as [(H1 & H2 & H3)|(l & it & H1 & H2 & H3)];
        [left | right].
      * refine (conj H1 (conj H2 _)). intros l [<-|Hin] Hl'.
        -- congruence.
        -- apply H3; assumption.
      * exists l, it. repeat split; [right; exact H1 | exact H2 | exact H3].
Qed.

Lemma pattern_draws :
  forall markdown r, draws (extractPatternData markdown r) = draws r.
Proof.
  intros markdown r. unfold extractPatternData. split_tests; reflexivity.
Qed.

(** X15. The strategies never mix their items.  When the structured pass
    finds items, the receipt has exactly these.  Otherwise, when the pass
    over the lines reads an item, the receipt has this one item: it is the
    item of a line that names no header or total, its text is the trimmed
    line, and its price is a number above zero.  Otherwise no line that is
    not blank is read as an item by extractItem, and the receipt has the
    items of the fallback, one for each product name. *)
Theorem strategies_do_not_mix :
  forall (markdown : jsstring),
    let lines := split_on LF markdown in
    let r1 := extractStructuredData random36 numToString lines
                                    (initial now markdown) in
    let r := parseMarkdown random36 numToString now markdown in
    (items r1 <> [] /\ items r = items r1)
    \/ (items r1 = []
        /\ exists line it,
             In line lines
             /\ extractItem random36 (draws r1) (trim line) = Some it
             /\ items r = [it]
             /\ isHeaderOrTotal (trim line) = false
             /\ line_text it = trim line
             /\ exists p, total_price it = Some p /\ gt0 p = true)
    \/ (items r1 = []
        /\ (forall line, In line lines -> nonempty (trim line) = true ->
                         extractItem random36 (draws r1) (trim line) = None)
        /\ items r = uniqueItems [] (fst (potentialItems random36 lines
                                                         (draws r1)))).
Proof.
  intros markdown lines r1 r. unfold r, parseMarkdown. cbv zeta.
  fold lines. fold r1. rewrite pattern_items.
  destruct (items r1) as [|it0 l0] eqn:E1.
  - right.
    destruct (@extractLineData_first_item lines r1 E1)
      as [(H1 & H2 & H3)|(line & it & H1 & H2 & H3)].
    + right. rewrite H1. cbn [List.length Nat.eqb].
      refine (conj eq_refl (conj H3 _)).
      unfold extractItemsFallback. fold lines.
      rewrite pattern_draws, H2.
      destruct (potentialItems random36 lines (draws r1)) as [potential n].
      cbn [items with_items fst]. rewrite pattern_items, H1. reflexivity.
    + left. rewrite H3. cbn [List.length Nat.eqb].
      rewrite pattern_items.
      refine (conj eq_refl _). exists line, it.
      refine (conj H1 (conj H2 (conj H3 _))).
      unfold extractItem in H2.
      destruct (isHeaderOrTotal (trim line)); [discriminate|].
      apply extractItem_from_literal in H2.
      destruct H2 as (_ & _ & _ & _ & Ht & _ & p & Hp & _ & Hpos).
      refine (conj eq_refl (conj Ht _)). exists p. split; assumption.
  - left. split; [discriminate|].
    assert (Hne : items r1 <> []) by (rewrite E1; discriminate).
    rewrite (@extractLineData_items_kept lines r1 Hne), E1.
    cbn [List.length Nat.eqb]. rewrite pattern_items.
    rewrite (@extractLineData_items_kept lines r1 Hne). exact E1.
Qed.

Lemma str_eqb_eq : forall a b, str_eqb a b = true <-> a = b.
Proof.
  induction a as [|x a IH]; intros [|y b]; cbn [str_eqb]; split;
    try discriminate; try reflexivity.
  - intros H. apply andb_true_iff in H. destruct H as [H1 H2].
    apply N.eqb_eq in H1. apply IH in H2. congruence.
  - intros H. injection H as -> ->. rewrite N.eqb_refl.
    apply IH. reflexivity.
Qed.

Lemma existsb_str_eqb :
  forall key seen, existsb (str_eqb key) seen = true <-> In key seen.
Proof.
  intros key seen. rewrite existsb_exists. split.
  - intros (x & Hx & E). apply str_eqb_eq in E. subst x. exact Hx.
  - intros H. exists key. split; [exact H | apply str_eqb_eq; reflexivity].
Qed.

Lemma uniqueItems_spec :
  forall l seen,
    NoDup (map (fun it => toLowerCase (product_name it)) (uniqueItems seen l))
    /\ (forall it, In it (uniqueItems seen l) ->
                   In it l /\ ~ In (toLowerCase (product_name it)) seen)
    /\ (forall it, In it l ->
                   In (toLowerCase (product_name it)) seen
                   \/ exists first, In first (uniqueItems seen l)
                                    /\ toLowerCase (product_name first)
                                       = toLowerCase (product_name it)).
Proof.
  induction l as [|it l IH]; intros seen; cbn [uniqueItems].
  - repeat split; [constructor | contradiction | contradiction | contradiction].
  - destruct (existsb (str_eqb (toLowerCase (product_name it))) seen) eqn:E.
    + apply existsb_str_eqb in E.
      destruct (IH seen) as (H1 & H2 & H3). refine (conj H1 (conj _ _)).
      * intros x Hx. destruct (H2 x Hx). split; [right|]; assumption.
      * intros x [<-|Hx]; [left; exact E | apply H3; exact Hx].
    + assert (Hnot : ~ In (toLowerCase (product_name it)) seen).
      { intros H. apply existsb_str_eqb in H. congruence. }
      destruct (IH (toLowerCase (product_name it) :: seen)) as (H1 & H2 & H3).
      refine (conj _ (conj _ _)).
      * cbn [map]. constructor; [|exact H1].
        intros H. apply in_map_iff in H. destruct H as (x & Ex & Hx).
        destruct (H2 x Hx) as [_ K]. apply K. left. symmetry. exact Ex.
      * intros x [<-|Hx]; [split; [left; reflexivity | exact Hnot]|].
        destruct (H2 x Hx) as [K1 K2]. split; [right; exact K1|].
        intros K. apply K2. right. exact K.
      * intros x [<-|Hx].
        -- right. exists it. split; [left|]; reflexivity.
        -- destruct (H3 x Hx) as [[K|K]|(first & K1 & K2)].
           ++ right. exists it. split; [left; reflexivity | exact K].
           ++ left. exact K.
           ++ right. exists first. split; [right; exact K1 | exact K2].
Qed.

Lemma fallbackItem_from_spec :
  forall pats n line it,
    fallbackItem_from random36 pats n line = Some it ->
    isNotAProduct (product_name it) = false /\ line_text it = line.
Proof.
  induction pats as [|r pats IH]; intros n line it; cbn [fallbackItem_from];
    [discriminate|].
  destruct (exec icase r line) as [m|]; [|apply IH].
  destruct (isNotAProduct (trim (group_text m 1))) eqn:E; [apply IH|].
  intros H; injection H as <-. split; [exact E | reflexivity].
Qed.

Lemma potentialItems_spec :
  forall lines n it,
    In it (fst (potentialItems random36 lines n)) ->
    isNotAProduct (product_name it) = false
    /\ isHeaderOrTotal (line_text it) = false
    /\ nonempty (line_text it) = true
    /\ exists line, In line lines /\ line_text it = trim line.
Proof.
  induction lines as [|line lines IH]; intros n it; cbn [potentialItems];
    [intros []|].
  assert (Hstep : forall k,
             In it (fst (potentialItems random36 lines k)) ->
             isNotAProduct (product_name it) = false
             /\ isHeaderOrTotal (line_text it) = false
             /\ nonempty (line_text it) = true
             /\ exists l, In l (line :: lines) /\ line_text it = trim l).
  { intros k H. destruct (IH k it H) as (H1 & H2 & H3 & l & H4 & H5).
    refine (conj H1 (conj H2 (conj H3 _))). exists l.
    split; [right; exact H4 | exact H5]. }
  destruct (negb (nonempty (trim line)) || isHeaderOrTotal (trim line)) eqn:E;
    [apply Hstep|].
  apply orb_false_iff in E. destruct E as [E1 E2].
  apply negb_false_iff in E1.
  destruct (fallbackItem_from random36 fallbackPatterns n (trim line))
    as [x|] eqn:Ex; [|apply Hstep].
  specialize (Hstep (S n)).
  destruct (potentialItems random36 lines (S n)) as [l n']. cbn [fst] in *.
  intros [<-|H]; [|apply Hstep; exact H].
  apply fallbackItem_from_spec in Ex. destruct Ex as [K1 K2].
  rewrite K2. refine (conj K1 (conj E2 (conj E1 _))).
  exists line. split; [left|]; reflexivity.
Qed.

(** X16. The fallback adds one item for each product name it reads,
    compared in lower case: the names of the items it adds differ pairwise,
    the name of every line it could read is the name of an item it adds,
    and every item it adds was read from a line that is not blank and names
    no header or total, under a name that holds none of the words that
    isNotAProduct excludes. *)
Theorem fallback_items_are_distinct :
  forall (markdown : jsstring) (r : Result),
    let potential := fst (potentialItems random36 (split_on LF markdown)
                                         (draws r)) in
    let added := uniqueItems [] potential in
    let key := fun it => toLowerCase (product_name it) in
    items (extractItemsFallback random36 markdown r) = items r ++ added
    /\ NoDup (map key added)
    /\ (forall it, In it potential ->
                   exists first, In first added /\ key first = key it)
    /\ Forall (fun it =>
                 isNotAProduct (product_name it) = false
                 /\ isHeaderOrTotal (line_text it) = false
                 /\ nonempty (line_text it) = true
                 /\ exists line, In line (split_on LF markdown)
                                 /\ line_text it = trim line)
              added.
Proof.
  intros markdown r potential added key.
  destruct (uniqueItems_spec potential []) as (H1 & H2 & H3).
  refine (conj _ (conj H1 (conj _ _))).
  - unfold extractItemsFallback. unfold added, potential.
    destruct (potentialItems random36 (split_on LF markdown) (draws r)).
    reflexivity.
  - intros it Hit. destruct (H3 it Hit) as [[]|H]. exact H.
  - apply Forall_forall. intros it Hit. destruct (H2 it Hit) as [Hin _].
    exact (potentialItems_spec _ _ _ Hin).
Qed.

End Strategies.

(** *** Parts of the structured pass that add no item *)

Section DeadParts.

Variable random36 : nat -> jsstring.
Variable numToString : jsnum -> jsstring.

Local Open Scope N_scope.

Lemma matches_two_stars :
  forall x,
    matches plain (lit "**") x
    = if startsWith (rest x) (js "**")
      then [{| rest := skipn 2 (rest x); prev := Some (chr "*");
               caps := caps x |}]
      else [].
Proof.
  intros [[|a [|b s]] p c]; change (js "**") with [42; 42];
    change (chr "*") with 42;
    change (lit "**") with (Seq (Chr 42) (Seq (Chr 42) Eps));
    cbn -[N.eqb]; try reflexivity.
  - destruct (42 =? a); reflexivity.
  - destruct (42 =? a) eqn:Ea; cbn -[N.eqb]; [|reflexivity].
    destruct (42 =? b) eqn:Eb; cbn -[N.eqb]; [|reflexivity].
    apply N.eqb_eq in Eb. subst b. destruct s; reflexivity.
Qed.

(** A pattern that starts with two stars finds nothing in a string that
    holds no two stars in a row. *)
Lemma exec_needs_two_stars :
  forall r s p idx,
    includes s (js "**") = false ->
    exec_from plain (Seq (lit "**") r) p s idx = None.
Proof.
  intros r. induction s as [|c s IH]; intros p idx H.
  - cbn [exec_from]. unfold first_at. cbn [matches].
    rewrite matches_two_stars. reflexivity.
  - cbn [includes] in H. apply orb_false_iff in H. destruct H as [H1 H2].
    cbn [exec_from]. unfold first_at. cbn [matches].
    rewrite matches_two_stars. cbn [rest]. rewrite H1. cbn [flat_map hd_error].
    apply IH. exact H2.
Qed.

Lemma first_at_two_stars :
  forall p s,
    first_at plain re_bold_marker p s
    = if startsWith s (js "**")
      then Some {| rest := skipn 2 s; prev := Some (chr "*"); caps := [] |}
      else None.
Proof.
  intros p s. unfold first_at, re_bold_marker. rewrite matches_two_stars.
  cbn [rest caps]. destruct (startsWith s (js "**")); reflexivity.
Qed.

Lemma startsWith_nil : forall s, startsWith s [] = true.
Proof. intros [|c s]; reflexivity. Qed.

(** Once every pair of stars is removed, no two stars stand in a row. *)
Lemma remove_all_two_stars :
  forall n s p,
    (List.length s <= n)%nat ->
    includes (remove_all_from plain re_bold_marker p s 0) (js "**") = false.
Proof.
  induction n as [|n IH]; intros s p Hn.
  - destruct s; [reflexivity | cbn in Hn; lia].
  - destruct s as [|c s]; [reflexivity|].
    cbn [remove_all_from]. rewrite first_at_two_stars.
    destruct (startsWith (c :: s) (js "**")) eqn:E.
    + destruct s as [|d t];
        [cbn in E; rewrite andb_false_r in E; discriminate|].
      cbn [rest skipn List.length].
      replace (S (S (List.length t)) - List.length t)%nat with 2%nat by lia.
      cbn [remove_all_from]. apply IH. cbn in Hn. lia.
    + cbn [includes].
      rewrite (IH s (Some c)) by (cbn in Hn; lia). rewrite orb_false_r.
      change (js "**") with [42; 42] in *. cbn [startsWith] in *.
      destruct (42 =? c) eqn:Ec; [|reflexivity]. cbn [andb] in *.
      destruct s as [|d t]; [reflexivity|].
      cbn [startsWith] in E. rewrite startsWith_nil, andb_true_r in E.
      cbn [remove_all_from]. rewrite first_at_two_stars.
      change (js "**") with [42; 42]. cbn [startsWith].
      rewrite E. cbn [andb startsWith]. rewrite E. reflexivity.
Qed.

Lemma parseListItem_none :
  forall n line, parseListItem random36 n line = None.
Proof.
  intros n line. unfold parseListItem.
  set (cleanLine := remove_all plain re_bold_marker
                               (remove_first plain re_leading_star line)).
  assert (H : includes cleanLine (js "**") = false).
  { unfold cleanLine, remove_all. eapply remove_all_two_stars. apply le_n. }
  unfold listPatterns, re_list_qty_price, re_list_price, re_list_qty_x_price.
  cbn [parseListItem_from seqs fold_right]. unfold exec.
  rewrite !exec_needs_two_stars by exact H. reflexivity.
Qed.

(** X17. parseListItem never returns an item: it removes every pair of stars
    from the line and then tries three patterns that each start with a pair
    of stars. *)
Theorem parseListItem_never_matches :
  forall (n : nat) (line : jsstring),
    parseListItem random36 n line = None.
Proof. exact parseListItem_none. Qed.

Local Close Scope N_scope.

Lemma startsWith_prefix :
  forall p s, startsWith s p = true -> exists b, s = p ++ b.
Proof.
  induction p as [|x p IH]; intros s H.
  - exists s. reflexivity.
  - destruct s as [|y s]; [discriminate|]. cbn [startsWith] in H.
    apply andb_true_iff in H. destruct H as [H1 H2].
    apply N.eqb_eq in H1. subst y.
    destruct (IH s H2) as [b ->]. exists b. reflexivity.
Qed.

Lemma startsWith_app : forall p b, startsWith (p ++ b) p = true.
Proof.
  induction p as [|x p IH]; intros b; [apply startsWith_nil|].
  cbn [app startsWith]. rewrite N.eqb_refl. apply IH.
Qed.

Lemma includes_infix :
  forall p s, includes s p = true -> exists a b, s = a ++ p ++ b.
Proof.
  intros p. induction s as [|c s IH]; cbn [includes]; intros H.
  - rewrite orb_false_r in H. apply startsWith_prefix in H.
    destruct H as [b ->]. exists [], b. reflexivity.
  - apply orb_true_iff in H. destruct H as [H|H].
    + apply startsWith_prefix in H. destruct H as [b ->].
      exists [], b. reflexivity.
    + destruct (IH H) as (a & b & ->). exists (c :: a), b. reflexivity.
Qed.

Lemma includes_app :
  forall a p b, includes (a ++ p ++ b) p = true.
Proof.
  induction a as [|c a IH]; intros p b.
  - cbn [app]. destruct (p ++ b) eqn:E; cbn [includes];
      rewrite <- E, startsWith_app; reflexivity.
  - cbn [app includes]. rewrite IH. apply orb_true_r.
Qed.

(** A line that holds the heading "Items Purchased", in either spelling,
    holds the keyword "items" once it is in lower case. *)
Lemma items_purchased_is_items_section :
  forall line,
    includes line (js "Items Purchased") || includes line (js "Items purchased")
    = true ->
    isItemsSection line = true.
Proof.
  intros line H.
  assert (K : exists a b, toLowerCase line = a ++ js "items" ++ b).
  { apply orb_true_iff in H. destruct H as [H|H];
      apply includes_infix in H; destruct H as (a & b & ->);
      exists (toLowerCase a), (js " purchased" ++ toLowerCase b);
      unfold toLowerCase; rewrite !flat_map_app; reflexivity. }
  destruct K as (a & b & K).
  unfold isItemsSection, some_keyword. cbn [existsb]. rewrite K.
  rewrite includes_app. apply orb_true_r.
Qed.

Lemma andThen_assoc :
  forall x f g,
    andThen (andThen x f) g = andThen x (fun v r => andThen (f v r) g).
Proof. intros [v r|v r] f g; reflexivity. Qed.

Lemma tableParts_flag :
  forall line following v r,
    inItemsPurchased
      (flow_locals (tableParts random36 numToString line following v r))
    = inItemsPurchased v.
Proof.
  intros line following v r. unfold tableParts.
  assert (H : forall x k,
             inItemsPurchased (flow_locals x) = inItemsPurchased v ->
             (forall v' r', inItemsPurchased (flow_locals (k v' r'))
                            = inItemsPurchased v') ->
             inItemsPurchased (flow_locals (andThen x k))
             = inItemsPurchased v).
  { intros [a b|a b] k Hx Hk; cbn [andThen flow_locals] in *;
      [exact Hx | rewrite Hk; exact Hx]. }
  apply H.
  { unfold productsSection. split_tests; reflexivity. }
  intros v1 r1.
  assert (H1 : forall x k,
             inItemsPurchased (flow_locals x) = inItemsPurchased v1 ->
             (forall v' r', inItemsPurchased (flow_locals (k v' r'))
                            = inItemsPurchased v') ->
             inItemsPurchased (flow_locals (andThen x k))
             = inItemsPurchased v1).
  { intros [a b|a b] k Hx Hk; cbn [andThen flow_locals] in *;
      [exact Hx | rewrite Hk; exact Hx]. }
  apply H1.
  { unfold pipeTable. split_tests; reflexivity. }
  intros v2 r2.
  assert (H2 : forall x k,
             inItemsPurchased (flow_locals x) = inItemsPurchased v2 ->
             (forall v' r', inItemsPurchased (flow_locals (k v' r'))
                            = inItemsPurchased v') ->
             inItemsPurchased (flow_locals (andThen x k))
             = inItemsPurchased v2).
  { intros [a b|a b] k Hx Hk; cbn [andThen flow_locals] in *;
      [exact Hx | rewrite Hk; exact Hx]. }
  apply H2.
  { unfold edekaTable. split_tests; reflexivity. }
  intros v3 r3. unfold standardTable. split_tests; reflexivity.
Qed.

(** A turn of the loop leaves the flag inItemsPurchased down and changes
    the result as its first four parts do. *)
Lemma structuredLine_by_tables :
  forall (raw : jsstring) (following : list jsstring) (v : Locals)
         (r : Result),
    inItemsPurchased v = false ->
    inItemsPurchased
      (fst (structuredLine random36 numToString raw following v r)) = false
    /\ snd (structuredLine random36 numToString raw following v r)
       = if includes (trim raw) (js "Products Purchased")
            || includes (trim raw) (js "Products purchased")
         then r
         else flow_result
                (tableParts random36 numToString (trim raw) following v r).
Proof.
  intros raw following v r Hv. unfold structuredLine.
  destruct (includes (trim raw) (js "Products Purchased")
            || includes (trim raw) (js "Products purchased"));
    [split; [exact Hv | reflexivity]|].
  set (line := trim raw).
  pose (K := fun (v : Locals) (r : Result) =>
               andThen (itemsSection random36 line v r) (fun v r =>
               itemsPurchased random36 line following v r)).
  assert (E : andThen (productsSection random36 numToString line following v r)
                (fun v r =>
                 andThen (pipeTable random36 line v r) (fun v r =>
                 andThen (edekaTable random36 line v r) (fun v r =>
                 andThen (standardTable random36 line v r) (fun v r =>
                 andThen (itemsSection random36 line v r) (fun v r =>
                 itemsPurchased random36 line following v r)))))
              = andThen (tableParts random36 numToString line following v r) K).
  { unfold tableParts. rewrite !andThen_assoc.
    destruct (productsSection random36 numToString line following v r)
      as [v1 r1|v1 r1]; [reflexivity|]. cbn [andThen].
    rewrite !andThen_assoc.
    destruct (pipeTable random36 line v1 r1) as [v2 r2|v2 r2];
      [reflexivity|]. cbn [andThen].
    rewrite !andThen_assoc.
    destruct (edekaTable random36 line v2 r2) as [v3 r3|v3 r3];
      reflexivity. }
  rewrite E. clear E.
  pose proof (tableParts_flag line following v r) as Hflag. rewrite Hv in Hflag.
  assert (HK : forall v4 r4,
             inItemsPurchased v4 = false ->
             inItemsPurchased (fst (finish (K v4 r4))) = false
             /\ snd (finish (K v4 r4)) = r4).
  { intros v4 r4 H4. unfold K, itemsSection.
    destruct (isItemsSection line) eqn:Ei; [split; [exact H4 | reflexivity]|].
    assert (Ep : includes line (js "Items Purchased")
                 || includes line (js "Items purchased") = false).
    { destruct (includes line (js "Items Purchased")
                || includes line (js "Items purchased")) eqn:Ep;
        [|reflexivity].
      apply items_purchased_is_items_section in Ep. congruence. }
    rewrite parseListItem_none. cbn [push_opt].
    split_tests; cbn [andThen]; unfold itemsPurchased; rewrite Ep;
      cbn [inItemsPurchased set_inItemsSection]; rewrite H4;
      cbn [andb finish fst snd]; split; assumption || reflexivity. }
  destruct (tableParts random36 numToString line following v r)
    as [v4 r4|v4 r4]; cbn [andThen flow_locals flow_result] in *.
  - split; [exact Hflag | reflexivity].
  - apply HK. exact Hflag.
Qed.

(** X18. The two bullet-list parts of the structured pass add nothing.  The
    flag inItemsPurchased, down when the loop starts, stays down: a line
    with the heading "Items Purchased" holds the keyword "items", so the
    part before takes it and continues, and parseNewListItem, called only
    under the flag, is never called.  With parseListItem returning no item,
    a turn of the loop changes the result as its first four parts do. *)
Theorem bullet_lists_add_no_item :
  forall (raw : jsstring) (following : list jsstring) (v : Locals)
         (r : Result),
    inItemsPurchased v = false ->
    inItemsPurchased
      (fst (structuredLine random36 numToString raw following v r)) = false
    /\ snd (structuredLine random36 numToString raw following v r)
       = if includes (trim raw) (js "Products Purchased")
            || includes (trim raw) (js "Products purchased")
         then r
         else flow_result
                (tableParts random36 numToString (trim raw) following v r).
Proof. exact structuredLine_by_tables. Qed.

End DeadParts.

(** *** The code of an item *)

Section ItemCode.

Variable random36 : nat -> jsstring.

Local Open Scope N_scope.

Lemma In_firstn :
  forall (A : Type) (n : nat) (l : list A) (x : A),
    In x (firstn n l) -> In x l.
Proof.
  intros A n l x H. rewrite <- (firstn_skipn n l). apply in_or_app. left.
  exact H.
Qed.

Lemma remove_not_alnum_filter :
  forall s p,
    remove_all_from plain re_not_alnum p s 0
    = filter (fun c => in_range 65 90 c || in_range 97 122 c
                       || in_range 48 57 c) s.
Proof.
  induction s as [|c s IH]; intros p; cbn [remove_all_from filter];
    [reflexivity|].
  unfold re_not_alnum. rewrite first_at_class.
  change (existsb (item_matches plain c)
                  [rng "A" "Z"; rng "a" "z"; rng "0" "9"])
    with (in_range 65 90 c
          || (in_range 97 122 c || (in_range 48 57 c || false))).
  fold re_not_alnum. rewrite orb_false_r, orb_assoc.
  destruct (in_range 65 90 c || in_range 97 122 c || in_range 48 57 c);
    cbn [xorb rest];
    try (replace (List.length (c :: s) - List.length s)%nat with 1%nat
          by (cbn [List.length]; lia));
    rewrite IH; reflexivity.
Qed.

Lemma in_range_cases :
  forall lo hi c,
    in_range lo hi c = true ->
    In c (map (fun k => lo + N.of_nat k) (seq 0 (S (N.to_nat hi - N.to_nat lo)))).
Proof.
  intros lo hi c H. unfold in_range in H. apply andb_true_iff in H.
  destruct H as [H1 H2]. apply N.leb_le in H1. apply N.leb_le in H2.
  apply in_map_iff. exists (N.to_nat (c - lo)). split; [lia|].
  apply in_seq. lia.
Qed.

(** The upper case of a letter or digit of ASCII is one capital letter or
    digit. *)
Lemma upper_of_alnum :
  forall c,
    in_range 65 90 c || in_range 97 122 c || in_range 48 57 c = true ->
    exists u, upper_cu c = [u] /\ is_upper_alnum u = true.
Proof.
  intros c H. apply orb_true_iff in H. destruct H as [H|H];
    [apply orb_true_iff in H; destruct H as [H|H]|];
    apply in_range_cases in H; cbn in H;
    repeat (destruct H as [<-|H]; [eexists; split; reflexivity|]);
    contradiction.
Qed.

Lemma upper_of_alnums :
  forall s,
    Forall (fun c => in_range 65 90 c || in_range 97 122 c || in_range 48 57 c
                     = true) s ->
    Forall (fun c => is_upper_alnum c = true) (toUpperCase s)
    /\ List.length (toUpperCase s) = List.length s.
Proof.
  induction s as [|c s IH]; intros H; [split; [constructor | reflexivity]|].
  inversion H as [|c' s' Hc Hs]; subst.
  destruct (upper_of_alnum c Hc) as (u & Eu & Hu).
  destruct (IH Hs) as [H1 H2].
  unfold toUpperCase in *. cbn [flat_map]. rewrite Eu. cbn [app List.length].
  split; [constructor; assumption | rewrite H2; reflexivity].
Qed.

(** X20. The code of an item is at most twelve characters, each a capital
    letter or a digit of ASCII, when the random strings are what
    [Math.random().toString(36)] writes: two characters and then digits of
    base 36. *)
Theorem item_code_is_upper_alnum :
  forall (n : nat) (productName : jsstring),
    (forall k, Forall (fun c => is_base36 c = true) (skipn 2 (random36 k))) ->
    (List.length (generateItemCode random36 n productName) <= 12)%nat
    /\ Forall (fun c => is_upper_alnum c = true)
              (generateItemCode random36 n productName).
Proof.
  intros n productName Hrandom. unfold generateItemCode, remove_all.
  rewrite remove_not_alnum_filter.
  set (clean := filter _ productName).
  assert (Hclean : Forall (fun c => in_range 65 90 c || in_range 97 122 c
                                    || in_range 48 57 c = true) clean).
  { apply Forall_forall. intros c Hc. apply filter_In in Hc. tauto. }
  destruct (upper_of_alnums Hclean) as [H1 _].
  assert (Hdraw : Forall (fun c => in_range 65 90 c || in_range 97 122 c
                                   || in_range 48 57 c = true)
                         (substring 2 6 (random36 n))).
  { unfold substring. apply Forall_forall. intros c Hc.
    apply In_firstn in Hc. specialize (Hrandom n).
    rewrite Forall_forall in Hrandom. specialize (Hrandom c Hc).
    unfold is_base36, is_digit in Hrandom.
    change (chr "a") with 97 in Hrandom. change (chr "z") with 122 in Hrandom.
    destruct (in_range 48 57 c), (in_range 97 122 c), (in_range 65 90 c);
      cbn in *; congruence. }
  destruct (upper_of_alnums Hdraw) as [H2 H3].
  split.
  - rewrite length_app, H3. unfold substring.
    rewrite !length_firstn. lia.
  - apply Forall_app. split; [|exact H2].
    unfold substring. apply Forall_forall. intros c Hc.
    apply In_firstn in Hc. cbn [skipn] in Hc.
    rewrite Forall_forall in H1. apply H1. exact Hc.
Qed.

End ItemCode.

(** *** The first total wins *)

Section FirstTotal.

Variable random36 : nat -> jsstring.
Variable numToString : jsnum -> jsstring.
Variable now : jsstring.

Lemma extractTotals_total :
  forall line t,
    total_amount t = None ->
    total_amount (extractTotals line t) = extractTotal line.
Proof.
  intros line [s v r a c] H. cbn in H. subst a. unfold extractTotals.
  cbn [total_amount num_set].
  destruct (extractTotal line) as [a|] eqn:E.
  - unfold extractTotal in E. apply firstTotal_positive in E.
    destruct E as [E _]. cbn [num_set]. rewrite E.
    split_tests; reflexivity.
  - cbn [num_set]. split_tests; reflexivity.
Qed.

Lemma lineData_total :
  forall line r,
    total_amount (totals r) = None ->
    nonempty (trim line) = true ->
    total_amount (totals (lineData random36 line r)) = extractTotal (trim line).
Proof.
  intros line r H Hne. unfold lineData. rewrite Hne.
  match goal with
  | |- context [if ?c then push_opt ?o ?a else ?a] =>
      assert (E : totals (if c then push_opt o a else a) = totals a)
        by (destruct c; [destruct o|]; reflexivity)
  end.
  rewrite E. fields. apply extractTotals_total. exact H.
Qed.

Lemma extractTotal_blank : extractTotal [] = None.
Proof. vm_compute. reflexivity. Qed.

Lemma extractLineData_no_total :
  forall pre r,
    total_amount (totals r) = None ->
    (forall l, In l pre -> extractTotal (trim l) = None) ->
    total_amount (totals (extractLineData random36 pre r)) = None.
Proof.
  induction pre as [|l pre IH]; intros r H Hpre; [exact H|].
  change (extractLineData random36 (l :: pre) r)
    with (extractLineData random36 pre (lineData random36 l r)).
  apply IH; [|intros x Hx; apply Hpre; right; exact Hx].
  destruct (nonempty (trim l)) eqn:Hne.
  - rewrite lineData_total by assumption. apply Hpre. left. reflexivity.
  - unfold lineData. rewrite Hne. exact H.
Qed.

(** X12. For the total, the first match wins: when extractTotal reads an
    amount in a line and in none of the lines before it, that amount is the
    total of the receipt, whatever stands in the lines after it and
    whatever the pass over the document would read. *)
Theorem first_total_wins :
  forall (markdown : jsstring) (pre : list jsstring) (line : jsstring)
         (post : list jsstring) (amount : jsnum),
    split_on LF markdown = pre ++ line :: post ->
    (forall l, In l pre -> extractTotal (trim l) = None) ->
    extractTotal (trim line) = Some amount ->
    total_amount (totals (parseMarkdown random36 numToString now markdown))
    = Some amount.
Proof.
  intros markdown pre line post amount Hsplit Hpre Hline.
  set (r0 := extractStructuredData random36 numToString (split_on LF markdown)
                                   (initial now markdown)).
  assert (H0 : total_amount (totals r0) = None).
  { pose proof (structuredLoop_scalars random36 numToString
                  (split_on LF markdown) initLocals (initial now markdown)) as E.
    unfold scalars_of in E. injection E as _ _ E _ _ _ _.
    unfold r0, extractStructuredData. rewrite E. reflexivity. }
  set (r1 := lineData random36 line (extractLineData random36 pre r0)).
  assert (H1 : total_amount (totals r1) = Some amount).
  { unfold r1. rewrite lineData_total.
    - exact Hline.
    - apply extractLineData_no_total; assumption.
    - destruct (trim line); [|reflexivity].
      rewrite extractTotal_blank in Hline. discriminate. }
  assert (Hkept : fields_kept r1 (parseMarkdown random36 numToString now markdown)).
  { unfold parseMarkdown. cbv zeta. fold r0.
    assert (E : extractLineData random36 (split_on LF markdown) r0
                = extractLineData random36 post r1).
    { rewrite Hsplit. unfold extractLineData, r1.
      rewrite fold_left_app. reflexivity. }
    rewrite E.
    eapply fields_kept_trans; [apply extractLineData_kept|].
    eapply fields_kept_trans; [apply extractPatternData_kept|].
    destruct (Nat.eqb _ 0); [|apply fields_kept_refl].
    apply fields_kept_same_scalars, extractItemsFallback_scalars. }
  destruct Hkept as (_ & _ & (Hk & _) & _).
  unfold kept in Hk. rewrite Hk, H1; [reflexivity|].
  rewrite H1. cbn [num_set]. unfold extractTotal in Hline.
  apply firstTotal_positive in Hline. tauto.
Qed.

End FirstTotal.

(** *** Every item has a name *)

Section Names.

Variable random36 : nat -> jsstring.
Variable numToString : jsnum -> jsstring.
Variable now : jsstring.

Lemma trimStart_last :
  forall c l,
    is_whitespace c = false -> exists w, trimStart (l ++ [c]) = w ++ [c].
Proof.
  intros c l Hc. induction l as [|a l IH]; cbn [app trimStart].
  - rewrite Hc. exists []. reflexivity.
  - destruct (is_whitespace a); [exact IH|]. exists (a :: l). reflexivity.
Qed.

Lemma trimEnd_head :
  forall c s, is_whitespace c = false -> exists t, trimEnd (c :: s) = c :: t.
Proof.
  intros c s Hc. unfold trimEnd. cbn [rev].
  destruct (@trimStart_last c (rev s) Hc) as [w ->].
  rewrite rev_app_distr. exists (rev w). reflexivity.
Qed.

(** A string that starts with a code unit that is no white space keeps it
    when it is trimmed. *)
Lemma trim_head :
  forall c s, is_whitespace c = false -> exists t, trim (c :: s) = c :: t.
Proof.
  intros c s Hc. unfold trim. cbn [trimStart]. rewrite Hc.
  apply trimEnd_head. exact Hc.
Qed.

Lemma trimStart_head :
  forall s,
    trimStart s = []
    \/ exists c t, trimStart s = c :: t /\ is_whitespace c = false.
Proof.
  induction s as [|a s IH]; [left; reflexivity|]. cbn [trimStart].
  destruct (is_whitespace a) eqn:E; [exact IH|].
  right. exists a, s. split; [reflexivity | exact E].
Qed.

(** A trimmed string that is not empty starts with a code unit that is no
    white space. *)
Lemma trimmed_head :
  forall s,
    nonempty (trim s) = true ->
    exists c t, trim s = c :: t /\ is_whitespace c = false.
Proof.
  intros s H. unfold trim in *.
  destruct (trimStart_head s) as [E|(c & t & E & Hc)]; rewrite E in *.
  - discriminate.
  - destruct (@trimEnd_head c t Hc) as [u Hu]. exists c, u.
    split; assumption.
Qed.

Lemma fallbackItem_from_named :
  forall n c t it,
    is_whitespace c = false ->
    fallbackItem_from random36 fallbackPatterns n (c :: t) = Some it ->
    nonempty (product_name it) = true.
Proof.
  intros n c t it Hc.
  assert (Hname : forall r m,
             In r fallbackPatterns ->
             exec icase r (c :: t) = Some m ->
             nonempty (trim (group_text m 1)) = true).
  { intros r m Hr Hm.
    assert (Hg : exists a pre post,
               c :: t = a :: pre ++ post /\ group m 1 = Some (a :: pre)).
    { unfold fallbackPatterns in Hr.
      destruct Hr as [<-|[<-|[<-|[]]]];
        cbn [seqs fold_right] in Hm; unfold plus, name_char in Hm;
        refine (@anchored_group_text icase 1 _ _ _ _ _ _ _ eq_refl _ Hm);
        cbn; intuition discriminate. }
    destruct Hg as (a & pre & post & Hs & Hg). injection Hs as <- _.
    unfold group_text. rewrite Hg.
    destruct (@trim_head c pre Hc) as [u ->]. reflexivity. }
  revert Hname. generalize fallbackPatterns.
  induction l as [|r pats IH]; intros Hname; cbn [fallbackItem_from];
    [discriminate|].
  destruct (exec icase r (c :: t)) as [m|] eqn:E.
  - destruct (isNotAProduct (trim (group_text m 1))).
    + apply IH. intros r' m' Hr'. apply Hname. right. exact Hr'.
    + intros H. injection H as <-. cbn [mkItem product_name].
      eapply Hname; [left; reflexivity | exact E].
  - apply IH. intros r' m' Hr'. apply Hname. right. exact Hr'.
Qed.

Lemma potentialItems_named :
  forall lines n,
    Forall (fun it => nonempty (product_name it) = true)
           (fst (potentialItems random36 lines n)).
Proof.
  induction lines as [|line lines IH]; intros n; cbn [potentialItems];
    [constructor|].
  destruct (negb (nonempty (trim line)) || isHeaderOrTotal (trim line)) eqn:E;
    [apply IH|].
  apply orb_false_iff in E. destruct E as [E _]. apply negb_false_iff in E.
  destruct (fallbackItem_from random36 fallbackPatterns n (trim line))
    as [it|] eqn:Ei; [|apply IH].
  specialize (IH (S n)).
  destruct (potentialItems random36 lines (S n)) as [l n']. cbn [fst] in *.
  constructor; [|exact IH].
  destruct (@trimmed_head line E) as (c & t & Et & Hc). rewrite Et in Ei.
  eapply fallbackItem_from_named; eassumption.
Qed.

Lemma parseEDEKATableRow_named :
  forall n line it,
    parseEDEKATableRow random36 n line = Some it ->
    nonempty (product_name it) = true.
Proof.
  intros n line it. unfold parseEDEKATableRow.
  destruct (_ || _); [discriminate|].
  set (parts := keep_nonblank (split plain re_two_spaces line)).
  destruct (Nat.leb 2 (List.length parts)) eqn:E; [|discriminate].
  destruct (isNotAProduct (trim (nth 0 parts []))); [discriminate|].
  intros H. injection H as <-. cbn [mkItem product_name].
  assert (Hin : In (nth 0 parts []) parts).
  { apply nth_In. apply Nat.leb_le in E. lia. }
  unfold parts, keep_nonblank in Hin. apply filter_In in Hin. tauto.
Qed.

Lemma parseTableRow_named :
  forall n columns it,
    parseTableRow random36 n columns = Some it ->
    nonempty (product_name it) = true.
Proof.
  intros n columns it. unfold parseTableRow.
  destruct (nth_error columns 0) as [itemName|]; [|discriminate].
  destruct (nonempty itemName) eqn:E; cbn [negb orb]; [|discriminate].
  destruct (_ || _); [discriminate|].
  intros H. injection H as <-. exact E.
Qed.

Lemma tableParts_named :
  forall line following v r,
    Forall (fun it => nonempty (product_name it) = true) (items r) ->
    Forall (fun it => nonempty (product_name it) = true)
           (items (flow_result
                     (tableParts random36 numToString line following v r))).
Proof.
  intros line following v r Hr. unfold tableParts.
  pose (P := fun it : LineItem => nonempty (product_name it) = true).
  assert (Hpush : forall it a, Forall P (items a) -> P it ->
                               Forall P (items (push it a))).
  { intros it a Ha Hit. unfold push, with_items. cbn [items].
    apply Forall_app. split; [exact Ha | constructor; [exact Hit|constructor]]. }
  assert (Hopt : forall o a,
             Forall P (items a) -> (forall it, o = Some it -> P it) ->
             Forall P (items (push_opt o a))).
  { intros [it|] a Ha Ho; cbn [push_opt]; [apply Hpush; auto | exact Ha]. }
  assert (Hthen : forall x k,
             Forall P (items (flow_result x)) ->
             (forall v' r', Forall P (items r') ->
                            Forall P (items (flow_result (k v' r')))) ->
             Forall P (items (flow_result (andThen x k)))).
  { intros [a b|a b] k Hx Hk; cbn [andThen flow_result] in *; auto. }
  fold P in Hr |- *.
  apply Hthen.
  { unfold productsSection.
    destruct (currentProduct v) as [p|] eqn:Ecur; cbn [str_set];
      [destruct (nonempty p) eqn:Ep|]; cbn [andb];
      split_tests; cbn [flow_result]; try exact Hr;
      (apply Hpush; [exact Hr | exact Ep]). }
  intros v1 r1 H1. apply Hthen.
  { unfold pipeTable.
    destruct (currentProduct v1) as [p|] eqn:Ecur; cbn [str_set];
      [destruct (nonempty p) eqn:Ep|]; cbn [andb];
      split_tests; cbn [flow_result]; try exact H1;
      (apply Hpush; [exact H1 | exact Ep]). }
  intros v2 r2 H2. apply Hthen.
  { unfold edekaTable. split_tests; cbn [flow_result]; try exact H2.
    apply Hopt; [exact H2 | apply parseEDEKATableRow_named]. }
  intros v3 r3 H3.
  unfold standardTable. split_tests; cbn [flow_result]; try exact H3.
  apply Hopt; [exact H3 | apply parseTableRow_named].
Qed.

Lemma structuredLoop_named :
  forall lines v r,
    inItemsPurchased v = false ->
    Forall (fun it => nonempty (product_name it) = true) (items r) ->
    Forall (fun it => nonempty (product_name it) = true)
           (items (structuredLoop random36 numToString lines v r)).
Proof.
  induction lines as [|raw following IH]; intros v r Hv Hr;
    cbn [structuredLoop]; [exact Hr|].
  destruct (@structuredLine_by_tables random36 numToString raw following v r Hv)
    as [H1 H2].
  destruct (structuredLine random36 numToString raw following v r) as [v' r'].
  cbn [fst snd] in H1, H2. apply IH; [exact H1|]. rewrite H2.
  destruct (_ || _); [exact Hr | apply tableParts_named; exact Hr].
Qed.

Lemma items_named :
  forall markdown,
    Forall (fun it => nonempty (product_name it) = true)
           (items (parseMarkdown random36 numToString now markdown)).
Proof.
  intros markdown. unfold parseMarkdown. cbv zeta.
  set (P := fun it : LineItem => nonempty (product_name it) = true).
  assert (H3 : Forall P (items
                 (extractPatternData markdown
                    (extractLineData random36 (split_on LF markdown)
                       (extractStructuredData random36 numToString
                          (split_on LF markdown) (initial now markdown)))))).
  { rewrite pattern_items. apply extractLineData_all.
    - intros n line it. unfold extractItem.
      destruct (isHeaderOrTotal line); [discriminate|].
      intros H. apply extractItem_from_literal in H. unfold P. tauto.
    - unfold extractStructuredData. apply structuredLoop_named;
        [reflexivity | constructor]. }
  match goal with |- context [Nat.eqb ?a ?b] => destruct (Nat.eqb a b) end;
    [|exact H3].
  unfold extractItemsFallback.
  pose proof (potentialItems_named (split_on LF markdown)
                (draws (extractPatternData markdown
                    (extractLineData random36 (split_on LF markdown)
                       (extractStructuredData random36 numToString
                          (split_on LF markdown) (initial now markdown))))))
    as Hp.
  destruct (potentialItems _ _ _) as [potential n]. cbn [fst] in Hp.
  cbn [items with_items]. apply Forall_app. split; [exact H3|].
  apply uniqueItems_all. exact Hp.
Qed.

(** X19. Every item of a receipt has a product name that is not empty,
    whichever strategy read it. *)
Theorem every_item_has_a_name :
  forall (markdown : jsstring),
    Forall (fun it => nonempty (product_name it) = true)
           (items (parseMarkdown random36 numToString now markdown)).
Proof. exact items_named. Qed.

End Names.

(** *** A text of white space *)

Section Blank.

Variable random36 : nat -> jsstring.
Variable numToString : jsnum -> jsstring.
Variable now : jsstring.

Lemma whitespace_cases :
  forall c, is_whitespace c = true -> In c whitespace.
Proof.
  intros c H. unfold is_whitespace in H.
  repeat (apply orb_true_iff in H; destruct H as [H|H]);
    try (apply N.eqb_eq in H; subst c; vm_compute; tauto);
    apply in_range_cases in H; vm_compute in H; vm_compute; tauto.
Qed.

Lemma trimStart_blank :
  forall s, Forall (fun c => is_whitespace c = true) s -> trimStart s = [].
Proof.
  induction s as [|c s IH]; intros H; [reflexivity|].
  inversion H as [|c' s' Hc Hs]; subst. cbn [trimStart]. rewrite Hc.
  apply IH. exact Hs.
Qed.

Lemma trim_blank :
  forall s, Forall (fun c => is_whitespace c = true) s -> trim s = [].
Proof. intros s H. unfold trim. rewrite trimStart_blank by exact H. reflexivity. Qed.

Lemma split_on_blank :
  forall s,
    Forall (fun c => is_whitespace c = true) s ->
    Forall (fun line => trim line = []) (split_on LF s).
Proof.
  intros s H.
  assert (K : Forall (Forall (fun c => is_whitespace c = true))
                     (split_on LF s)).
  { induction s as [|c s IH]; cbn [split_on]; [repeat constructor|].
    inversion H as [|c' s' Hc Hs]; subst. specialize (IH Hs).
    destruct (N.eqb c LF); [constructor; [constructor | exact IH]|].
    destruct (split_on LF s) as [|h t]; [repeat constructor; exact Hc|].
    inversion IH; subst. constructor; [constructor|]; assumption. }
  eapply Forall_impl; [|exact K]. intros line Hl. apply trim_blank. exact Hl.
Qed.

(** No pattern of the two passes over the document can start at a code
    unit of white space, and none matches without reading. *)
Lemma document_patterns_need_ink :
  forallb (fun p => negb (nullable (snd p))
                    && forallb (fun c => negb (first (fst p) (snd p) c))
                               whitespace)
          (documentTotalPatterns ++ datePatterns) = true.
Proof. vm_compute. reflexivity. Qed.

Lemma exec_blank :
  forall p text,
    In p (documentTotalPatterns ++ datePatterns) ->
    Forall (fun c => is_whitespace c = true) text ->
    exec (fst p) (snd p) text = None.
Proof.
  intros p text Hp Ht.
  pose proof document_patterns_need_ink as H.
  rewrite forallb_forall in H. specialize (H p Hp).
  apply andb_true_iff in H. destruct H as [H1 H2].
  apply negb_true_iff in H1. rewrite forallb_forall in H2.
  apply exec_none; [exact H1|]. intros c Hc.
  rewrite Forall_forall in Ht. specialize (Ht c Hc).
  apply whitespace_cases in Ht. specialize (H2 c Ht).
  apply negb_true_iff in H2. exact H2.
Qed.

Lemma firstTotal_none :
  forall pats text,
    (forall p, In p pats -> exec (fst p) (snd p) text = None) ->
    firstTotal pats text = None.
Proof.
  induction pats as [|[fl r] pats IH]; intros text H; cbn [firstTotal];
    [reflexivity|].
  pose proof (H (fl, r) (or_introl eq_refl)) as E. cbn [fst snd] in E.
  rewrite E. apply IH. intros p Hp. apply H. right. exact Hp.
Qed.

Lemma extractDate_from_none :
  forall pats text,
    (forall p, In p pats -> exec (fst p) (snd p) text = None) ->
    extractDate_from pats text = None.
Proof.
  induction pats as [|[fl r] pats IH]; intros text H; cbn [extractDate_from];
    [reflexivity|].
  pose proof (H (fl, r) (or_introl eq_refl)) as E. cbn [fst snd] in E.
  rewrite E. apply IH. intros p Hp. apply H. right. exact Hp.
Qed.

Lemma structuredLine_blank :
  forall raw following v r,
    trim raw = [] ->
    snd (structuredLine random36 numToString raw following v r) = r.
Proof.
  intros raw following [a b c d e f] r H. unfold structuredLine.
  rewrite H.
  destruct a, b, c, d, f, e as [[|x p]|]; vm_compute; reflexivity.
Qed.

Lemma structuredLoop_blank :
  forall lines v r,
    Forall (fun line => trim line = []) lines ->
    structuredLoop random36 numToString lines v r = r.
Proof.
  induction lines as [|raw following IH]; intros v r H; cbn [structuredLoop];
    [reflexivity|].
  inversion H as [|l ls Hl Hls]; subst.
  pose proof (@structuredLine_blank raw following v r Hl) as E.
  destruct (structuredLine random36 numToString raw following v r) as [v' r'].
  cbn [snd] in E. subst r'. apply IH. exact Hls.
Qed.

Lemma extractLineData_blank :
  forall lines r,
    Forall (fun line => trim line = []) lines ->
    extractLineData random36 lines r = r.
Proof.
  induction lines as [|line lines IH]; intros r H; [reflexivity|].
  inversion H as [|l ls Hl Hls]; subst.
  change (extractLineData random36 (line :: lines) r)
    with (extractLineData random36 lines (lineData random36 line r)).
  unfold lineData. rewrite Hl. cbn [nonempty]. apply IH. exact Hls.
Qed.

Lemma potentialItems_blank :
  forall lines n,
    Forall (fun line => trim line = []) lines ->
    potentialItems random36 lines n = ([], n).
Proof.
  induction lines as [|line lines IH]; intros n H; [reflexivity|].
  inversion H as [|l ls Hl Hls]; subst. cbn [potentialItems].
  rewrite Hl. cbn [nonempty negb orb]. apply IH. exact Hls.
Qed.

(** X21. A text of white space, the empty text among them, gives the empty
    receipt: no field is filled, no item is read and no random number is
    drawn. *)
Theorem blank_text_gives_the_empty_receipt :
  forall (markdown : jsstring),
    Forall (fun c => is_whitespace c = true) markdown ->
    parseMarkdown random36 numToString now markdown = initial now markdown.
Proof.
  intros markdown H. pose proof (split_on_blank H) as Hl.
  unfold parseMarkdown. cbv zeta. unfold extractStructuredData.
  rewrite structuredLoop_blank by exact Hl.
  rewrite extractLineData_blank by exact Hl.
  assert (E : extractPatternData markdown (initial now markdown)
              = initial now markdown).
  { unfold extractPatternData. cbn [initial totals total_amount num_set].
    rewrite firstTotal_none.
    - cbn [metadata date str_set]. rewrite extractDate_from_none; [reflexivity|].
      intros p Hp. apply exec_blank; [|exact H].
      apply in_or_app. right. exact Hp.
    - intros p Hp. apply exec_blank; [|exact H].
      apply in_or_app. left. exact Hp. }
  rewrite E. cbn [initial items List.length Nat.eqb].
  unfold extractItemsFallback. cbn [draws].
  rewrite potentialItems_blank by exact Hl. reflexivity.
Qed.

End Blank.

(** *** The shape of a date and of a time *)

Section Shapes.

Variable random36 : nat -> jsstring.
Variable numToString : jsnum -> jsstring.
Variable now : jsstring.

Local Open Scope N_scope.

(** A code unit whose canonical form is below the capital letters is its
    own canonical form. *)
Lemma canon_low : forall c, canon c < 65 -> canon c = c.
Proof.
  intros c. unfold canon, upper_cu, in_range.
  repeat match goal with
         | |- context [if ?b then _ else _] => destruct b eqn:?
         end;
    repeat match goal with
           | H : (_ && _) = true |- _ => apply andb_true_iff in H; destruct H
           | H : (_ && _) = false |- _ => apply andb_false_iff in H
           | H : negb _ = true |- _ => apply negb_true_iff in H
           | H : negb _ = false |- _ => apply negb_false_iff in H
           | H : (_ <=? _) = true |- _ => apply N.leb_le in H
           | H : (_ <=? _) = false |- _ => apply N.leb_gt in H
           | H : (_ <? _) = true |- _ => apply N.ltb_lt in H
           | H : (_ <? _) = false |- _ => apply N.ltb_ge in H
           | H : (_ =? _) = true |- _ => apply N.eqb_eq in H
           | H : (_ =? _) = false |- _ => apply N.eqb_neq in H
           end;
    intros; try reflexivity; try lia.
Qed.

Lemma canon_is_low :
  forall k c, k < 65 -> (k =? canon c) = true -> c = k.
Proof.
  intros k c Hk H. apply N.eqb_eq in H. subst k. symmetry.
  apply canon_low. exact Hk.
Qed.

(** The alphabet of the date with dots, under the [i] flag too. *)
Lemma dotted_date_alphabet :
  forall fl c, alphabet fl dotted_date c = true -> is_date_char c = true.
Proof.
  intros [[|] m] c H; cbn -[N.eqb canon] in H.
  - change (canon 48) with 48 in H. change (canon 49) with 49 in H.
    change (canon 50) with 50 in H. change (canon 51) with 51 in H.
    change (canon 52) with 52 in H. change (canon 53) with 53 in H.
    change (canon 54) with 54 in H. change (canon 55) with 55 in H.
    change (canon 56) with 56 in H. change (canon 57) with 57 in H.
    change (canon 46) with 46 in H.
    repeat (apply orb_true_iff in H; destruct H as [H|H]);
      try discriminate;
      (apply canon_is_low in H; [subst c; reflexivity | reflexivity]).
  - unfold is_date_char.
    repeat (apply orb_true_iff in H; destruct H as [H|H]);
      try discriminate;
      try (rewrite H; reflexivity);
      apply N.eqb_eq in H; subst c; reflexivity.
Qed.

Lemma seq_inv :
  forall fl a b x y,
    In y (matches fl (Seq a b) x) ->
    exists z, In z (matches fl a x) /\ In y (matches fl b z).
Proof. intros fl a b x y H. cbn [matches] in H. apply in_flat_map. exact H. Qed.

Lemma extractDate_from_shape :
  forall text d,
    extractDate_from datePatterns text = Some d ->
    List.length d = 10%nat /\ Forall (fun c => is_date_char c = true) d.
Proof.
  intros text d.
  assert (Hplain : forall r m,
             width r = Some 10%nat ->
             (forall c, alphabet plain r c = true -> is_date_char c = true) ->
             exec plain (Grp 1 r) text = Some m ->
             group m 1 = Some d ->
             List.length d = 10%nat
             /\ Forall (fun c => is_date_char c = true) d).
  { intros r m Hw Ha Hm Hg. apply exec_from_inv in Hm.
    destruct Hm as (x & y & Hy & _ & Hc).
    destruct (@group_shape plain 1 r 10%nat x y Hw Hy) as (t & Ht & Lt & Ft).
    unfold group in Hg. rewrite Hc, Ht in Hg. injection Hg as <-.
    split; [exact Lt|]. eapply Forall_impl; [|exact Ft]. exact Ha. }
  assert (Hlabel : forall label m,
             exec icase (seqs [lit label; star space; Grp 1 dotted_date]) text
             = Some m ->
             group m 1 = Some d ->
             List.length d = 10%nat
             /\ Forall (fun c => is_date_char c = true) d).
  { intros label m Hm Hg. apply exec_from_inv in Hm.
    destruct Hm as (x & y & Hy & _ & Hc).
    cbn [seqs fold_right] in Hy.
    apply seq_inv in Hy. destruct Hy as (z1 & _ & Hy).
    apply seq_inv in Hy. destruct Hy as (z2 & _ & Hy).
    apply seq_inv in Hy. destruct Hy as (z3 & Hz & Hy).
    cbn [matches] in Hy. destruct Hy as [<-|[]].
    destruct (@group_shape icase 1 dotted_date 10%nat z2 z3 eq_refl Hz)
      as (t & Ht & Lt & Ft).
    unfold group in Hg. rewrite Hc, Ht in Hg. injection Hg as <-.
    split; [exact Lt|]. eapply Forall_impl; [|exact Ft].
    apply dotted_date_alphabet. }
  assert (Hchars : forall sep c,
             is_date_char sep = true ->
             is_digit c || (sep =? c) = true -> is_date_char c = true).
  { intros sep c Hsep H. apply orb_true_iff in H. destruct H as [H|H].
    - unfold is_date_char. rewrite H. reflexivity.
    - apply N.eqb_eq in H. subst c. exact Hsep. }
  assert (Hdash : forall c,
             alphabet plain
               (seqs [times 4 digit; lit "-"; times 2 digit; lit "-";
                      times 2 digit]) c = true ->
             is_date_char c = true).
  { intros c H. cbn -[N.eqb] in H. apply (Hchars 45); [reflexivity|].
    destruct (is_digit c); [reflexivity|].
    destruct (45 =? c); [reflexivity | discriminate]. }
  assert (Hslash : forall c,
             alphabet plain
               (seqs [times 2 digit; lit "/"; times 2 digit; lit "/";
                      times 4 digit]) c = true ->
             is_date_char c = true).
  { intros c H. cbn -[N.eqb] in H. apply (Hchars 47); [reflexivity|].
    destruct (is_digit c); [reflexivity|].
    destruct (47 =? c); [reflexivity | discriminate]. }
  unfold datePatterns. cbn [extractDate_from].
  repeat match goal with
         | |- context [match exec plain (Grp 1 ?r) text with _ => _ end] =>
             let E := fresh "E" in
             destruct (exec plain (Grp 1 r) text) as [m|] eqn:E;
             [first [ exact (Hplain r m eq_refl Hdash E)
                    | exact (Hplain r m eq_refl
                                    (dotted_date_alphabet plain) E)
                    | exact (Hplain r m eq_refl Hslash E) ]|]
         | |- context [match exec icase ?r text with _ => _ end] =>
             let E := fresh "E" in
             destruct (exec icase r text) as [m|] eqn:E;
             [exact (Hlabel _ m E)|]
         end.
  discriminate.
Qed.

Lemma time_shape :
  forall line m t,
    exec plain re_time line = Some m ->
    group m 1 = Some t ->
    List.length t = 5%nat /\ Forall (fun c => is_time_char c = true) t.
Proof.
  intros line m t Hm Hg. unfold re_time in Hm. apply exec_from_inv in Hm.
  destruct Hm as (x & y & Hy & _ & Hc).
  destruct (@group_shape plain 1
              (seqs [times 2 digit; lit ":"; times 2 digit]) 5%nat x y
              eq_refl Hy) as (u & Hu & Lu & Fu).
  unfold group in Hg. rewrite Hc, Hu in Hg. injection Hg as <-.
  split; [exact Lu|]. eapply Forall_impl; [|exact Fu].
  intros c H. cbn -[N.eqb] in H. unfold is_time_char.
  destruct (is_digit c); [reflexivity|]. cbn [orb] in *.
  rewrite N.eqb_sym. change (chr ":") with 58.
  destruct (58 =? c); [reflexivity | discriminate].
Qed.

(** X26. The date of a receipt, when the receipt has one, is a string of
    ten characters, each a digit, a dash, a dot or a slash, and its time of
    day a string of five characters, each a digit or a colon. *)
Theorem date_and_time_have_a_fixed_shape :
  forall (markdown : jsstring),
    let r := parseMarkdown random36 numToString now markdown in
    (forall d, date (metadata r) = Some d ->
               List.length d = 10%nat
               /\ Forall (fun c => is_date_char c = true) d)
    /\ (forall t, time (metadata r) = Some t ->
                  List.length t = 5%nat
                  /\ Forall (fun c => is_time_char c = true) t).
Proof.
  intros markdown.
  pose (Q := fun r : Result =>
    (forall d, date (metadata r) = Some d ->
               List.length d = 10%nat
               /\ Forall (fun c => is_date_char c = true) d)
    /\ (forall t, time (metadata r) = Some t ->
                  List.length t = 5%nat
                  /\ Forall (fun c => is_time_char c = true) t)).
  change (Q (parseMarkdown random36 numToString now markdown)).
  apply scalars_inv; unfold Q.
  - intros a b Hs _. unfold scalars_of in Hs.
    injection Hs as E1 _ _ _ _ _ _. rewrite E1. tauto.
  - split; intros x; discriminate.
  - intros line [[dt tm rn ti] s i t p c f l w d]. fields. intros [Hd Ht].
    cbn [date time] in Hd, Ht.
    unfold extractMetadata. cbn [date time].
    assert (Hd' : forall x,
               date (if str_set dt then
                       {| date := dt; time := tm; receipt_number := rn;
                          transaction_id := ti |}
                     else if str_set (extractDate line)
                     then set_date (extractDate line)
                                   {| date := dt; time := tm;
                                      receipt_number := rn;
                                      transaction_id := ti |}
                     else {| date := dt; time := tm; receipt_number := rn;
                             transaction_id := ti |}) = Some x ->
               List.length x = 10%nat
               /\ Forall (fun c => is_date_char c = true) x).
    { intros x. destruct (str_set dt); [exact (Hd x)|].
      destruct (str_set (extractDate line)); [|exact (Hd x)].
      cbn [set_date date]. apply extractDate_from_shape. }
    set (m1 := if str_set dt then _ else _) in *.
    assert (Et : time m1 = tm).
    { unfold m1. destruct (str_set dt); [reflexivity|].
      destruct (str_set (extractDate line)); reflexivity. }
    rewrite Et.
    destruct (str_set tm).
    + split; [exact Hd' | rewrite Et; exact Ht].
    + destruct (exec plain re_time line) as [tmatch|] eqn:E.
      * cbn [set_time date time]. split; [exact Hd'|].
        intros x Hx. eapply time_shape; eassumption.
      * split; [exact Hd' | rewrite Et; exact Ht].
  - intros text [[dt tm rn ti] s i t p c f l w cs pt pi d].
    unfold extractPatternData.
    fields. cbn [date time]. intros [Hd Ht].
    assert (K : forall t0 : Totals,
               let r0 := {| metadata := {| date := dt; time := tm;
                                           receipt_number := rn;
                                           transaction_id := ti |};
                            store := s; items := i; totals := t0;
                            payment := p; cashier_info := c;
                            fiscal_info := f; loyalty := l;
                            raw_markdown := w; confidence_score := cs;
                            processing_time := pt; processing_info := pi;
                            draws := d |} in
               let r1 := if str_set dt then r0
                         else match extractDate_from datePatterns text with
                              | Some x =>
                                  with_metadata (set_date (Some x) (metadata r0))
                                                r0
                              | None => r0
                              end in
               (forall x, date (metadata r1) = Some x ->
                          List.length x = 10%nat
                          /\ Forall (fun c => is_date_char c = true) x)
               /\ (forall x, time (metadata r1) = Some x ->
                             List.length x = 5%nat
                             /\ Forall (fun c => is_time_char c = true) x)).
    { intros t0. cbv zeta. destruct (str_set dt); [split; assumption|].
      destruct (extractDate_from datePatterns text) as [x|] eqn:E;
        [|split; assumption].
      fields. cbn [set_date date time]. split; [|exact Ht].
      intros y Hy. injection Hy as <-.
      apply (extractDate_from_shape _ E). }
    destruct (num_set (total_amount t));
      [|destruct (firstTotal documentTotalPatterns text)]; fields;
      cbn [date time]; apply K.
Qed.

End Shapes.

(** *** What a pass leaves as it is *)

Section Frames.

Variable random36 : nat -> jsstring.
Variable numToString : jsnum -> jsstring.

Lemma appends_refl : forall r, appends r r.
Proof. intros r. exists []. symmetry. apply app_nil_r. Qed.

Lemma appends_trans :
  forall r1 r2 r3, appends r1 r2 -> appends r2 r3 -> appends r1 r3.
Proof.
  intros r1 r2 r3 [a Ha] [b Hb]. exists (a ++ b).
  rewrite Hb, Ha, app_assoc. reflexivity.
Qed.

Lemma appends_push : forall it r, appends r (push it r).
Proof. intros it r. exists [it]. reflexivity. Qed.

Lemma appends_push_opt : forall o r, appends r (push_opt o r).
Proof.
  intros [it|] r; [apply appends_push | apply appends_refl].
Qed.

Lemma andThen_appends :
  forall x k r,
    appends r (flow_result x) ->
    (forall v r', appends r' (flow_result (k v r'))) ->
    appends r (flow_result (andThen x k)).
Proof.
  intros [v a|v a] k r Hx Hk; cbn [andThen flow_result] in *;
    [exact Hx | eapply appends_trans; [exact Hx | apply Hk]].
Qed.

Lemma structuredLine_appends :
  forall raw following v r,
    appends r (snd (structuredLine random36 numToString raw following v r)).
Proof.
  intros raw following v r. unfold structuredLine.
  destruct (_ || _); [apply appends_refl|]. rewrite finish_result.
  apply andThen_appends.
  { unfold productsSection. split_tests; cbn [flow_result];
      first [apply appends_refl | apply appends_push]. }
  intros v1 r1. apply andThen_appends.
  { unfold pipeTable. split_tests; cbn [flow_result];
      first [apply appends_refl | apply appends_push]. }
  intros v2 r2. apply andThen_appends.
  { unfold edekaTable. split_tests; cbn [flow_result];
      first [apply appends_refl | apply appends_push_opt]. }
  intros v3 r3. apply andThen_appends.
  { unfold standardTable. split_tests; cbn [flow_result];
      first [apply appends_refl | apply appends_push_opt]. }
  intros v4 r4. apply andThen_appends.
  { unfold itemsSection. split_tests; cbn [flow_result];
      first [apply appends_refl | apply appends_push_opt]. }
  intros v5 r5. unfold itemsPurchased. split_tests; cbn [flow_result];
    first [apply appends_refl | apply appends_push_opt].
Qed.

Lemma structuredLoop_appends :
  forall lines v r,
    appends r (structuredLoop random36 numToString lines v r).
Proof.
  induction lines as [|raw following IH]; intros v r; cbn [structuredLoop];
    [apply appends_refl|].
  pose proof (structuredLine_appends raw following v r) as H.
  destruct (structuredLine random36 numToString raw following v r) as [v' r'].
  eapply appends_trans; [exact H | apply IH].
Qed.

(** X25. No pass removes or reorders an item, and each pass leaves the
    fields of the others as they are.  The structured pass and the fallback
    append items and change no scalar field; the pass over the lines
    appends one item at most; the pass over the document changes no item
    and, of the scalar fields, only the total and the date. *)
Theorem passes_keep_to_their_fields :
  forall (lines : list jsstring) (markdown : jsstring) (r : Result),
    (appends r (extractStructuredData random36 numToString lines r)
     /\ scalars_of (extractStructuredData random36 numToString lines r)
        = scalars_of r)
    /\ (exists added,
           items (extractLineData random36 lines r) = items r ++ added
           /\ List.length added <= 1)
    /\ (items (extractPatternData markdown r) = items r
        /\ store (extractPatternData markdown r) = store r
        /\ payment (extractPatternData markdown r) = payment r
        /\ cashier_info (extractPatternData markdown r) = cashier_info r
        /\ fiscal_info (extractPatternData markdown r) = fiscal_info r
        /\ loyalty (extractPatternData markdown r) = loyalty r
        /\ set_total_amount (total_amount (totals r))
                            (totals (extractPatternData markdown r))
           = totals r
        /\ set_date (date (metadata r))
                    (metadata (extractPatternData markdown r))
           = metadata r)
    /\ (appends r (extractItemsFallback random36 markdown r)
        /\ scalars_of (extractItemsFallback random36 markdown r)
           = scalars_of r).
Proof.
  intros lines markdown r. refine (conj _ (conj _ (conj _ _))).
  - split; [apply structuredLoop_appends | apply structuredLoop_scalars].
  - destruct (items r) as [|it0 l0] eqn:E.
    + destruct (@extractLineData_first_item random36 lines r E)
        as [(H1 & _)|(line & it & _ & _ & H3)].
      * exists []. rewrite H1. split; [reflexivity | cbn; lia].
      * exists [it]. rewrite H3. split; [reflexivity | cbn; lia].
    + exists []. rewrite app_nil_r. split; [|cbn; lia].
      rewrite extractLineData_items_kept; [exact E|].
      rewrite E. discriminate.
  - destruct r as [[dt tm rn ti] s i [st va vr ta cu] p c f l w d].
    unfold extractPatternData. fields.
    cbn [total_amount date].
    destruct (num_set ta);
      [|destruct (firstTotal documentTotalPatterns markdown)]; fields;
      cbn [date]; (destruct (str_set dt);
       [|destruct (extractDate_from datePatterns markdown)]); fields;
      repeat split.
  - split; [|apply extractItemsFallback_scalars].
    unfold extractItemsFallback, appends.
    destruct (potentialItems random36 (split_on LF markdown) (draws r))
      as [potential n].
    exists (uniqueItems [] potential). reflexivity.
Qed.

End Frames.

(** *** The theorems at sample inputs *)

Lemma total_amount_is_positive_witness :
  total_amount (totals (parseMarkdown fixed_random show_whole noon mockMarkdown))
  = Some (JFin (7 # 2))
  /\ gt0 (JFin (7 # 2)) = true.
Proof.
  assert (H : total_amount (totals (parseMarkdown fixed_random show_whole noon
                                                  mockMarkdown))
              = Some (JFin (7 # 2))) by (vm_compute; reflexivity).
  split; [exact H|].
  exact (proj1 (@total_amount_is_positive fixed_random show_whole noon
                  mockMarkdown
                  (JFin (7 # 2)) H)).
Defined.

Lemma bullet_lists_add_no_item_witness :
  inItemsPurchased initLocals = false
  /\ inItemsPurchased
       (fst (structuredLine fixed_random show_whole (js "## Items Purchased")
                            [] initLocals (initial noon []))) = false.
Proof.
  split; [reflexivity|].
  exact (proj1 (@bullet_lists_add_no_item fixed_random show_whole
                  (js "## Items Purchased") [] initLocals (initial noon [])
                  eq_refl)).
Defined.

Lemma item_code_is_upper_alnum_witness :
  (forall k, Forall (fun c => is_base36 c = true) (skipn 2 (fixed_random k)))
  /\ (List.length (generateItemCode fixed_random 0 (js "Bio Äpfel 1kg")) <= 12)%nat.
Proof.
  assert (H : forall k : nat,
             Forall (fun c => is_base36 c = true) (skipn 2 (fixed_random k))).
  { intros k. unfold fixed_random. vm_compute. repeat constructor. }
  split; [exact H|].
  exact (proj1 (@item_code_is_upper_alnum fixed_random 0 (js "Bio Äpfel 1kg") H)).
Defined.

Lemma first_total_wins_witness :
  split_on LF mockMarkdown
  = [js "# Receipt"; []] ++ js "Vollmilch 3.5% 2x €3.50"
      :: [js "Vollkornbrot 1x €2.80"; js "Bio Äpfel 1kg €4.20";
          js "Tomaten 500g €2.50"; []; js "Total: €13.00";
          js "Date: 2024-01-15"]
  /\ (forall l, In l [js "# Receipt"; []] -> extractTotal (trim l) = None)
  /\ extractTotal (trim (js "Vollmilch 3.5% 2x €3.50")) = Some (JFin (7 # 2))
  /\ total_amount (totals (parseMarkdown fixed_random show_whole noon mockMarkdown))
     = Some (JFin (7 # 2)).
Proof.
  assert (H1 : split_on LF mockMarkdown
               = [js "# Receipt"; []] ++ js "Vollmilch 3.5% 2x €3.50"
                   :: [js "Vollkornbrot 1x €2.80"; js "Bio Äpfel 1kg €4.20";
                       js "Tomaten 500g €2.50"; []; js "Total: €13.00";
                       js "Date: 2024-01-15"])
    by (vm_compute; reflexivity).
  assert (H2 : forall l, In l [js "# Receipt"; []] ->
                         extractTotal (trim l) = None).
  { intros l [<-|[<-|[]]]; vm_compute; reflexivity. }
  assert (H3 : extractTotal (trim (js "Vollmilch 3.5% 2x €3.50"))
               = Some (JFin (7 # 2))) by (vm_compute; reflexivity).
  refine (conj H1 (conj H2 (conj H3 _))).
  exact (@first_total_wins fixed_random show_whole noon mockMarkdown _ _ _ _
                           H1 H2 H3).
Defined.

Lemma blank_text_gives_the_empty_receipt_witness :
  Forall (fun c => is_whitespace c = true) [32; 10; 9; 10]%N
  /\ parseMarkdown fixed_random show_whole noon [32; 10; 9; 10]%N
     = initial noon [32; 10; 9; 10]%N.
Proof.
  assert (H : Forall (fun c => is_whitespace c = true) [32; 10; 9; 10]%N)
    by (repeat constructor).
  split; [exact H|].
  exact (@blank_text_gives_the_empty_receipt fixed_random show_whole noon _ H).
Defined.

Lemma set_fields_survive_witness :
  split_on LF mockMarkdown
  = [js "# Receipt"; []; js "Vollmilch 3.5% 2x €3.50"]
      ++ [js "Vollkornbrot 1x €2.80"; js "Bio Äpfel 1kg €4.20";
          js "Tomaten 500g €2.50"; []; js "Total: €13.00";
          js "Date: 2024-01-15"]
  /\ fields_kept
       (extractLineData fixed_random
          [js "# Receipt"; []; js "Vollmilch 3.5% 2x €3.50"]
          (extractStructuredData fixed_random show_whole
                                 (split_on LF mockMarkdown)
                                 (initial noon mockMarkdown)))
       (parseMarkdown fixed_random show_whole noon mockMarkdown).
Proof.
  assert (H : split_on LF mockMarkdown
              = [js "# Receipt"; []; js "Vollmilch 3.5% 2x €3.50"]
                  ++ [js "Vollkornbrot 1x €2.80"; js "Bio Äpfel 1kg €4.20";
                      js "Tomaten 500g €2.50"; []; js "Total: €13.00";
                      js "Date: 2024-01-15"])
    by (vm_compute; reflexivity).
  split; [exact H|].
  exact (@set_fields_survive fixed_random show_whole noon mockMarkdown _ _ H).
Defined.

End ReceiptMore.

(* ================================================================== *)
(** ** Facts about the markdown of a recognised text *)
(* ================================================================== *)

Module ServiceMarkdownFacts.
Import JsString Regex ServiceMarkdown.
Local Open Scope string_scope.
Local Open Scope list_scope.

(** A line with a price is a total line: the pattern of isItemLine is the
    last pattern of isTotalLine. *)
Lemma item_line_is_total_line :
  forall line, isItemLine line = true -> isTotalLine line = true.
Proof.
  intros line H. unfold isItemLine in H. apply andb_true_iff in H.
  destruct H as [H _]. unfold isTotalLine, some_pattern, totalPatterns.
  cbn [existsb fst snd]. rewrite H. rewrite !orb_true_r. reflexivity.
Qed.

Lemma convertLine_block :
  forall markdown inItemsSection line,
    nonempty (trim line) = true ->
    convertLine (markdown, inItemsSection) line
    = (markdown ++ block (trim line), inItemsSection).
Proof.
  intros markdown inItemsSection line Hne. unfold convertLine, block.
  rewrite Hne. cbn [negb].
  destruct (isTotalLine (trim line)) eqn:Et; [reflexivity|].
  destruct (isDateLine (trim line)); [reflexivity|].
  destruct (isStoreLine (trim line)); [reflexivity|].
  destruct (isItemLine (trim line)) eqn:Ei; [|reflexivity].
  apply item_line_is_total_line in Ei. congruence.
Qed.

Lemma convertLoop_blocks :
  forall lines markdown inItemsSection,
    Forall (fun line => nonempty (trim line) = true) lines ->
    fold_left convertLine lines (markdown, inItemsSection)
    = (markdown ++ flat_map (fun line => block (trim line)) lines,
       inItemsSection).
Proof.
  induction lines as [|line lines IH]; intros markdown inItemsSection H;
    cbn [fold_left flat_map].
  - rewrite app_nil_r. reflexivity.
  - inversion H as [|l ls Hl Hls]; subst.
    rewrite convertLine_block by exact Hl. rewrite IH by exact Hls.
    rewrite <- app_assoc. reflexivity.
Qed.

Lemma convertToMarkdown_blocks :
  forall text,
    nonempty text = true ->
    convertToMarkdown (Some text)
    = js "# Receipt" ++ [LF; LF]
      ++ flat_map (fun line => block (trim line))
                  (filter (fun line => nonempty (trim line))
                          (split_on LF text)).
Proof.
  intros text H. unfold convertToMarkdown. rewrite H. cbn [negb].
  rewrite convertLoop_blocks.
  - cbn [fst]. rewrite <- app_assoc. reflexivity.
  - apply Forall_forall. intros line Hl. apply filter_In in Hl. tauto.
Qed.

(** X22. The table of items is never written: a line with a price meets the
    test for a total first, so the markdown of a text is its heading and
    then, for each line that is not blank, a section Total, Date and Time
    or Store Information, or a bullet. *)
Theorem items_table_is_never_written :
  forall (text : jsstring),
    nonempty text = true ->
    convertToMarkdown (Some text)
    = js "# Receipt" ++ [LF; LF]
      ++ flat_map
           (fun line =>
              let trimmedLine := trim line in
              if isTotalLine trimmedLine then section "Total" trimmedLine
              else if isDateLine trimmedLine
              then section "Date and Time" trimmedLine
              else if isStoreLine trimmedLine
              then section "Store Information" trimmedLine
              else js "* " ++ trimmedLine ++ [LF])
           (filter (fun line => nonempty (trim line)) (split_on LF text)).
Proof. exact convertToMarkdown_blocks. Qed.

Lemma includes_middle :
  forall a p b, includes (a ++ p ++ b) p = true.
Proof.
  assert (Hs : forall p b, startsWith (p ++ b) p = true).
  { induction p as [|x p IH]; intros b; [destruct b; reflexivity|].
    cbn [app startsWith]. rewrite N.eqb_refl. apply IH. }
  induction a as [|c a IH]; intros p b.
  - cbn [app]. destruct (p ++ b) eqn:E; cbn [includes];
      rewrite <- E, Hs; reflexivity.
  - cbn [app includes]. rewrite IH. apply orb_true_r.
Qed.

Lemma block_holds_line :
  forall t, exists a b, block t = a ++ t ++ b.
Proof.
  intros t. unfold block, section.
  destruct (isTotalLine t); [|destruct (isDateLine t);
                              [|destruct (isStoreLine t)]].
  - exists (js "## " ++ js "Total" ++ [LF; LF] ++ js "* **"),
      (js "**" ++ [LF; LF]).
    rewrite <- !app_assoc. reflexivity.
  - exists (js "## " ++ js "Date and Time" ++ [LF; LF] ++ js "* **"),
      (js "**" ++ [LF; LF]).
    rewrite <- !app_assoc. reflexivity.
  - exists (js "## " ++ js "Store Information" ++ [LF; LF] ++ js "* **"),
      (js "**" ++ [LF; LF]).
    rewrite <- !app_assoc. reflexivity.
  - exists (js "* "), [LF]. reflexivity.
Qed.

(** X23. No line is lost: every line of the text that is not blank stands,
    trimmed, in the markdown. *)
Theorem every_line_is_written :
  forall (text line : jsstring),
    In line (split_on LF text) ->
    nonempty (trim line) = true ->
    includes (convertToMarkdown (Some text)) (trim line) = true.
Proof.
  intros text line Hin Hne.
  assert (Ht : nonempty text = true).
  { destruct text; [|reflexivity]. cbn in Hin. destruct Hin as [<-|[]].
    discriminate. }
  rewrite convertToMarkdown_blocks by exact Ht.
  assert (Hl : In line (filter (fun line => nonempty (trim line))
                               (split_on LF text)))
    by (apply filter_In; split; assumption).
  apply in_split in Hl. destruct Hl as (l1 & l2 & ->).
  rewrite flat_map_app. cbn [flat_map].
  destruct (block_holds_line (trim line)) as (a & b & ->).
  rewrite !app_assoc. rewrite <- !app_assoc.
  match goal with
  | |- includes (?h ++ ?hh ++ ?x ++ ?a0 ++ ?t ++ ?rest) _ = true =>
      replace (h ++ hh ++ x ++ a0 ++ t ++ rest)
        with ((h ++ hh ++ x ++ a0) ++ t ++ rest)
        by (rewrite <- !app_assoc; reflexivity)
  end.
  apply includes_middle.
Qed.

Lemma items_table_is_never_written_witness :
  nonempty (js "Milch 1,99 €") = true
  /\ convertToMarkdown (Some (js "Milch 1,99 €"))
     = js "# Receipt" ++ [LF; LF] ++ section "Total" (js "Milch 1,99 €").
Proof.
  split; [reflexivity|].
  rewrite (@items_table_is_never_written (js "Milch 1,99 €") eq_refl).
  vm_compute. reflexivity.
Defined.

Lemma every_line_is_written_witness :
  In (js "  Brot  ") (split_on LF (js "Milch 1,99 €" ++ LF :: js "  Brot  "))
  /\ nonempty (trim (js "  Brot  ")) = true
  /\ includes (convertToMarkdown
                 (Some (js "Milch 1,99 €" ++ LF :: js "  Brot  ")))
              (js "Brot") = true.
Proof.
  assert (H1 : In (js "  Brot  ")
                  (split_on LF (js "Milch 1,99 €" ++ LF :: js "  Brot  ")))
    by (vm_compute; tauto).
  refine (conj H1 (conj eq_refl _)).
  exact (@every_line_is_written _ _ H1 eq_refl).
Defined.

End ServiceMarkdownFacts.

(* ================================================================== *)
(** ** Facts about the markdown of an answer *)
(* ================================================================== *)

Module MultiOCRMarkdownFacts.
Import JsString MultiOCR MultiOCRSpec MultiOCRMore MultiOCRMarkdown.
Local Open Scope string_scope.
Local Open Scope list_scope.

(** X8. The answer of a run is always rendered by the converter of the
    backend it names: the backend is a registered one, so the generic
    markdown of MultiOCRService.convertToMarkdown is never written for an
    answer of processImage. *)
Theorem answer_is_rendered_by_its_backend :
  forall (services : list string) (behave : string -> Outcome)
         (config : Config) (toFixed1 : Q -> jsstring) (a : Answer),
    fst (processImage services behave config) = Returns a ->
    convertToMarkdown services toFixed1 a
    = ServiceMarkdown.convertToMarkdown (Some (text (result a))).
Proof.
  intros services behave config toFixed1 a H.
  assert (Ha : available services (service_used a) = true).
  { destruct (processImage_cases services behave config)
      as [(r & Hp & _ & _ & E & _)
         |[(r & _ & Hf & _ & _ & _ & E & _)|(l & _ & _ & _ & E & _)]];
      rewrite E in H.
    - injection H as <-. exact Hp.
    - injection H as <-. exact Hf.
    - destruct (fst (tryRemaining behave config services None l)) as [b|] eqn:Eb;
        [|discriminate].
      injection H as <-. apply tryRemaining_best in Eb.
      destruct Eb as [[Eb _]|(pre & post & Eb & _)]; [discriminate|].
      apply available_In. rewrite Eb. apply in_or_app. right. left.
      reflexivity. }
  unfold convertToMarkdown. rewrite Ha. reflexivity.
Qed.

Lemma answer_is_rendered_by_its_backend_witness :
  fst (processImage three_services Samples.all_low Samples.defaults)
  = Returns {| result := Samples.noise; service_used := "azure";
               fallback_used := true |}
  /\ convertToMarkdown three_services (fun _ => [])
       {| result := Samples.noise; service_used := "azure";
          fallback_used := true |}
     = ServiceMarkdown.convertToMarkdown (Some (text Samples.noise)).
Proof.
  assert (H : fst (processImage three_services Samples.all_low Samples.defaults)
              = Returns {| result := Samples.noise; service_used := "azure";
                           fallback_used := true |}) by reflexivity.
  split; [exact H|].
  exact (@answer_is_rendered_by_its_backend three_services Samples.all_low
           Samples.defaults (fun _ => []) _ H).
Defined.

End MultiOCRMarkdownFacts.

(* ================================================================== *)
(** ** Facts about the rows handed to the database *)
(* ================================================================== *)

Module DatabaseFacts.
Import JsString Regex JsNum Receipt ReceiptFacts ReceiptMore.
Local Open Scope string_scope.
Local Open Scope list_scope.

Section Stored.

Variable random36 : nat -> jsstring.
Variable numToString : jsnum -> jsstring.
Variable now : jsstring.
Variable generateItemCode : jsstring -> jsstring.



End Stored.

End DatabaseFacts.
